(** * Test-coverage tooling of ainative-website: a shallow embedding

    Two scripts are embedded:
    - [scripts/analyze-test-coverage.py]  (module [Coverage]): the classifier
      ([get_complexity], [get_priority]), the directory scan
      ([analyze_directory]), the ranking of the gap list and the coverage
      percentages of [generate_report];
    - [scripts/generate-test-template.py] (module [Template]): the content
      inspection ([analyze_component]), the skeleton text
      ([generate_test_template]), and the batch driver ([create_test_file],
      [main]).

    Python values are modelled as follows.  [str] is [string] (text is taken
    to be ASCII: on ASCII text [str.lower], [\w] and [\s] are the functions
    below); [int] is [Z]; a [dict] with string keys is a [gmap string _];
    a [pathlib] path is a record of an anchor flag and its parts; the file
    system is a finite map from paths to nodes; exceptions are explicit
    ([option] in the read-only scan, a result type in the synthesizer, which
    also threads the file system and standard output). *)

From stdpp Require Import gmap strings list fin_maps pretty sorting.
From Stdlib Require Import Ascii ZArith QArith Lia.

Open Scope string_scope.
Open Scope Z_scope.

(** ** Python string primitives *)

Module Py.

Definition LF : ascii := Ascii.ascii_of_nat 10.
Definition DQUOTE : ascii := Ascii.ascii_of_nat 34.

(** [needle in s] *)
Fixpoint str_in (needle s : string) : bool :=
  String.prefix needle s ||
  match s with
  | EmptyString => false
  | String _ s' => str_in needle s'
  end.

(** [c.lower()] on one ASCII character *)
Definition lower_ascii (c : ascii) : ascii :=
  let n := Ascii.nat_of_ascii c in
  if (65 <=? n)%nat && (n <=? 90)%nat then Ascii.ascii_of_nat (n + 32) else c.

(** [s.lower()] *)
Fixpoint lower (s : string) : string :=
  match s with
  | EmptyString => EmptyString
  | String c s' => String (lower_ascii c) (lower s')
  end.

(** [sep.join(l)] *)
Fixpoint join (sep : string) (l : list string) : string :=
  match l with
  | [] => ""
  | [x] => x
  | x :: l' => x +:+ sep +:+ join sep l'
  end.

(** [s[n:]] *)
Fixpoint drop_str (n : nat) (s : string) : string :=
  match n, s with
  | O, _ => s
  | S n', String _ s' => drop_str n' s'
  | S _, EmptyString => EmptyString
  end.

(** [str(x)]: a path and a string both answer it. *)
Class Str (A : Type) := str : A → string.
#[export] Instance str_string : Str string := λ s, s.

(** [any(test(p) for p in l)], also the shape of
    [for p in l: if test(p): return ...]. *)
Definition any {A} (test : A → bool) (l : list A) : bool := existsb test l.

End Py.

(** ** pathlib (pure POSIX paths) and the file system *)

Module Pathlib.
Import Py.

Record path := Path { anchored : bool; parts : list string }.

#[export] Instance path_eq_dec : EqDecision path.
Proof. solve_decision. Defined.

#[export] Instance path_countable : Countable path.
Proof.
  refine (inj_countable' (λ p, (anchored p, parts p))
                         (λ x, Path x.1 x.2) _).
  by intros [??].
Defined.

(** [str(p)] *)
Definition path_str (p : path) : string :=
  match anchored p, parts p with
  | true, ps => "/" +:+ join "/" ps
  | false, [] => "."
  | false, ps => join "/" ps
  end.
#[export] Instance str_path : Str path := path_str.

(** Splitting a string at ["/"]: the segments of [Path(s)]. *)
Fixpoint split_slash (cur : string) (s : string) : list string :=
  match s with
  | EmptyString => [cur]
  | String c s' =>
      if Ascii.eqb c "/"%char then cur :: split_slash "" s'
      else split_slash (cur +:+ String c "") s'
  end.

(** [Path(s)]: empty and ["."] segments are dropped. *)
Definition of_string (s : string) : path :=
  Path (String.prefix "/" s)
       (filter (λ seg, seg ≠ "" ∧ seg ≠ ".") (split_slash "" s)).

(** [p / q] for a path [q] *)
Definition joinpath (p q : path) : path :=
  if anchored q then q else Path (anchored p) (parts p ++ parts q)%list.

(** [p / s] for a string [s] *)
Definition div (p : path) (s : string) : path := joinpath p (of_string s).

(** [p.parent] *)
Definition parent (p : path) : path :=
  Path (anchored p) (removelast (parts p)).

(** [p.name] *)
Definition name (p : path) : string := List.last (parts p) "".

(** The name cut at its last dot: [(name[:i], name[i:])] for
    [i = name.rfind('.')], or [None] when it has no dot. *)
Fixpoint split_last_dot (s : string) : option (string * string) :=
  match s with
  | EmptyString => None
  | String c s' =>
      match split_last_dot s' with
      | Some (a, b) => Some (String c a, b)
      | None => if Ascii.eqb c "."%char then Some ("", String c s') else None
      end
  end.

(** [p.suffix]: [name[i:]] if [0 < i < len(name) - 1], else [''] *)
Definition suffix (p : path) : string :=
  match split_last_dot (name p) with
  | Some (a, b) =>
      if negb (String.eqb a "") && (1 <? String.length b)%nat then b else ""
  | None => ""
  end.

(** [p.stem]: [name[:i]] if [0 < i < len(name) - 1], else [name] *)
Definition stem (p : path) : string :=
  match split_last_dot (name p) with
  | Some (a, b) =>
      if negb (String.eqb a "") && (1 <? String.length b)%nat then a
      else name p
  | None => name p
  end.

(** [p.relative_to(base)]; [None] is [ValueError]. *)
Fixpoint strip_parts (base ps : list string) : option (list string) :=
  match base, ps with
  | [], _ => Some ps
  | b :: base', x :: ps' =>
      if String.eqb b x then strip_parts base' ps' else None
  | _ :: _, [] => None
  end.

Definition relative_to (p base : path) : option path :=
  if Bool.eqb (anchored p) (anchored base) then
    Path false <$> strip_parts (parts base) (parts p)
  else None.

(** A node of the file system.  A file that cannot be opened or decoded
    has [readable = false]. *)
Inductive node :=
  | Dir
  | File (content : string) (readable : bool).

Abbreviation filesystem := (gmap path node).

(** [p.exists()] *)
Definition exists_ (fs : filesystem) (p : path) : bool :=
  bool_decide (is_Some (fs !! p)).

(** [open(p, 'r', encoding='utf-8').read()]; [None] is any [OSError] or
    [UnicodeDecodeError]. *)
Definition read_text (fs : filesystem) (p : path) : option string :=
  match fs !! p with
  | Some (File c true) => Some c
  | _ => None
  end.

(** [q] lies strictly below [d]. *)
Definition below (d q : path) : bool :=
  Bool.eqb (anchored d) (anchored q) &&
  match strip_parts (parts d) (parts q) with
  | Some (_ :: _) => true
  | _ => false
  end.

(** [s.endswith(e)] *)
Definition endswith (s e : string) : bool :=
  (String.length e <=? String.length s)%nat &&
  String.eqb (drop_str (String.length s - String.length e) s) e.

(** [d.rglob('*' + ext)]: every node below [d] whose name ends with [ext],
    in the order in which the file system lists them. *)
Definition rglob_ext (fs : filesystem) (d : path) (ext : string) : list path :=
  filter (λ q, below d q = true ∧ endswith (name q) ext = true)
         (map fst (map_to_list fs)).

End Pathlib.

(** ** scripts/analyze-test-coverage.py *)

Module Coverage.
Import Py Pathlib.

Definition BASEDIR : path :=
  of_string "/Users/aideveloper/ainative-website-nextjs-staging".

(** [f.readlines()] in text mode: a line ends at LF, CR LF or CR, and a
    last line without terminator counts when it is not empty. *)
Definition CR : ascii := Ascii.ascii_of_nat 13.

Fixpoint readlines (cur s : string) : list string :=
  match s with
  | EmptyString => if String.eqb cur "" then [] else [cur]
  | String c s' =>
      if Ascii.eqb c LF then (cur +:+ String LF "") :: readlines "" s'
      else if Ascii.eqb c CR then
        match s' with
        | String c2 s'' =>
            if Ascii.eqb c2 LF then (cur +:+ String LF "") :: readlines "" s''
            else (cur +:+ String LF "") :: readlines "" s'
        | EmptyString => [cur +:+ String LF ""]
        end
      else readlines (cur +:+ String c "") s'
  end.

(** [count_lines]: any exception gives 0. *)
Definition count_lines (fs : filesystem) (file_path : path) : Z :=
  match read_text fs file_path with
  | Some content => Z.of_nat (length (readlines "" content))
  | None => 0
  end.

Definition get_complexity (lines : Z) : string :=
  if lines >? 300 then "High"
  else if lines >? 150 then "Medium"
  else "Low".

Definition high_patterns : list string :=
  [ "Client"; "Page"; "Form"; "Modal"; "Dialog";
    "Auth"; "Payment"; "Checkout"; "Dashboard";
    "Service"; "Provider"; "Hook" ].

Definition medium_patterns : list string :=
  [ "Settings"; "Profile"; "Management"; "Editor";
    "Table"; "List"; "Panel"; "Section" ].

Definition business_logic_paths : list string :=
  [ "dashboard"; "admin"; "billing"; "auth"; "plan" ].

Definition get_priority {A} `{Str A} (filename : string) (filepath : A)
  : string :=
  let filename_lower := lower filename in
  let filepath_lower := lower (str filepath) in
  if any (λ pattern, str_in (lower pattern) filename_lower) high_patterns
  then "Critical"
  else if any (λ path, str_in path filepath_lower) business_logic_paths
  then "High"
  else if any (λ pattern, str_in (lower pattern) filename_lower)
              medium_patterns
  then "Medium"
  else "Low".

(** One element of [results]: a dict with these five keys. *)
Record entry := Entry {
  e_path : string;
  e_priority : string;
  e_complexity : string;
  e_lines : Z;
  e_category : string
}.

(** The path tested by [analyze_directory] for the paired test file. *)
Definition test_file_of (file_path : path) (ext : string) : path :=
  div (div (parent file_path) "__tests__")
      (stem file_path +:+ ".test" +:+ ext).

Definition skipped (file_path : path) : bool :=
  str_in "__tests__" (str file_path) ||
  str_in "node_modules" (str file_path) ||
  str_in ".next" (str file_path).

(** The body of the inner loop; [None] is the [ValueError] of
    [relative_to]. *)
Definition visit (fs : filesystem) (category ext : string)
    (results : list entry) (file_path : path) : option (list entry) :=
  if skipped file_path then Some results
  else
    let test_file := test_file_of file_path ext in
    if negb (exists_ fs test_file) then
      let lines := count_lines fs file_path in
      let complexity := get_complexity lines in
      let priority := get_priority (stem file_path) file_path in
      relative_path ← relative_to file_path BASEDIR;
      Some (results ++ [ Entry (str relative_path) priority complexity
                               lines category ])%list
    else Some results.

(** A [for] loop whose body may raise. *)
Fixpoint for_each {A S} (body : S → A → option S) (l : list A) (s : S)
  : option S :=
  match l with
  | [] => Some s
  | x :: l' => s' ← body s x; for_each body l' s'
  end.

Definition analyze_directory (fs : filesystem) (directory : path)
    (category : string) : option (list entry) :=
  for_each
    (λ results ext,
       for_each (visit fs category ext) (rglob_ext fs directory ext) results)
    [".tsx"; ".ts"] [].

(** *** The ranking in [generate_report] *)

Definition priority_order : gmap string Z :=
  <["Critical" := 0]> (<["High" := 1]> (<["Medium" := 2]> (<["Low" := 3]> ∅))).

Definition complexity_order : gmap string Z :=
  <["High" := 0]> (<["Medium" := 1]> (<["Low" := 2]> ∅)).

(** The [key] lambda; [None] is [KeyError]. *)
Definition sort_key (x : entry) : option (Z * Z * Z) :=
  p ← priority_order !! e_priority x;
  c ← complexity_order !! e_complexity x;
  Some (p, c, - e_lines x).

(** [a < b] on tuples of three integers *)
Definition tuple_lt (a b : Z * Z * Z) : bool :=
  let '(a1, a2, a3) := a in
  let '(b1, b2, b3) := b in
  (a1 <? b1) || ((a1 =? b1) && ((a2 <? b2) || ((a2 =? b2) && (a3 <? b3)))).

(** [list.sort(key=...)]: the keys are computed first, one per element;
    the decorated list is sorted stably with [<] on the keys.  The stable
    sort is written as an insertion sort; [stable_sort_unique] below shows
    that every stable sort returns the same list. *)
Section ListSort.
Context {K A : Type} (lt : K → K → bool).

Fixpoint insert_stable (x : K * A) (l : list (K * A)) : list (K * A) :=
  match l with
  | [] => [x]
  | y :: l' =>
      if lt y.1 x.1 then y :: insert_stable x l' else x :: y :: l'
  end.

Fixpoint sort_decorated (l : list (K * A)) : list (K * A) :=
  match l with
  | [] => []
  | x :: l' => insert_stable x (sort_decorated l')
  end.

Fixpoint decorate (key : A → option K) (l : list A)
  : option (list (K * A)) :=
  match l with
  | [] => Some []
  | x :: l' => k ← key x; d ← decorate key l'; Some ((k, x) :: d)
  end.

Definition list_sort (key : A → option K) (l : list A)
  : option (list A) :=
  d ← decorate key l; Some (map snd (sort_decorated d)).
End ListSort.

Definition sort_untested (untested : list entry) : option (list entry) :=
  list_sort tuple_lt sort_key untested.

(** *** The coverage percentages in [generate_report] *)

(** [a / b] on integers; [None] is [ZeroDivisionError].  The quotient is
    kept exact. *)
Definition truediv (a b : Z) : option Q :=
  if b =? 0 then None else Some (inject_Z a / inject_Z b)%Q.

(** [(tests / total * 100) if total > 0 else 0] *)
Definition coverage_expr (tests total : Z) : option Q :=
  if total >? 0 then q ← truediv tests total; Some (q * 100)%Q
  else Some 0%Q.

Record figures := Figures {
  coverage_pct : Q;
  components_pct : Q;
  app_pct : Q;
  services_pct : Q;
  lib_pct : Q
}.

(** The five percentages of the report, from the eight file counts. *)
Definition report_figures
    (total_components total_app total_lib total_services : Z)
    (total_tests total_app_tests total_lib_tests total_services_tests : Z)
  : option figures :=
  let total_files :=
    total_components + total_app + total_lib + total_services in
  let total_test_files :=
    total_tests + total_app_tests + total_lib_tests + total_services_tests in
  coverage_pct ← coverage_expr total_test_files total_files;
  c ← coverage_expr total_tests total_components;
  a ← coverage_expr total_app_tests total_app;
  s ← coverage_expr total_services_tests total_services;
  l ← coverage_expr total_lib_tests total_lib;
  Some (Figures coverage_pct c a s l).

End Coverage.
(** ** scripts/generate-test-template.py *)

Module Template.
Import Py Pathlib.

Definition BASEDIR : path :=
  of_string "/Users/aideveloper/ainative-website-nextjs-staging".

Definition TOP_20_COMPONENTS : list string :=
  [ "app/dev-resources/DevResourcesClient.tsx";
    "app/dashboard/agents/AgentsClient.tsx";
    "app/design-system-showcase/DesignSystemShowcaseClient.tsx";
    "services/QNNApiClient.ts";
    "app/dashboard/email/EmailManagementClient.tsx";
    "app/ai-kit/AIKitClient.tsx";
    "app/dashboard/zerodb/ZeroDBClient.tsx";
    "app/api-reference/APIReferenceClient.tsx";
    "app/dashboard/load-testing/LoadTestingClient.tsx";
    "app/integrations/IntegrationsClient.tsx";
    "app/examples/ExamplesClient.tsx";
    "app/dashboard/DashboardClient.tsx";
    "app/dashboard/api-sandbox/APISandboxClient.tsx";
    "app/dashboard/main/MainDashboardClient.tsx";
    "app/community/videos/[slug]/VideoDetailClient.tsx";
    "app/developer-tools/DeveloperToolsClient.tsx";
    "app/dashboard/sessions/SessionsClient.tsx";
    "app/dashboard/mcp-hosting/MCPHostingClient.tsx";
    "app/demo/progress-indicators/ProgressIndicatorsDemoClient.tsx";
    "app/agent-swarm/AgentSwarmClient.tsx" ].

(** *** The two regular expressions of [analyze_component]

    In both patterns every repetition is followed by a literal that its
    character class excludes, so the greedy match is the only one and no
    backtracking is involved: each pattern is a straight-line matcher. *)

Definition is_word (c : ascii) : bool :=
  let n := Ascii.nat_of_ascii c in
  ((48 <=? n) && (n <=? 57) || (65 <=? n) && (n <=? 90) ||
   (97 <=? n) && (n <=? 122) || (n =? 95))%nat.

Definition is_space (c : ascii) : bool :=
  let n := Ascii.nat_of_ascii c in
  ((9 <=? n) && (n <=? 13) || (28 <=? n) && (n <=? 32))%nat.

(** The longest prefix of [s] in the class, and what follows it. *)
Fixpoint take_while (cls : ascii → bool) (s : string) : string * string :=
  match s with
  | EmptyString => ("", "")
  | String c s' =>
      if cls c then let '(a, r) := take_while cls s' in (String c a, r)
      else ("", s)
  end.

(** A literal *)
Definition lit (p s : string) : option string :=
  if String.prefix p s then Some (drop_str (String.length p) s) else None.

(** [cls+] *)
Definition plus (cls : ascii → bool) (s : string) : option (string * string) :=
  let '(a, r) := take_while cls s in
  if String.eqb a "" then None else Some (a, r).

(** [cls*] *)
Definition star (cls : ascii → bool) (s : string) : string :=
  (take_while cls s).2.

(** [const\s+\[(\w+),\s*set\w+\]\s*=\s*useState] at the start of [s]:
    the group and the text after the match. *)
Definition re_state_hook (s : string) : option (string * string) :=
  s ← lit "const" s;
  '(_, s) ← plus is_space s;
  s ← lit "[" s;
  '(g, s) ← plus is_word s;
  s ← lit "," s;
  s ← lit "set" (star is_space s);
  '(_, s) ← plus is_word s;
  s ← lit "]" s;
  s ← lit "=" (star is_space s);
  s ← lit "useState" (star is_space s);
  Some (g, s).

(** [const\s+(\w+)\s*=\s*async\s*\(] at the start of [s] *)
Definition re_async_func (s : string) : option (string * string) :=
  s ← lit "const" s;
  '(_, s) ← plus is_space s;
  '(g, s) ← plus is_word s;
  s ← lit "=" (star is_space s);
  s ← lit "async" (star is_space s);
  s ← lit "(" (star is_space s);
  Some (g, s).

(** [re.findall] for a pattern with one group: the matches from left to
    right, not overlapping.  [skip] counts the characters of the last match
    that are still to be passed. *)
Fixpoint findall (re : string → option (string * string)) (skip : nat)
    (s : string) : list string :=
  match s with
  | EmptyString => []
  | String _ s' =>
      match skip with
      | S k => findall re k s'
      | O =>
          match re s with
          | Some (g, rest) =>
              g :: findall re (String.length s - String.length rest - 1) s'
          | None => findall re 0 s'
          end
      end
  end.

(** The dict returned by [analyze_component] *)
Record info := Info {
  component_name : string;
  is_client : bool;
  state_hooks : list string;
  async_funcs : list string;
  has_form : bool;
  api_calls : bool;
  has_mutations : bool
}.

(** The [try] body of [analyze_component], on the text read *)
Definition inspect (file_path : path) (content : string) : info :=
  let component_name := stem file_path in
  let is_client :=
    str_in "'use client'" content ||
    str_in (String DQUOTE ("use client" +:+ String DQUOTE "")) content in
  let state_hooks := findall re_state_hook 0 content in
  let async_funcs := findall re_async_func 0 content in
  let has_form := str_in "onSubmit" content || str_in "<form" content in
  let api_calls :=
    str_in "fetch(" content || str_in "axios" content ||
    str_in ".get(" content || str_in ".post(" content in
  let has_mutations :=
    any (λ word, str_in word content)
        ["useMutation"; "mutate"; "onCreate"; "onUpdate"; "onDelete"] in
  Info component_name is_client (take 5 state_hooks) (take 5 async_funcs)
       has_form api_calls has_mutations.

(** *** The skeleton text

    A triple-quoted literal is written as the list of its lines; [text]
    puts the line ends back. *)

Fixpoint text (lines : list string) : string :=
  match lines with
  | [] => ""
  | l :: lines' => l +:+ String LF (text lines')
  end.

(** lines 86-150 *)
Definition header_lines (component_name relative_import : string) : list string :=
  [ "import { render, screen, waitFor, fireEvent } from '@testing-library/react';";
    "import userEvent from '@testing-library/user-event';";
    "import " +:+ component_name +:+ " from '" +:+ relative_import +:+ "';";
    "";
    "// Mock dependencies";
    "jest.mock('next/navigation', () => ({";
    "  useRouter: () => ({";
    "    push: jest.fn(),";
    "    replace: jest.fn(),";
    "    prefetch: jest.fn(),";
    "  }),";
    "  useSearchParams: () => ({";
    "    get: jest.fn(),";
    "  }),";
    "  usePathname: () => '/test-path',";
    "}));";
    "";
    "jest.mock('next-auth/react', () => ({";
    "  useSession: () => ({";
    "    data: {";
    "      user: { id: '1', name: 'Test User', email: 'test@example.com' },";
    "      expires: '2025-12-31',";
    "    },";
    "    status: 'authenticated',";
    "  }),";
    "  signIn: jest.fn(),";
    "  signOut: jest.fn(),";
    "}));";
    "";
    "// Mock API calls";
    "global.fetch = jest.fn(() =>";
    "  Promise.resolve({";
    "    ok: true,";
    "    json: () => Promise.resolve({ data: {} }),";
    "  })) as jest.Mock";
    ");";
    "";
    "describe('" +:+ component_name +:+ "', () => {";
    "  beforeEach(() => {";
    "    jest.clearAllMocks();";
    "  });";
    "";
    "  afterEach(() => {";
    "    jest.restoreAllMocks();";
    "  });";
    "";
    "  describe('Rendering', () => {";
    "    it('should render without crashing', () => {";
    "      // Given";
    "      const { container } = render(<" +:+ component_name +:+ " />);";
    "";
    "      // Then";
    "      expect(container).toBeInTheDocument();";
    "    });";
    "";
    "    it('should display loading state initially', async () => {";
    "      // Given";
    "      render(<" +:+ component_name +:+ " />);";
    "";
    "      // Then - Check for loading indicators";
    "      // expect(screen.getByTestId('loading-spinner')).toBeInTheDocument();";
    "    });";
    "  });";
    "" ].

(** lines 154-155 *)
Definition state_open_lines : list string :=
  [ "  describe('State Management', () => {" ].

(** lines 157-168 *)
Definition state_case_lines (component_name state_var : string) : list string :=
  [ "    it('should manage " +:+ state_var +:+ " state', async () => {";
    "      // Given";
    "      render(<" +:+ component_name +:+ " />);";
    "";
    "      // When";
    "      // Interact with component to change " +:+ state_var;
    "";
    "      // Then";
    "      // expect(...).toBe(expectedValue);";
    "    });";
    "" ].

(** lines 169-171 *)
Definition state_close_lines : list string :=
  [ "  });";
    "" ].

(** lines 175-221 *)
Definition form_lines (component_name : string) : list string :=
  [ "  describe('Form Handling', () => {";
    "    it('should handle form submission', async () => {";
    "      // Given";
    "      const user = userEvent.setup();";
    "      render(<" +:+ component_name +:+ " />);";
    "";
    "      // When";
    "      // Fill out form fields";
    "      // const submitButton = screen.getByRole('button', { name: /submit/i });";
    "      // await user.click(submitButton);";
    "";
    "      // Then";
    "      // expect(mockSubmitHandler).toHaveBeenCalled();";
    "    });";
    "";
    "    it('should validate form fields', async () => {";
    "      // Given";
    "      const user = userEvent.setup();";
    "      render(<" +:+ component_name +:+ " />);";
    "";
    "      // When";
    "      // Submit form with invalid data";
    "      // const submitButton = screen.getByRole('button', { name: /submit/i });";
    "      // await user.click(submitButton);";
    "";
    "      // Then";
    "      // expect(screen.getByText(/validation error/i)).toBeInTheDocument();";
    "    });";
    "";
    "    it('should display error message on submission failure', async () => {";
    "      // Given";
    "      (global.fetch as jest.Mock).mockRejectedValueOnce(new Error('API Error'));";
    "      const user = userEvent.setup();";
    "      render(<" +:+ component_name +:+ " />);";
    "";
    "      // When";
    "      // Submit form";
    "      // await user.click(screen.getByRole('button', { name: /submit/i }));";
    "";
    "      // Then";
    "      await waitFor(() => {";
    "        // expect(screen.getByText(/error/i)).toBeInTheDocument();";
    "      });";
    "    });";
    "  });";
    "" ].

(** lines 225-272 *)
Definition api_lines (component_name : string) : list string :=
  [ "  describe('API Integration', () => {";
    "    it('should fetch data on mount', async () => {";
    "      // Given";
    "      const mockData = { id: 1, name: 'Test Data' };";
    "      (global.fetch as jest.Mock).mockResolvedValueOnce({";
    "        ok: true,";
    "        json: async () => ({ data: mockData }),";
    "      });";
    "";
    "      // When";
    "      render(<" +:+ component_name +:+ " />);";
    "";
    "      // Then";
    "      await waitFor(() => {";
    "        expect(global.fetch).toHaveBeenCalled();";
    "      });";
    "    });";
    "";
    "    it('should handle API errors gracefully', async () => {";
    "      // Given";
    "      (global.fetch as jest.Mock).mockRejectedValueOnce(new Error('Network error'));";
    "";
    "      // When";
    "      render(<" +:+ component_name +:+ " />);";
    "";
    "      // Then";
    "      await waitFor(() => {";
    "        // expect(screen.getByText(/error/i)).toBeInTheDocument();";
    "      });";
    "    });";
    "";
    "    it('should retry failed API calls', async () => {";
    "      // Given";
    "      (global.fetch as jest.Mock)";
    "        .mockRejectedValueOnce(new Error('Network error'))";
    "        .mockResolvedValueOnce({";
    "          ok: true,";
    "          json: async () => ({ data: {} }),";
    "        });";
    "";
    "      // When";
    "      render(<" +:+ component_name +:+ " />);";
    "";
    "      // Then - Implement retry logic test";
    "    });";
    "  });";
    "" ].

(** lines 276-326 *)
Definition mutation_lines (component_name : string) : list string :=
  [ "  describe('Data Mutations', () => {";
    "    it('should create new item successfully', async () => {";
    "      // Given";
    "      const user = userEvent.setup();";
    "      (global.fetch as jest.Mock).mockResolvedValueOnce({";
    "        ok: true,";
    "        json: async () => ({ data: { id: '1', created: true } }),";
    "      });";
    "";
    "      render(<" +:+ component_name +:+ " />);";
    "";
    "      // When";
    "      // Trigger create action";
    "      // await user.click(screen.getByRole('button', { name: /create/i }));";
    "";
    "      // Then";
    "      await waitFor(() => {";
    "        expect(global.fetch).toHaveBeenCalledWith(";
    "          expect.any(String),";
    "          expect.objectContaining({ method: 'POST' })";
    "        );";
    "      });";
    "    });";
    "";
    "    it('should update existing item', async () => {";
    "      // Given";
    "      const user = userEvent.setup();";
    "      render(<" +:+ component_name +:+ " />);";
    "";
    "      // When";
    "      // Trigger update action";
    "";
    "      // Then";
    "      // expect(mockUpdateHandler).toHaveBeenCalled();";
    "    });";
    "";
    "    it('should delete item with confirmation', async () => {";
    "      // Given";
    "      const user = userEvent.setup();";
    "      render(<" +:+ component_name +:+ " />);";
    "";
    "      // When";
    "      // Click delete button";
    "      // Confirm deletion";
    "";
    "      // Then";
    "      // expect(mockDeleteHandler).toHaveBeenCalled();";
    "    });";
    "  });";
    "" ].

(** lines 329-356 *)
Definition interaction_lines (component_name : string) : list string :=
  [ "  describe('User Interactions', () => {";
    "    it('should handle button clicks', async () => {";
    "      // Given";
    "      const user = userEvent.setup();";
    "      render(<" +:+ component_name +:+ " />);";
    "";
    "      // When";
    "      // const button = screen.getByRole('button', { name: /action/i });";
    "      // await user.click(button);";
    "";
    "      // Then";
    "      // expect(mockHandler).toHaveBeenCalled();";
    "    });";
    "";
    "    it('should handle keyboard navigation', async () => {";
    "      // Given";
    "      const user = userEvent.setup();";
    "      render(<" +:+ component_name +:+ " />);";
    "";
    "      // When";
    "      // await user.keyboard('{Tab}');";
    "";
    "      // Then";
    "      // expect(document.activeElement).toHaveFocus();";
    "    });";
    "  });";
    "" ].

(** lines 359-391 *)
Definition accessibility_lines (component_name : string) : list string :=
  [ "  describe('Accessibility', () => {";
    "    it('should have proper ARIA labels', () => {";
    "      // Given";
    "      render(<" +:+ component_name +:+ " />);";
    "";
    "      // Then";
    "      // Check for ARIA attributes";
    "      // expect(screen.getByRole('button')).toHaveAccessibleName();";
    "    });";
    "";
    "    it('should support keyboard navigation', async () => {";
    "      // Given";
    "      const user = userEvent.setup();";
    "      render(<" +:+ component_name +:+ " />);";
    "";
    "      // When";
    "      await user.tab();";
    "";
    "      // Then";
    "      // expect(document.activeElement).toHaveAttribute('tabindex', '0');";
    "    });";
    "";
    "    it('should announce dynamic content changes', async () => {";
    "      // Given";
    "      render(<" +:+ component_name +:+ " />);";
    "";
    "      // Then";
    "      // Check for live regions";
    "      // expect(screen.getByRole('status')).toBeInTheDocument();";
    "    });";
    "  });";
    "" ].

(** lines 394-416 *)
Definition error_lines (component_name : string) : list string :=
  [ "  describe('Error Handling', () => {";
    "    it('should display error boundary on component crash', () => {";
    "      // Given";
    "      const consoleError = jest.spyOn(console, 'error').mockImplementation(() => {});";
    "";
    "      // When/Then";
    "      // Test error boundary by forcing error";
    "      consoleError.mockRestore();";
    "    });";
    "";
    "    it('should recover from errors', async () => {";
    "      // Given";
    "      render(<" +:+ component_name +:+ " />);";
    "";
    "      // When";
    "      // Trigger error and recovery";
    "";
    "      // Then";
    "      // expect(screen.getByText(/recovered/i)).toBeInTheDocument();";
    "    });";
    "  });";
    "" ].

(** lines 419-473 *)
Definition edge_lines (component_name : string) : list string :=
  [ "  describe('Edge Cases', () => {";
    "    it('should handle null props gracefully', () => {";
    "      // Given/When";
    "      const { container } = render(<" +:+ component_name +:+ " />);";
    "";
    "      // Then";
    "      expect(container).toBeInTheDocument();";
    "    });";
    "";
    "    it('should handle empty data arrays', async () => {";
    "      // Given";
    "      (global.fetch as jest.Mock).mockResolvedValueOnce({";
    "        ok: true,";
    "        json: async () => ({ data: [] }),";
    "      });";
    "";
    "      // When";
    "      render(<" +:+ component_name +:+ " />);";
    "";
    "      // Then";
    "      await waitFor(() => {";
    "        // expect(screen.getByText(/no data/i)).toBeInTheDocument();";
    "      });";
    "    });";
    "";
    "    it('should handle very large datasets', async () => {";
    "      // Given";
    "      const largeDataset = Array.from({ length: 1000 }, (_, i) => ({ id: i }));";
    "      (global.fetch as jest.Mock).mockResolvedValueOnce({";
    "        ok: true,";
    "        json: async () => ({ data: largeDataset }),";
    "      });";
    "";
    "      // When";
    "      render(<" +:+ component_name +:+ " />);";
    "";
    "      // Then";
    "      await waitFor(() => {";
    "        expect(global.fetch).toHaveBeenCalled();";
    "      });";
    "    });";
    "";
    "    it('should handle concurrent updates', async () => {";
    "      // Given";
    "      render(<" +:+ component_name +:+ " />);";
    "";
    "      // When";
    "      // Trigger multiple concurrent updates";
    "";
    "      // Then";
    "      // Verify state is consistent";
    "    });";
    "  });";
    "});" ].

Definition generate_test_template (component_path : path) (info : info)
  : string :=
  let component_name := component_name info in
  let is_tsx := String.eqb (suffix component_path) ".tsx" in
  let relative_import := "../" +:+ component_name in
  let test_content := text (header_lines component_name relative_import) in
  let test_content :=
    match state_hooks info with
    | _ :: _ =>
        let test_content := test_content +:+ text state_open_lines in
        let test_content :=
          fold_left
            (λ test_content state_var,
               test_content +:+
               text (state_case_lines component_name state_var))
            (take 3 (state_hooks info)) test_content in
        test_content +:+ text state_close_lines
    | [] => test_content
    end in
  let test_content :=
    if has_form info
    then test_content +:+ text (form_lines component_name)
    else test_content in
  let test_content :=
    if api_calls info
    then test_content +:+ text (api_lines component_name)
    else test_content in
  let test_content :=
    if has_mutations info
    then test_content +:+ text (mutation_lines component_name)
    else test_content in
  let test_content :=
    test_content +:+ text (interaction_lines component_name) in
  let test_content :=
    test_content +:+ text (accessibility_lines component_name) in
  let test_content := test_content +:+ text (error_lines component_name) in
  let test_content := test_content +:+ text (edge_lines component_name) in
  test_content.

(** *** The batch driver: file system and standard output are threaded,
    exceptions are values *)

Record world := World { files : filesystem; stdout : list string }.

Inductive result (A : Type) :=
  | Ok (a : A)
  | Raise (e : string).
Arguments Ok {A} a.
Arguments Raise {A} e.

Definition M (A : Type) : Type := world → result A * world.

Definition ret {A} (a : A) : M A := λ w, (Ok a, w).

Definition bind {A B} (m : M A) (k : A → M B) : M B :=
  λ w, match m w with
       | (Ok a, w') => k a w'
       | (Raise e, w') => (Raise e, w')
       end.

Notation "x <- m ;; k" := (bind m (λ x, k))
  (at level 100, m at next level, right associativity).
Notation "m ;;; k" := (bind m (λ _, k))
  (at level 100, right associativity).

(** [try: m  except Exception as e: handler(e)] *)
Definition try_except {A} (m : M A) (handler : string → M A) : M A :=
  λ w, match m w with
       | (Ok a, w') => (Ok a, w')
       | (Raise e, w') => handler e w'
       end.

Definition print (s : string) : M unit :=
  λ w, (Ok tt, World (files w) (stdout w ++ [s])).

(** [str(e)] of the exception raised by opening [p] for reading *)
Definition open_error (fs : filesystem) (p : path) : string :=
  match fs !! p with
  | None => "[Errno 2] No such file or directory: '" +:+ str p +:+ "'"
  | Some Dir => "[Errno 21] Is a directory: '" +:+ str p +:+ "'"
  | Some (File _ _) => "[Errno 13] Permission denied: '" +:+ str p +:+ "'"
  end.

(** [with open(p, 'r', encoding='utf-8') as f: f.read()] *)
Definition read_file (p : path) : M string :=
  λ w, match read_text (files w) p with
       | Some content => (Ok content, w)
       | None => (Raise (open_error (files w) p), w)
       end.

(** [p.exists()] *)
Definition path_exists (p : path) : M bool :=
  λ w, (Ok (exists_ (files w) p), w).

(** [d.mkdir(exist_ok=True)] *)
Definition mkdir_exist_ok (d : path) : M unit :=
  λ w, match files w !! d with
       | Some Dir => (Ok tt, w)
       | Some (File _ _) =>
           (Raise ("[Errno 17] File exists: '" +:+ str d +:+ "'"), w)
       | None =>
           match files w !! parent d with
           | Some Dir => (Ok tt, World (<[d := Dir]> (files w)) (stdout w))
           | Some (File _ _) =>
               (Raise ("[Errno 20] Not a directory: '" +:+ str d +:+ "'"), w)
           | None =>
               (Raise ("[Errno 2] No such file or directory: '"
                       +:+ str d +:+ "'"), w)
           end
       end.

(** [with open(p, 'w') as f: f.write(content)] *)
Definition write_file (p : path) (content : string) : M unit :=
  λ w, match files w !! p with
       | Some Dir =>
           (Raise ("[Errno 21] Is a directory: '" +:+ str p +:+ "'"), w)
       | Some (File _ r) =>
           (Ok tt, World (<[p := File content r]> (files w)) (stdout w))
       | None =>
           match files w !! parent p with
           | Some Dir =>
               (Ok tt, World (<[p := File content true]> (files w))
                             (stdout w))
           | Some (File _ _) =>
               (Raise ("[Errno 20] Not a directory: '" +:+ str p +:+ "'"), w)
           | None =>
               (Raise ("[Errno 2] No such file or directory: '"
                       +:+ str p +:+ "'"), w)
           end
       end.

Definition analyze_component (file_path : path) : M (option info) :=
  try_except
    (content <- read_file file_path ;;
     ret (Some (inspect file_path content)))
    (λ e,
       print ("Error analyzing " +:+ str file_path +:+ ": " +:+ e) ;;;
       ret None).

Definition create_test_file (component_path_str : string) : M bool :=
  let component_path := div BASEDIR component_path_str in
  found <- path_exists component_path ;;
  if negb found then
    print ("❌ Component not found: " +:+ str component_path) ;;;
    ret false
  else
    info <- analyze_component component_path ;;
    match info with
    | None => ret false
    | Some info =>
        let test_dir := div (parent component_path) "__tests__" in
        mkdir_exist_ok test_dir ;;;
        let test_file_name :=
          stem component_path +:+ ".test" +:+ suffix component_path in
        let test_file_path := div test_dir test_file_name in
        present <- path_exists test_file_path ;;
        if present then
          print ("⚠️  Test file already exists: " +:+ str test_file_path) ;;;
          ret false
        else
          let test_content := generate_test_template component_path info in
          write_file test_file_path test_content ;;;
          print ("✅ Created test file: " +:+ str test_file_path) ;;;
          ret true
    end.

(** The three counters of [main] *)
Record tally := Tally { created : Z; skipped : Z; errors : Z }.

(** The body of the loop of [main] *)
Definition process (t : tally) (item : Z * string) : M tally :=
  let '(i, component_path) := item in
  print (String LF ("[" +:+ pretty i +:+ "/20] Processing: "
                    +:+ component_path)) ;;;
  try_except
    (ok <- create_test_file component_path ;;
     if ok : bool then ret (Tally (created t + 1) (skipped t) (errors t))
     else ret (Tally (created t) (skipped t + 1) (errors t)))
    (λ e,
       print ("❌ Error: " +:+ e) ;;;
       ret (Tally (created t) (skipped t) (errors t + 1))).

Fixpoint for_each {A S} (body : S → A → M S) (l : list A) (s : S) : M S :=
  match l with
  | [] => ret s
  | x :: l' => s' <- body s x ;; for_each body l' s'
  end.

(** [enumerate(l, start)] *)
Fixpoint enumerate {A} (l : list A) (start : Z) : list (Z * A) :=
  match l with
  | [] => []
  | x :: l' => (start, x) :: enumerate l' (start + 1)
  end.

Fixpoint repeat_str (s : string) (n : nat) : string :=
  match n with
  | O => ""
  | S n' => s +:+ repeat_str s n'
  end.

Definition summary (t : tally) : M unit :=
  print (String LF (repeat_str "=" 60)) ;;;
  print "Summary:" ;;;
  print ("  ✅ Created: " +:+ pretty (created t)) ;;;
  print ("  ⚠️  Skipped: " +:+ pretty (skipped t)) ;;;
  print ("  ❌ Errors: " +:+ pretty (errors t)) ;;;
  print (repeat_str "=" 60 +:+ String LF "").

(** The loop of [main], from the counters at zero *)
Definition batch : M tally :=
  for_each process (enumerate TOP_20_COMPONENTS 1) (Tally 0 0 0).

Definition main : M unit :=
  print ("=== Generating Test Files for Top 20 Components ===" +:+
         String LF "") ;;;
  t <- batch ;;
  summary t.

End Template.

(** ** scripts/analyze-test-coverage.py: [generate_report]

    The parts of [generate_report] between the creation of the output
    directory and the writing of the report: the file counts (lines
    121-141), the collection of the gap list (lines 150-177), and what the
    report derives from the ranked list: the tables by category (lines
    228-242), the top-20 rows (lines 259-270) and the priority distribution
    (line 556).  The output directory [docs/test-coverage] holds no file
    that these parts look at. *)

Module Report.
Import Py Pathlib Coverage.




(** [len(list(...))] *)
Definition len {A} (l : list A) : Z := Z.of_nat (length l).


Definition components_dir : path := div BASEDIR "components".
Definition app_dir : path := div BASEDIR "app".
Definition lib_dir : path := div BASEDIR "lib".
Definition services_dir : path := div BASEDIR "services".



(** [d.iterdir()]: the children of a directory; [None] is the [OSError]
    for a path that is no directory. *)
Definition iterdir (fs : filesystem) (d : path) : option (list path) :=
  match fs !! d with
  | Some Dir =>
      Some (filter (λ q, parent q = d ∧ parts q ≠ [])
                   (map fst (map_to_list fs)))
  | _ => None
  end.

(** [p.is_dir()] *)
Definition is_dir (fs : filesystem) (p : path) : bool :=
  match fs !! p with
  | Some Dir => true
  | _ => false
  end.

(** [untested.extend(analyze_directory(d, category))] *)
Definition scan_into (fs : filesystem) (d : path) (category : string)
    (untested : list entry) : option (list entry) :=
  r ← analyze_directory fs d category; Some (untested ++ r)%list.

(** Lines 150-177: the gap list before it is sorted. *)
Definition collect_untested (fs : filesystem) : option (list entry) :=
  let untested := [] in
  untested ← scan_into fs (div components_dir "ui") "UI Components" untested;
  untested ← scan_into fs (div components_dir "layout")
               "Layout Components" untested;
  untested ← scan_into fs (div components_dir "sections")
               "Section Components" untested;
  untested ← scan_into fs (div components_dir "branding")
               "Branding Components" untested;
  untested ← scan_into fs (div components_dir "tutorial")
               "Tutorial Components" untested;
  untested ← scan_into fs (div components_dir "webinar")
               "Webinar Components" untested;
  untested ← scan_into fs (div components_dir "agent-swarm")
               "Agent Swarm Components" untested;
  untested ← scan_into fs (div components_dir "video")
               "Video Components" untested;
  untested ← scan_into fs (div components_dir "invoices")
               "Invoice Components" untested;
  untested ← scan_into fs (div components_dir "providers")
               "Provider Components" untested;
  subdirs ← iterdir fs app_dir;
  untested ←
    Coverage.for_each
      (λ untested subdir,
         if is_dir fs subdir &&
            negb (bool_decide (name subdir ∈ ["api"; "__tests__"]))
         then scan_into fs subdir ("App: " +:+ name subdir) untested
         else Some untested)
      subdirs untested;
  untested ←
    (if exists_ fs services_dir
     then scan_into fs services_dir "Services" untested
     else Some untested);
  untested ←
    (if exists_ fs lib_dir
     then scan_into fs lib_dir "Library" untested
     else Some untested);
  Some untested.

(** Lines 150-183: the ranked gap list. *)
Definition ranked_untested (fs : filesystem) : option (list entry) :=
  untested ← collect_untested fs; sort_untested untested.

(** Lines 229-231: [by_category], a [defaultdict(list)]. *)
Definition by_category (untested : list entry) : gmap string (list entry) :=
  fold_left
    (λ by_category item,
       <[e_category item :=
           (default [] (by_category !! e_category item) ++ [item])%list]>
         by_category)
    untested ∅.

(** [sorted(by_category.items())]: the keys of a dict are distinct, so the
    tuples are ordered by their first components alone. *)
Definition sorted_items (m : gmap string (list entry))
  : list (string * list entry) :=
  sort_decorated String.ltb (map_to_list m).

(** Lines 260-268: the reason shown in a row of the top-20 table. *)
Definition reason_of (item : entry) : string :=
  let reason :=
    if bool_decide (e_priority item ∈ ["Critical"; "High"])
    then "Business logic" else "User interaction" in
  if str_in "Client" (e_path item) then "Client component with state"
  else if str_in "Service" (e_path item)
  then "Service layer with business logic"
  else if str_in "Form" (e_path item) then "Form with validation"
  else if str_in "Modal" (e_path item) || str_in "Dialog" (e_path item)
  then "Interactive component"
  else reason.

(** [enumerate(l, start)] *)
Fixpoint enumerate {A} (l : list A) (start : Z) : list (Z * A) :=
  match l with
  | [] => []
  | x :: l' => (start, x) :: enumerate l' (start + 1)
  end.

(** Lines 259-270: the rows of the top-20 table: number, entry, reason. *)
Definition top_20_rows (untested : list entry) : list (Z * entry * string) :=
  (λ '(i, item), (i, item, reason_of item))
    <$> enumerate (take 20 untested) 1.

(** Line 556: the four counts of the priority distribution. *)
Definition priority_count (untested : list entry) (p : string) : Z :=
  len (filter (λ x, e_priority x = p) untested).

End Report.

Import Py Pathlib.
Import Coverage.

(** * The embedding on small inputs *)

Example stem_suffix_examples :
  stem (of_string "components/ui/Button.tsx") = "Button" ∧
  suffix (of_string "components/ui/Button.tsx") = ".tsx" ∧
  stem (of_string "lib/types.d.ts") = "types.d" ∧
  stem (of_string "lib/.ts") = ".ts" ∧
  suffix (of_string "lib/.ts") = "" ∧
  name (of_string "services/QNNApiClient.ts") = "QNNApiClient.ts" ∧
  str (div (parent (of_string "/a/b/c.ts")) "__tests__") = "/a/b/__tests__".
Proof. repeat split. Qed.

Example str_in_examples :
  str_in "plan" "airplane" = true ∧ str_in "" "" = true ∧
  str_in "Plan" "airplane" = false ∧ lower "AuthModal-2" = "authmodal-2".
Proof. repeat split. Qed.

Example readlines_examples :
  Coverage.readlines "" "" = [] ∧
  length (Coverage.readlines "" ("a" +:+ String LF "b")) = 2%nat ∧
  length (Coverage.readlines ""
            ("a" +:+ String Coverage.CR (String LF ("b" +:+ String LF ""))))
  = 2%nat.
Proof. repeat split. Qed.

Example findall_examples :
  Template.findall Template.re_state_hook 0
    "const [count, setCount] = useState(0); const  [open,setOpen]=useState(false); const [x, setX] = useMemo()"
  = ["count"; "open"] ∧
  Template.findall Template.re_async_func 0
    "const load = async () => {}; const save=async(data) => {}; const f = () => {}"
  = ["load"; "save"].
Proof. split; vm_compute; reflexivity. Qed.

(** * Properties *)

#[local] Arguments String.append !_ _ / : simpl nomatch.

(** ** Strings *)

(** [sub] occurs in [s]. *)
Definition occurs_in (sub s : string) : Prop :=
  ∃ pre post, s = pre +:+ sub +:+ post.

Lemma append_nil_r (s : string) : s +:+ "" = s.
Proof. induction s as [|c s IH]; simpl; [done | by rewrite IH]. Qed.

Lemma append_assoc (a b c : string) : (a +:+ b) +:+ c = a +:+ (b +:+ c).
Proof. induction a as [|x a IH]; simpl; [done | by rewrite IH]. Qed.

Lemma prefix_true (p s : string) :
  String.prefix p s = true ↔ ∃ post, s = p +:+ post.
Proof.
  revert s. induction p as [|c p IH]; intros s; simpl.
  - destruct s; split; eauto.
  - destruct s as [|d s]; simpl.
    + split; [done | intros [? ?]; done].
    + destruct (Ascii.ascii_dec c d) as [->|Hne].
      * rewrite IH. split; intros [post Hp]; exists post; congruence.
      * split; [done | intros [? ?]; congruence].
Qed.

Lemma str_in_true (sub s : string) :
  str_in sub s = true ↔ occurs_in sub s.
Proof.
  induction s as [|c s IH]; cbn [str_in].
  - rewrite orb_false_r, prefix_true. split.
    + intros [post Hp]. by exists "", post.
    + intros ([|? ?] & post & Hp); simpl in Hp; [eauto | done].
  - rewrite orb_true_iff, prefix_true, IH. split.
    + intros [[post Hp] | (pre & post & Hp)].
      * by exists "", post.
      * exists (String c pre), post. simpl. by rewrite Hp.
    + intros ([|d pre] & post & Hp); simpl in Hp.
      * left; eauto.
      * right. exists pre, post. congruence.
Qed.

Lemma any_true {A} (test : A → bool) (l : list A) :
  any test l = true ↔ ∃ x, x ∈ l ∧ test x = true.
Proof.
  unfold any. induction l as [|a l IH]; simpl.
  - split; [done | intros (x & Hx & _); by apply elem_of_nil in Hx].
  - rewrite orb_true_iff, IH. split.
    + intros [Ha | (x & Hx & Ht)]; [exists a | exists x]; split; auto; by constructor.
    + intros (x & Hx & Ht). apply elem_of_cons in Hx as [-> | Hx]; eauto.
Qed.

(** ** The classifier *)

(** The file name contains a pattern of the list, case ignored. *)
Definition name_matches (patterns : list string) (filename : string) : Prop :=
  ∃ pattern, pattern ∈ patterns ∧ occurs_in (lower pattern) (lower filename).

(** The lowercased path contains a business-domain substring. *)
Definition path_matches (filepath : string) : Prop :=
  ∃ b, b ∈ business_logic_paths ∧ occurs_in b (lower filepath).

Lemma name_matches_any (patterns : list string) (filename : string) :
  any (λ pattern, str_in (lower pattern) (lower filename)) patterns = true
  ↔ name_matches patterns filename.
Proof.
  rewrite any_true. unfold name_matches.
  split; intros (x & Hx & Ht); exists x; split; auto; by apply str_in_true.
Qed.

Lemma path_matches_any (filepath : string) :
  any (λ b, str_in b (lower filepath)) business_logic_paths = true
  ↔ path_matches filepath.
Proof.
  rewrite any_true. unfold path_matches.
  split; intros (x & Hx & Ht); exists x; split; auto; by apply str_in_true.
Qed.

Lemma not_true_false (b : bool) (P : Prop) : (b = true ↔ P) → ¬ P → b = false.
Proof. destruct b; intuition. Qed.

(** *** Matching whatever the case *)

(** [a] and [b] are the same character, or the capital and the small form
    of one of the 26 letters (codes 65 to 90 and 97 to 122). *)
Definition same_letter (a b : ascii) : Prop :=
  let na := Ascii.nat_of_ascii a in
  let nb := Ascii.nat_of_ascii b in
  a = b ∨ (65 ≤ na ≤ 90 ∧ nb = na + 32)%nat ∨ (65 ≤ nb ≤ 90 ∧ na = nb + 32)%nat.

(** [a] and [b] are the same text but for the case of their letters. *)
Fixpoint same_text (a b : string) : Prop :=
  match a, b with
  | EmptyString, EmptyString => True
  | String x a', String y b' => same_letter x y ∧ same_text a' b'
  | _, _ => False
  end.

(** [sub] occurs in [s], whatever the case of the letters. *)
Definition occurs_nocase (sub s : string) : Prop :=
  ∃ pre mid post, s = pre +:+ mid +:+ post ∧ same_text mid sub.

Lemma lower_ascii_same_letter (a b : ascii) :
  lower_ascii a = lower_ascii b ↔ same_letter a b.
Proof.
  unfold lower_ascii, same_letter. cbv zeta.
  pose proof (Ascii.nat_ascii_bounded a) as Ha.
  pose proof (Ascii.nat_ascii_bounded b) as Hb.
  pose proof (Ascii.ascii_nat_embedding a) as Ea.
  pose proof (Ascii.ascii_nat_embedding b) as Eb.
  set (na := Ascii.nat_of_ascii a) in *.
  set (nb := Ascii.nat_of_ascii b) in *.
  assert (∀ x y : ascii, Ascii.nat_of_ascii x = Ascii.nat_of_ascii y → x = y)
    as Hinj.
  { intros x y Hxy. rewrite <-(Ascii.ascii_nat_embedding x),
      <-(Ascii.ascii_nat_embedding y). by rewrite Hxy. }
  assert (∀ n, (n < 256)%nat →
               Ascii.nat_of_ascii (Ascii.ascii_of_nat n) = n) as Hemb
    by (intros; by apply Ascii.nat_ascii_embedding).
  destruct (Nat.leb_spec 65 na), (Nat.leb_spec na 90),
    (Nat.leb_spec 65 nb), (Nat.leb_spec nb 90); cbn [andb];
    (split;
     [ intros E; apply (f_equal Ascii.nat_of_ascii) in E;
       rewrite ?Hemb in E by lia; fold na nb in E;
       first [ left; apply Hinj; fold na nb; lia
             | right; left; lia
             | right; right; lia ]
     | intros [E | [[? E] | [? E]]];
       [ apply (f_equal Ascii.nat_of_ascii) in E; fold na nb in E | |];
       try lia; apply Hinj; rewrite ?Hemb by lia; fold na nb; lia ]).
Qed.

Lemma lower_app (a b : string) : lower (a +:+ b) = lower a +:+ lower b.
Proof. induction a as [|c a IH]; simpl; [done | by rewrite IH]. Qed.

Lemma lower_same_text (a b : string) : lower a = lower b ↔ same_text a b.
Proof.
  revert b. induction a as [|x a IH]; intros [|y b]; cbn [lower same_text].
  - done.
  - split; [discriminate|done].
  - split; [discriminate|done].
  - rewrite <-IH, <-lower_ascii_same_letter. split.
    + by intros [= ? ?].
    + by intros [-> ->].
Qed.

Lemma lower_split (s p r : string) :
  lower s = p +:+ r → ∃ a b, s = a +:+ b ∧ lower a = p ∧ lower b = r.
Proof.
  revert s. induction p as [|c p IH]; intros s Hs.
  - by exists "", s.
  - destruct s as [|x s]; [done|]. simpl in Hs. injection Hs as Hx Hs.
    destruct (IH _ Hs) as (a & b & -> & Ha & Hb).
    exists (String x a), b. simpl. by rewrite Hx, Ha.
Qed.

Lemma occurs_nocase_lower (sub s : string) :
  occurs_nocase sub s ↔ occurs_in (lower sub) (lower s).
Proof.
  split.
  - intros (pre & mid & post & -> & Hm%lower_same_text).
    exists (lower pre), (lower post). by rewrite !lower_app, Hm.
  - intros (p & q & Hs).
    apply lower_split in Hs as (pre & rest & -> & _ & Hrest).
    apply lower_split in Hrest as (mid & post & -> & Hmid & _).
    exists pre, mid, post. split; [done|]. by apply lower_same_text.
Qed.

Lemma name_matches_nocase (patterns : list string) (filename : string) :
  name_matches patterns filename
  ↔ ∃ pattern, pattern ∈ patterns ∧ occurs_nocase pattern filename.
Proof.
  unfold name_matches.
  split; intros (p & Hp & Ho); exists p; split; auto;
    by apply occurs_nocase_lower.
Qed.

Lemma path_matches_nocase (filepath : string) :
  path_matches filepath
  ↔ ∃ word, word ∈ ["dashboard"; "admin"; "billing"; "auth"; "plan"] ∧
            occurs_nocase word filepath.
Proof.
  unfold path_matches.
  change business_logic_paths
    with ["dashboard"; "admin"; "billing"; "auth"; "plan"].
  assert (∀ b, b ∈ ["dashboard"; "admin"; "billing"; "auth"; "plan"] →
               lower b = b) as Hlow.
  { intros b Hb. repeat (apply elem_of_cons in Hb as [-> | Hb]);
      [reflexivity..|by apply elem_of_nil in Hb]. }
  split; intros (b & Hb & Ho); exists b; split; auto.
  - apply occurs_nocase_lower. by rewrite Hlow.
  - apply occurs_nocase_lower in Ho. by rewrite Hlow in Ho.
Qed.

(** C1: the rules of [get_priority] apply in order, first match wins: a
    critical substring in the file name, in whatever case, gives Critical
    whatever the path; failing that, a business-domain substring anywhere
    in the path, in whatever case (the path is lowercased), gives High, also
    when the name has a medium substring; failing that, a medium substring
    in the name, in whatever case, gives Medium; otherwise Low. *)
Theorem get_priority_first_match {A} `{Str A} (filename : string) (filepath : A) :
  let critical :=
    ∃ pattern,
      pattern ∈ [ "Client"; "Page"; "Form"; "Modal"; "Dialog"; "Auth";
                  "Payment"; "Checkout"; "Dashboard"; "Service"; "Provider";
                  "Hook" ] ∧
      occurs_nocase pattern filename in
  let business :=
    ∃ word,
      word ∈ ["dashboard"; "admin"; "billing"; "auth"; "plan"] ∧
      occurs_nocase word (str filepath) in
  let medium :=
    ∃ pattern,
      pattern ∈ [ "Settings"; "Profile"; "Management"; "Editor"; "Table";
                  "List"; "Panel"; "Section" ] ∧
      occurs_nocase pattern filename in
  (critical → get_priority filename filepath = "Critical") ∧
  (¬ critical → business → get_priority filename filepath = "High") ∧
  (¬ critical → ¬ business → medium →
   get_priority filename filepath = "Medium") ∧
  (¬ critical → ¬ business → ¬ medium →
   get_priority filename filepath = "Low").
Proof.
  cbv zeta.
  rewrite <-(name_matches_nocase high_patterns filename).
  rewrite <-(name_matches_nocase medium_patterns filename).
  rewrite <-(path_matches_nocase (str filepath)).
  unfold get_priority. repeat split.
  - intros Hc. apply name_matches_any in Hc. by rewrite Hc.
  - intros Hc Hb. apply (not_true_false _ _ (name_matches_any _ _)) in Hc.
    apply path_matches_any in Hb. by rewrite Hc, Hb.
  - intros Hc Hb Hm. apply (not_true_false _ _ (name_matches_any _ _)) in Hc.
    apply (not_true_false _ _ (path_matches_any _)) in Hb.
    apply name_matches_any in Hm. by rewrite Hc, Hb, Hm.
  - intros Hc Hb Hm. apply (not_true_false _ _ (name_matches_any _ _)) in Hc.
    apply (not_true_false _ _ (path_matches_any _)) in Hb.
    apply (not_true_false _ _ (name_matches_any _ _)) in Hm.
    by rewrite Hc, Hb, Hm.
Qed.

(** The names and the paths differ in case from the substrings they are
    matched with. *)
Lemma get_priority_first_match_witness :
  get_priority "authmodal" "lib/x/authmodal.tsx" = "Critical" ∧
  get_priority "SettingsPanel" "app/DashBoard/SettingsPanel.tsx" = "High" ∧
  get_priority "USERTABLE" "components/ui/USERTABLE.tsx" = "Medium" ∧
  get_priority "Button" "components/ui/Button.tsx" = "Low".
Proof.
  split; [|split; [|split]].
  - apply (get_priority_first_match "authmodal" "lib/x/authmodal.tsx").
    exists "Auth". split; [set_solver|].
    exists "", "auth", "modal". split; [reflexivity|].
    repeat split; (by left) || (right; right; vm_compute; lia) || idtac.
  - apply (get_priority_first_match "SettingsPanel"
             "app/DashBoard/SettingsPanel.tsx").
    + intros Hc%name_matches_nocase%name_matches_any.
      vm_compute in Hc. discriminate.
    + exists "dashboard". split; [set_solver|].
      exists "app/", "DashBoard", "/SettingsPanel.tsx".
      split; [reflexivity|].
      repeat split; (by left) || (right; left; vm_compute; lia) || idtac.
  - apply (get_priority_first_match "USERTABLE" "components/ui/USERTABLE.tsx").
    + intros Hc%name_matches_nocase%name_matches_any.
      vm_compute in Hc. discriminate.
    + intros Hc%path_matches_nocase%path_matches_any.
      vm_compute in Hc. discriminate.
    + exists "Table". split; [set_solver|].
      exists "USER", "TABLE", "". split; [reflexivity|].
      repeat split; (by left) || (right; left; vm_compute; lia) || idtac.
  - apply (get_priority_first_match "Button" "components/ui/Button.tsx").
    + intros Hc%name_matches_nocase%name_matches_any.
      vm_compute in Hc. discriminate.
    + intros Hc%path_matches_nocase%path_matches_any.
      vm_compute in Hc. discriminate.
    + intros Hc%name_matches_nocase%name_matches_any.
      vm_compute in Hc. discriminate.
Defined.

(** C2: [get_complexity] is High exactly above 300, Medium exactly in
    (150, 300], Low exactly up to 150; 150, 151, 300 and 301 classify as
    Low, Medium, Medium and High. *)
Theorem get_complexity_thresholds (L : Z) :
  (get_complexity L = "High" ↔ L > 300) ∧
  (get_complexity L = "Medium" ↔ 150 < L ≤ 300) ∧
  (get_complexity L = "Low" ↔ L ≤ 150) ∧
  get_complexity 150 = "Low" ∧ get_complexity 151 = "Medium" ∧
  get_complexity 300 = "Medium" ∧ get_complexity 301 = "High".
Proof.
  unfold get_complexity.
  destruct (Z.gtb_spec L 300); [|destruct (Z.gtb_spec L 150)];
    repeat split; try done; try lia.
Qed.

(** ** Paths *)

Lemma string_eqb_true (a b : string) : String.eqb a b = true ↔ a = b.
Proof. apply String.eqb_eq. Qed.

Lemma strip_parts_Some (base ps r : list string) :
  strip_parts base ps = Some r ↔ ps = (base ++ r)%list.
Proof.
  revert ps. induction base as [|b base IH]; intros ps; simpl.
  - split; congruence.
  - destruct ps as [|x ps]; [split; done|].
    destruct (String.eqb b x) eqn:E.
    + apply String.eqb_eq in E as ->. rewrite IH. split; congruence.
    + apply String.eqb_neq in E. split; [done | congruence].
Qed.

Lemma relative_to_Some (p base rel : path) :
  relative_to p base = Some rel ↔
  anchored p = anchored base ∧ anchored rel = false ∧
  parts p = (parts base ++ parts rel)%list.
Proof.
  unfold relative_to. destruct (Bool.eqb _ _) eqn:E.
  - apply Bool.eqb_prop in E.
    destruct (strip_parts _ _) as [r|] eqn:Hs; simpl.
    + apply strip_parts_Some in Hs. destruct rel as [a r']; simpl.
      split.
      * intros [= <- <-]. done.
      * intros (_ & -> & Hp). rewrite Hs in Hp.
        apply app_inv_head in Hp. by subst.
    + split; [done|]. intros (_ & _ & Hp).
      apply strip_parts_Some in Hp. congruence.
  - apply Bool.eqb_false_iff in E. split; [done | tauto].
Qed.

(** The relative path of a file below [BASEDIR] *)
Definition rel_of (file_path : path) : path :=
  Path false (drop (length (parts BASEDIR)) (parts file_path)).

Lemma relative_to_rel_of (p rel : path) :
  relative_to p BASEDIR = Some rel → rel = rel_of p.
Proof.
  intros (_ & Ha & Hp)%relative_to_Some. unfold rel_of. rewrite Hp.
  rewrite drop_app_length. destruct rel; simpl in *; congruence.
Qed.

Lemma below_true (d q : path) :
  below d q = true ↔
  anchored d = anchored q ∧ ∃ x r, parts q = (parts d ++ x :: r)%list.
Proof.
  unfold below. rewrite andb_true_iff. split.
  - intros [Ha Hs]. apply Bool.eqb_prop in Ha. split; [done|].
    destruct (strip_parts _ _) as [[|x r]|] eqn:E; try done.
    apply strip_parts_Some in E. eauto.
  - intros [Ha (x & r & Hp)]. split; [by apply Bool.eqb_true_iff|].
    apply strip_parts_Some in Hp. by rewrite Hp.
Qed.

Lemma below_relative_to (d q rel : path) :
  relative_to d BASEDIR = Some rel → below d q = true →
  is_Some (relative_to q BASEDIR).
Proof.
  intros (Ha & _ & Hp)%relative_to_Some [Hq (x & r & Hr)]%below_true.
  exists (Path false (parts rel ++ x :: r)). apply relative_to_Some.
  split; [by rewrite <-Hq|]. split; [done|].
  cbn [parts]. by rewrite Hr, Hp, <-app_assoc.
Qed.

Lemma rglob_ext_elem (fs : filesystem) (d q : path) (ext : string) :
  q ∈ rglob_ext fs d ext ↔
  is_Some (fs !! q) ∧ below d q = true ∧ endswith (name q) ext = true.
Proof.
  unfold rglob_ext. rewrite list_elem_of_filter, list_elem_of_fmap. split.
  - intros [[Hb He] ([q' n] & -> & Hq%elem_of_map_to_list)]. simpl in *. eauto.
  - intros [[n Hn] [Hb He]]. split; [done|]. exists (q, n). split; [done|].
    by apply elem_of_map_to_list.
Qed.

Lemma rglob_ext_NoDup (fs : filesystem) (d : path) (ext : string) :
  NoDup (rglob_ext fs d ext).
Proof. apply NoDup_filter, NoDup_fst_map_to_list. Qed.

(** ** The directory scan *)

(** The entry recorded for an untested file *)
Definition entry_of (fs : filesystem) (category : string) (file_path : path)
  : entry :=
  Entry (str (rel_of file_path))
        (get_priority (stem file_path) file_path)
        (get_complexity (count_lines fs file_path))
        (count_lines fs file_path) category.

(** What one enumerated file adds to [results]. *)
Definition gap (fs : filesystem) (category ext : string) (file_path : path)
  : list entry :=
  if skipped file_path || exists_ fs (test_file_of file_path ext) then []
  else [entry_of fs category file_path].

Lemma visit_gap fs category ext results file_path :
  is_Some (relative_to file_path BASEDIR) →
  visit fs category ext results file_path
  = Some (results ++ gap fs category ext file_path)%list.
Proof.
  intros [rel Hrel]. unfold visit, gap.
  destruct (skipped file_path); simpl; [by rewrite app_nil_r|].
  destruct (exists_ fs _); simpl; [by rewrite app_nil_r|].
  rewrite Hrel. simpl. by rewrite (relative_to_rel_of _ _ Hrel).
Qed.

Lemma for_each_visit fs category ext l acc :
  Forall (λ p, is_Some (relative_to p BASEDIR)) l →
  for_each (visit fs category ext) l acc
  = Some (acc ++ flat_map (gap fs category ext) l)%list.
Proof.
  intros Hl. revert acc. induction Hl as [|p l Hp Hl IH]; intros acc; simpl.
  - by rewrite app_nil_r.
  - rewrite (visit_gap _ _ _ _ _ Hp). simpl. by rewrite IH, <-app_assoc.
Qed.

Lemma analyze_directory_gaps fs directory category :
  is_Some (relative_to directory BASEDIR) →
  analyze_directory fs directory category
  = Some (flat_map (gap fs category ".tsx") (rglob_ext fs directory ".tsx")
          ++ flat_map (gap fs category ".ts") (rglob_ext fs directory ".ts"))%list.
Proof.
  intros [rel Hrel]. unfold analyze_directory. simpl.
  rewrite for_each_visit; simpl.
  - rewrite for_each_visit; [done|].
    apply Forall_forall. intros q (_ & Hb & _)%rglob_ext_elem.
    eauto using below_relative_to.
  - apply Forall_forall. intros q (_ & Hb & _)%rglob_ext_elem.
    eauto using below_relative_to.
Qed.

(** Labels *)
Definition priorities : list string := ["Critical"; "High"; "Medium"; "Low"].
Definition complexities : list string := ["High"; "Medium"; "Low"].

Lemma get_priority_label {A} `{Str A} (filename : string) (filepath : A) :
  get_priority filename filepath ∈ priorities.
Proof.
  unfold get_priority, priorities.
  repeat (match goal with |- context [if ?b then _ else _] => destruct b end);
    set_solver.
Qed.

Lemma get_complexity_label (lines : Z) : get_complexity lines ∈ complexities.
Proof.
  unfold get_complexity, complexities.
  repeat (match goal with |- context [if ?b then _ else _] => destruct b end);
    set_solver.
Qed.

Definition labelled (e : entry) : Prop :=
  e_priority e ∈ priorities ∧ e_complexity e ∈ complexities.

Lemma visit_labelled fs category ext results file_path results' :
  visit fs category ext results file_path = Some results' →
  Forall labelled results → Forall labelled results'.
Proof.
  unfold visit. intros Hv Hr.
  destruct (skipped file_path); [by simplify_eq|].
  destruct (negb _); [|by simplify_eq].
  destruct (relative_to _ _) as [rel|]; simplify_eq/=.
  apply Forall_app. split; [done|]. apply Forall_singleton. split; simpl.
  - apply get_priority_label.
  - apply get_complexity_label.
Qed.

Lemma for_each_labelled {A} (body : list entry → A → option (list entry)) l :
  (∀ r x r', body r x = Some r' → Forall labelled r → Forall labelled r') →
  ∀ acc res, for_each body l acc = Some res →
  Forall labelled acc → Forall labelled res.
Proof.
  intros Hb. induction l as [|x l IH]; intros acc res; simpl.
  - by intros [= <-].
  - destruct (body acc x) as [r'|] eqn:E; simpl; [|done]. eauto.
Qed.

Lemma analyze_directory_labelled fs directory category results :
  analyze_directory fs directory category = Some results →
  Forall labelled results.
Proof.
  unfold analyze_directory. intros Hr.
  eapply for_each_labelled in Hr; [done| |done].
  intros r ext r' Hv Hl. eapply for_each_labelled in Hv; [done| |done].
  intros ???. apply visit_labelled.
Qed.

Lemma sort_key_labelled (e : entry) :
  labelled e → is_Some (priority_order !! e_priority e) ∧
               is_Some (complexity_order !! e_complexity e) ∧
               is_Some (sort_key e).
Proof.
  intros [Hp Hc]. unfold sort_key, priorities, complexities in *.
  repeat (apply elem_of_cons in Hp as [-> | Hp]);
    try (by apply elem_of_nil in Hp);
    repeat (apply elem_of_cons in Hc as [-> | Hc]);
    try (by apply elem_of_nil in Hc);
    (split; [|split]); vm_compute; eauto.
Qed.

Lemma decorate_is_Some {K A} (key : A → option K) (l : list A) :
  Forall (λ x, is_Some (key x)) l → is_Some (decorate key l).
Proof.
  induction 1 as [|x l [k Hk] _ [d Hd]]; simpl; [eauto|].
  rewrite Hk, Hd. simpl. eauto.
Qed.

Lemma sort_untested_is_Some (untested : list entry) :
  Forall labelled untested → is_Some (sort_untested untested).
Proof.
  intros Hl. unfold sort_untested, list_sort.
  destruct (decorate_is_Some sort_key untested) as [d Hd].
  - eapply Forall_impl; [done|]. intros e He. by apply sort_key_labelled.
  - rewrite Hd. simpl. eauto.
Qed.

(** ** More on strings: lengths, suffixes, joining *)

Lemma length_append (a b : string) :
  String.length (a +:+ b) = (String.length a + String.length b)%nat.
Proof. induction a as [|c a IH]; simpl; [done | by rewrite IH]. Qed.

Lemma drop_str_append (a b : string) (k : nat) :
  drop_str (String.length a + k) (a +:+ b) = drop_str k b.
Proof. induction a as [|c a IH]; simpl; done. Qed.

Lemma endswith_append (pre e : string) : endswith (pre +:+ e) e = true.
Proof.
  unfold endswith. rewrite length_append. apply andb_true_iff. split.
  - apply Nat.leb_le. lia.
  - replace (String.length pre + String.length e - String.length e)%nat
      with (String.length pre + 0)%nat by lia.
    rewrite drop_str_append. simpl. destruct e; apply String.eqb_refl.
Qed.

Lemma drop_str_split (n : nat) (s : string) :
  (n ≤ String.length s)%nat →
  ∃ pre, s = pre +:+ drop_str n s ∧ String.length pre = n.
Proof.
  revert s. induction n as [|n IH]; intros s Hn; simpl.
  - by exists "".
  - destruct s as [|c s]; simpl in *; [lia|].
    destruct (IH s) as (pre & Hs & Hl); [lia|].
    exists (String c pre). simpl. split; [by rewrite <-Hs | by rewrite Hl].
Qed.

Lemma endswith_true (s e : string) :
  endswith s e = true ↔ ∃ pre, s = pre +:+ e.
Proof.
  split.
  - unfold endswith. intros [Hl He]%andb_true_iff.
    apply Nat.leb_le in Hl. apply String.eqb_eq in He.
    destruct (drop_str_split (String.length s - String.length e) s)
      as (pre & Hs & _); [lia|].
    exists pre. by rewrite He in Hs.
  - intros [pre ->]. apply endswith_append.
Qed.

(** A name matched by ['*.tsx'] is not matched by ['*.ts']. *)
Lemma endswith_tsx_not_ts (s : string) :
  endswith s ".tsx" = true → endswith s ".ts" = false.
Proof.
  intros [pre ->]%endswith_true. unfold endswith.
  rewrite length_append. simpl String.length.
  replace (String.length pre + 4 - 3)%nat
    with (String.length pre + 1)%nat by lia.
  rewrite drop_str_append. simpl. apply andb_false_r.
Qed.

Definition slash_free (s : string) : Prop := str_in "/" s = false.

Lemma prefix_nil (s : string) : String.prefix "" s = true.
Proof. by destruct s. Qed.

Lemma slash_free_cons (c : ascii) (s : string) :
  slash_free (String c s) ↔ c ≠ "/"%char ∧ slash_free s.
Proof.
  unfold slash_free. cbn [str_in]. rewrite orb_false_iff.
  change (String.prefix "/" (String c s))
    with (if Ascii.ascii_dec "/" c then String.prefix "" s else false).
  destruct (Ascii.ascii_dec "/" c) as [<-|Hne].
  - rewrite prefix_nil. split; intros [? ?]; done.
  - split; intros [? ?]; split; auto.
Qed.

Lemma slash_free_no_slash (x pre post : string) :
  slash_free x → x ≠ pre +:+ "/" +:+ post.
Proof.
  unfold slash_free. intros Hx ->.
  assert (str_in "/" (pre +:+ "/" +:+ post) = true) as Ht
    by (apply str_in_true; by exists pre, post).
  congruence.
Qed.

Lemma slash_split_inj (x y r1 r2 : string) :
  slash_free x → slash_free y →
  x +:+ "/" +:+ r1 = y +:+ "/" +:+ r2 → x = y ∧ r1 = r2.
Proof.
  revert y. induction x as [|c x IH]; intros [|d y] Hx Hy; simpl.
  - intros [= ->]. done.
  - intros [= <- _]. apply slash_free_cons in Hy as [? _]. done.
  - intros [= -> _]. apply slash_free_cons in Hx as [? _]. done.
  - intros [= -> He]. apply slash_free_cons in Hx as [_ Hx].
    apply slash_free_cons in Hy as [_ Hy].
    destruct (IH y Hx Hy He) as [-> ->]. done.
Qed.

Lemma join_cons_cons (sep x y : string) (l : list string) :
  join sep (x :: y :: l) = x +:+ sep +:+ join sep (y :: l).
Proof. done. Qed.

Lemma join_slash_inj (l1 l2 : list string) :
  l1 ≠ [] → l2 ≠ [] → Forall slash_free l1 → Forall slash_free l2 →
  join "/" l1 = join "/" l2 → l1 = l2.
Proof.
  revert l2. induction l1 as [|x l1 IH]; intros l2 Hn1 Hn2 H1 H2; [done|].
  destruct l2 as [|y l2]; [done|].
  apply Forall_cons in H1 as [Hx H1]. apply Forall_cons in H2 as [Hy H2].
  destruct l1 as [|x' l1], l2 as [|y' l2].
  - simpl. by intros ->.
  - rewrite join_cons_cons. cbn [join]. intros He.
    by apply slash_free_no_slash in He.
  - rewrite join_cons_cons. cbn [join]. intros He. symmetry in He.
    by apply slash_free_no_slash in He.
  - rewrite !join_cons_cons. intros He.
    apply slash_split_inj in He as [-> He]; [|done..].
    f_equal. by apply IH.
Qed.

(** ** One entry per untested file *)

Lemma filter_flat_map_nil {A B} (P : B → Prop) `{!∀ x, Decision (P x)}
    (f : A → list B) (l : list A) :
  (∀ x, x ∈ l → filter P (f x) = []) → filter P (flat_map f l) = [].
Proof.
  induction l as [|a l IH]; intros Hl; simpl; [done|].
  rewrite filter_app, Hl, IH; [done| |by left].
  intros x Hx. apply Hl. by right.
Qed.

Lemma filter_flat_map_unique {A B} (P : B → Prop) `{!∀ x, Decision (P x)}
    (f : A → list B) (l : list A) (x0 : A) :
  NoDup l → x0 ∈ l →
  (∀ x, x ∈ l → x ≠ x0 → filter P (f x) = []) →
  filter P (flat_map f l) = filter P (f x0).
Proof.
  induction 1 as [|a l Ha Hnd IH]; intros Hin Hl; [by apply elem_of_nil in Hin|].
  simpl. rewrite filter_app.
  apply elem_of_cons in Hin as [-> | Hin].
  - rewrite (filter_flat_map_nil P f l), app_nil_r; [done|].
    intros x Hx. apply Hl; [by right|]. by intros ->.
  - rewrite Hl, IH; [done..| |by left|by intros ->].
    intros x Hx. apply Hl. by right.
Qed.

(** No name of the file system contains a slash. *)
Definition plain_names (fs : filesystem) : Prop :=
  map_Forall (λ q _, Forall slash_free (parts q)) fs.

Lemma rel_of_below (d rel q : path) :
  relative_to d BASEDIR = Some rel → below d q = true →
  relative_to q BASEDIR = Some (rel_of q) ∧ parts (rel_of q) ≠ [] ∧
  anchored q = anchored BASEDIR ∧
  parts q = (parts BASEDIR ++ parts (rel_of q))%list.
Proof.
  intros Hd Hb. destruct (below_relative_to _ _ _ Hd Hb) as [r Hr].
  pose proof (relative_to_rel_of _ _ Hr) as ->. split; [done|].
  apply relative_to_Some in Hr as (Ha & _ & Hp).
  apply relative_to_Some in Hd as (_ & _ & Hd).
  apply below_true in Hb as (_ & x & r & Hq).
  split; [|done]. intros Hnil. rewrite Hnil, app_nil_r in Hp.
  rewrite Hq, Hd in Hp. rewrite <-(app_nil_r (parts BASEDIR)) in Hp at 2.
  rewrite <-app_assoc in Hp. apply app_inv_head in Hp.
  by destruct (parts rel).
Qed.

Lemma path_str_relative (ps : list string) :
  ps ≠ [] → path_str (Path false ps) = join "/" ps.
Proof. by destruct ps. Qed.

Lemma rel_of_str_inj (fs : filesystem) (d rel x y : path) :
  plain_names fs → relative_to d BASEDIR = Some rel →
  is_Some (fs !! x) → is_Some (fs !! y) →
  below d x = true → below d y = true →
  str (rel_of x) = str (rel_of y) → x = y.
Proof.
  intros Hfs Hd [nx Hx] [ny Hy] Hbx Hby.
  destruct (rel_of_below _ _ _ Hd Hbx) as (_ & Hnx & Hax & Hpx).
  destruct (rel_of_below _ _ _ Hd Hby) as (_ & Hny & Hay & Hpy).
  apply Hfs in Hx, Hy. simpl in Hx, Hy.
  rewrite Hpx in Hx. rewrite Hpy in Hy.
  apply Forall_app in Hx as [_ Hx]. apply Forall_app in Hy as [_ Hy].
  unfold str, str_path.
  destruct (rel_of x) as [ax px] eqn:Ex, (rel_of y) as [ay py] eqn:Ey.
  unfold rel_of in Ex, Ey. simplify_eq/=.
  rewrite !path_str_relative by done. intros He.
  apply join_slash_inj in He; [|done..].
  destruct x, y; simpl in *. congruence.
Qed.

Lemma gap_filter_other fs d rel category ext x y :
  plain_names fs → relative_to d BASEDIR = Some rel →
  is_Some (fs !! x) → is_Some (fs !! y) →
  below d x = true → below d y = true → x ≠ y →
  filter (λ e, e_path e = str (rel_of y)) (gap fs category ext x) = [].
Proof.
  intros Hfs Hd Hx Hy Hbx Hby Hne. unfold gap.
  destruct (_ || _); [done|].
  rewrite filter_cons_False; [done|]. simpl. intros He.
  apply Hne. eauto using rel_of_str_inj.
Qed.

Lemma gap_filter_self fs category ext y :
  skipped y = false →
  filter (λ e, e_path e = str (rel_of y)) (gap fs category ext y)
  = if exists_ fs (test_file_of y ext) then []
    else [entry_of fs category y].
Proof.
  intros Hs. unfold gap. rewrite Hs. simpl.
  destruct (exists_ _ _); [done|].
  by rewrite filter_cons_True.
Qed.

Lemma count_lines_unreadable fs file_path :
  read_text fs file_path = None →
  count_lines fs file_path = 0 ∧
  get_complexity (count_lines fs file_path) = "Low".
Proof. unfold count_lines. by intros ->. Qed.

(** *** Paths made of plain names *)

Lemma slash_free_app (a b : string) :
  slash_free (a +:+ b) ↔ slash_free a ∧ slash_free b.
Proof.
  induction a as [|c a IH]; simpl.
  - split; [by intros ?|by intros [_ ?]].
  - rewrite !slash_free_cons, IH. tauto.
Qed.

Lemma split_slash_plain (cur s : string) :
  slash_free s → split_slash cur s = [cur +:+ s].
Proof.
  revert cur. induction s as [|c s IH]; intros cur; simpl.
  - intros _. by rewrite append_nil_r.
  - intros [Hc Hs]%slash_free_cons.
    destruct (Ascii.eqb_spec c "/") as [->|_]; [done|].
    rewrite IH by done. by rewrite append_assoc.
Qed.

Lemma split_slash_slash_free (cur s : string) :
  slash_free cur → Forall slash_free (split_slash cur s).
Proof.
  revert cur. induction s as [|c s IH]; intros cur Hcur; simpl.
  - by constructor.
  - destruct (Ascii.eqb_spec c "/") as [->|Hne].
    + constructor; [done|]. by apply IH.
    + apply IH. apply slash_free_app. split; [done|].
      apply slash_free_cons. by split.
Qed.

Lemma of_string_slash_free (s : string) :
  Forall slash_free (parts (of_string s)).
Proof.
  unfold of_string. cbn [parts].
  apply Forall_forall. intros seg [_ Hseg]%list_elem_of_filter.
  by apply (proj1 (Forall_forall _ _) (split_slash_slash_free "" s eq_refl)).
Qed.

(** A plain name is a path of one part. *)
Lemma of_string_plain (s : string) :
  slash_free s → s ≠ "" → s ≠ "." → of_string s = Path false [s].
Proof.
  intros Hs Hne Hdot. unfold of_string. rewrite split_slash_plain by done.
  cbn [String.append]. f_equal.
  - destruct s as [|c s]; [done|].
    apply slash_free_cons in Hs as [Hc _].
    change (String.prefix "/" (String c s))
      with (if Ascii.ascii_dec "/" c then String.prefix "" s else false).
    by destruct (Ascii.ascii_dec "/" c) as [<-|].
  - rewrite filter_cons_True; [done|]. by split.
Qed.

Lemma div_plain (d : path) (s : string) :
  slash_free s → s ≠ "" → s ≠ "." →
  div d s = Path (anchored d) (parts d ++ [s]).
Proof.
  intros Hs Hne Hdot. unfold div. by rewrite of_string_plain.
Qed.

Lemma parent_div_plain (d : path) (s : string) :
  slash_free s → s ≠ "" → s ≠ "." → parent (div d s) = d.
Proof.
  intros Hs Hne Hdot. rewrite div_plain by done. unfold parent.
  cbn [anchored parts]. rewrite removelast_last. by destruct d.
Qed.

(** *** Where the paired test file lies *)

Lemma append_cancel_r (a b e : string) : a +:+ e = b +:+ e → a = b.
Proof.
  revert b. induction a as [|x a IH]; intros [|y b] Heq.
  - done.
  - apply (f_equal String.length) in Heq. simpl in Heq.
    rewrite length_append in Heq. lia.
  - apply (f_equal String.length) in Heq. simpl in Heq.
    rewrite length_append in Heq. lia.
  - simpl in Heq. injection Heq as -> Heq. f_equal. by apply IH.
Qed.

Lemma split_last_dot_ext (base ext : string) :
  ext ∈ [".tsx"; ".ts"] → split_last_dot (base +:+ ext) = Some (base, ext).
Proof.
  intros Hext. induction base as [|c base IH].
  - repeat (apply elem_of_cons in Hext as [-> | Hext]);
      [reflexivity..|by apply elem_of_nil in Hext].
  - cbn [String.append split_last_dot]. by rewrite IH.
Qed.

(** The stem of [<base><ext>] is [base]; a file named just [.tsx] or [.ts]
    has no suffix and is its own stem. *)
Lemma stem_ext (p : path) (base ext : string) :
  ext ∈ [".tsx"; ".ts"] → name p = base +:+ ext →
  stem p = if String.eqb base "" then ext else base.
Proof.
  intros Hext Hn. unfold stem. rewrite Hn, split_last_dot_ext by done.
  destruct base as [|c base]; [done|]. cbn [String.eqb negb andb].
  repeat (apply elem_of_cons in Hext as [-> | Hext]);
    [reflexivity..|by apply elem_of_nil in Hext].
Qed.

Lemma name_snoc (p : path) (dir : list string) (x : string) :
  parts p = (dir ++ [x])%list → name p = x ∧ parent p = Path (anchored p) dir.
Proof.
  intros Hp. unfold name, parent. rewrite Hp. split.
  - apply last_last.
  - by rewrite removelast_last.
Qed.

Lemma test_file_of_parts (p : path) (dir : list string) (base ext : string) :
  ext ∈ [".tsx"; ".ts"] → Forall slash_free (parts p) →
  parts p = (dir ++ [base +:+ ext])%list →
  test_file_of p ext
  = Path (anchored p)
         (dir ++ [ "__tests__";
                   (if String.eqb base "" then ext else base)
                   +:+ ".test" +:+ ext ]).
Proof.
  intros Hext Hplain Hp. destruct (name_snoc p dir _ Hp) as [Hn Hpar].
  unfold test_file_of. rewrite (stem_ext p base ext Hext Hn), Hpar.
  assert (slash_free base ∧ slash_free ext) as [Hb He].
  { apply slash_free_app. rewrite Hp in Hplain.
    apply Forall_app in Hplain as [_ Hx]. by inversion_clear Hx. }
  rewrite (div_plain _ "__tests__") by (done || by vm_compute).
  cbn [anchored parts].
  set (s := if String.eqb base "" then ext else base).
  assert (slash_free s) as Hs by (unfold s; by destruct (String.eqb base "")).
  rewrite div_plain.
  - cbn [anchored parts]. by rewrite <-app_assoc.
  - apply slash_free_app. split; [done|].
    apply (slash_free_app ".test"). split; [by vm_compute|done].
  - intros E. apply (f_equal String.length) in E.
    rewrite !length_append in E. simpl in E. lia.
  - intros E. apply (f_equal String.length) in E.
    rewrite !length_append in E. simpl in E. lia.
Qed.

Lemma parts_of_enumerated (fs : filesystem) (d q : path) (ext : string) :
  q ∈ rglob_ext fs d ext → ∃ dir base, parts q = (dir ++ [base +:+ ext])%list.
Proof.
  intros (_ & Hb & He)%rglob_ext_elem.
  apply below_true in Hb as (_ & x & r & Hq).
  apply endswith_true in He as [base Hn].
  exists (removelast (parts q)), base. rewrite <-Hn. unfold name.
  apply app_removelast_last. rewrite Hq. by destruct (parts d).
Qed.

(** What the scan holds for one enumerated file, with the path that
    [analyze_directory] tests written as the code computes it. *)
Lemma analyze_directory_gap_of_file
    (fs : filesystem) (directory : path) (category : string) :
  is_Some (relative_to directory BASEDIR) →
  plain_names fs →
  ∃ results,
    analyze_directory fs directory category = Some results ∧
    ∀ ext file_path,
      ext ∈ [".tsx"; ".ts"] →
      file_path ∈ rglob_ext fs directory ext →
      skipped file_path = false →
      ∃ relative_path,
        relative_to file_path BASEDIR = Some relative_path ∧
        let mine := filter (λ e, e_path e = str relative_path) results in
        let lines := count_lines fs file_path in
        (if exists_ fs (test_file_of file_path ext) then mine = []
         else mine = [ Entry (str relative_path)
                             (get_priority (stem file_path) file_path)
                             (get_complexity lines) lines category ]) ∧
        (read_text fs file_path = None →
         lines = 0 ∧ get_complexity lines = "Low").
Proof.
  intros Hd Hfs. pose proof Hd as [rel Hrel].
  eexists. split; [exact (analyze_directory_gaps _ _ _ Hd)|].
  intros ext y Hext Hy Hskip.
  pose proof Hy as (Hfy & Hby & Hey)%rglob_ext_elem.
  destruct (rel_of_below _ _ _ Hrel Hby) as (Hr & _).
  exists (rel_of y). split; [done|]. cbv zeta.
  split; [|apply count_lines_unreadable].
  rewrite filter_app.
  assert (∀ ext' x, x ∈ rglob_ext fs directory ext' → x ≠ y →
            filter (λ e, e_path e = str (rel_of y)) (gap fs category ext' x)
            = []) as Hother.
  { intros ext' x (Hfx & Hbx & _)%rglob_ext_elem Hne.
    eauto using gap_filter_other. }
  assert (∀ ext', filter (λ e, e_path e = str (rel_of y))
                     (flat_map (gap fs category ext')
                               (rglob_ext fs directory ext'))
                   = if bool_decide (y ∈ rglob_ext fs directory ext')
                     then filter (λ e, e_path e = str (rel_of y))
                                 (gap fs category ext' y)
                     else []) as Hpart.
  { intros ext'. case_bool_decide as Hin.
    - apply filter_flat_map_unique; [apply rglob_ext_NoDup|done|by eauto].
    - apply filter_flat_map_nil. intros x Hx. apply (Hother _ _ Hx).
      by intros ->. }
  rewrite !Hpart.
  apply elem_of_cons in Hext as [-> | Hext].
  - rewrite bool_decide_eq_true_2 by done.
    rewrite bool_decide_eq_false_2.
    + rewrite app_nil_r, gap_filter_self by done. by destruct (exists_ _ _).
    + intros (_ & _ & Hx)%rglob_ext_elem.
      apply endswith_tsx_not_ts in Hey. congruence.
  - apply list_elem_of_singleton in Hext as ->.
    rewrite (bool_decide_eq_true_2 (y ∈ rglob_ext fs directory ".ts")) by done.
    rewrite bool_decide_eq_false_2.
    + rewrite app_nil_l, gap_filter_self by done. by destruct (exists_ _ _).
    + intros (_ & _ & Hx)%rglob_ext_elem.
      apply endswith_tsx_not_ts in Hx. congruence.
Qed.

(** C4: in a scan of a directory at or below [BASEDIR], every enumerated
    [.tsx] or [.ts] file that is not skipped, say [dir/<base><ext>],
    contributes exactly one entry when there is nothing at
    [dir/__tests__/<base>.test<ext>] and none when there is something; the
    entry carries the classification of the file, and an unreadable file
    counts 0 lines (complexity Low) without aborting the scan. *)
Theorem analyze_directory_one_entry_per_gap
    (fs : filesystem) (directory : path) (category : string) :
  is_Some (relative_to directory BASEDIR) →
  plain_names fs →
  ∃ results,
    analyze_directory fs directory category = Some results ∧
    ∀ ext file_path,
      ext ∈ [".tsx"; ".ts"] →
      file_path ∈ rglob_ext fs directory ext →
      skipped file_path = false →
      ∃ relative_path dir base,
        relative_to file_path BASEDIR = Some relative_path ∧
        parts file_path = (dir ++ [base +:+ ext])%list ∧
        let stem := if String.eqb base "" then ext else base in
        let test_file :=
          Path (anchored file_path)
               (dir ++ ["__tests__"; stem +:+ ".test" +:+ ext]) in
        let mine := filter (λ e, e_path e = str relative_path) results in
        let lines := count_lines fs file_path in
        (if exists_ fs test_file then mine = []
         else mine = [ Entry (str relative_path)
                             (get_priority stem file_path)
                             (get_complexity lines) lines category ]) ∧
        (read_text fs file_path = None →
         lines = 0 ∧ get_complexity lines = "Low").
Proof.
  intros Hd Hfs.
  destruct (analyze_directory_gap_of_file fs directory category Hd Hfs)
    as (results & Hres & Hall).
  exists results. split; [exact Hres|].
  intros ext y Hext Hy Hskip.
  destruct (Hall ext y Hext Hy Hskip) as (rel & Hrel & Hmine & Hunread).
  destruct (parts_of_enumerated _ _ _ _ Hy) as (dir & base & Hp).
  exists rel, dir, base. split; [done|]. split; [done|]. cbv zeta in *.
  assert (Forall slash_free (parts y)) as Hplain.
  { apply rglob_ext_elem in Hy as ([n Hn] & _). exact (Hfs _ _ Hn). }
  destruct (name_snoc y dir _ Hp) as [Hn _].
  rewrite <-(test_file_of_parts y dir base ext Hext Hplain Hp).
  rewrite <-(stem_ext y base ext Hext Hn). by split.
Qed.

#[local] Instance slash_free_dec (s : string) : Decision (slash_free s).
Proof. unfold slash_free. apply _. Defined.

(** *** A small tree under [components/ui] *)

Definition ui_dir : path := div (div BASEDIR "components") "ui".

(** [Button.tsx] has 200 lines and no test; [Card.tsx] has a test;
    [icons.ts] cannot be read. *)
Definition sample_fs : filesystem :=
  <[div ui_dir "Button.tsx" :=
      File (Template.text (replicate 200 "export {};")) true]>
  (<[div ui_dir "Card.tsx" := File "export {};" true]>
  (<[div ui_dir "__tests__/Card.test.tsx" := File "test" true]>
  (<[div ui_dir "icons.ts" := File "" false]>
  (<[div ui_dir "__tests__" := Dir]>
  (<[ui_dir := Dir]> ∅))))).

Lemma analyze_directory_one_entry_per_gap_witness :
  ∃ results,
    analyze_directory sample_fs ui_dir "UI Components" = Some results ∧
    filter (λ e, e_path e = "components/ui/Button.tsx") results
    = [ Entry "components/ui/Button.tsx" "Low" "Medium" 200
              "UI Components" ] ∧
    filter (λ e, e_path e = "components/ui/Card.tsx") results = [] ∧
    filter (λ e, e_path e = "components/ui/icons.ts") results
    = [ Entry "components/ui/icons.ts" "Low" "Low" 0 "UI Components" ].
Proof.
  destruct (analyze_directory_one_entry_per_gap sample_fs ui_dir
              "UI Components") as (results & Hres & Hall).
  - vm_compute. eauto.
  - apply (bool_decide_unpack _). vm_compute. reflexivity.
  - exists results. split; [exact Hres|]. split; [|split].
    + destruct (Hall ".tsx" (div ui_dir "Button.tsx"))
        as (rel & dir & base & Hrel & Hparts & Hmine & _).
      * apply elem_of_cons. by left.
      * apply rglob_ext_elem. vm_compute. eauto.
      * vm_compute. reflexivity.
      * vm_compute in Hrel. injection Hrel as <-.
        assert (parts (div ui_dir "Button.tsx")
                = (parts ui_dir ++ ["Button" +:+ ".tsx"])%list) as Hp
          by reflexivity.
        rewrite Hp in Hparts.
        apply app_inj_tail in Hparts as [<- Hbase].
        apply append_cancel_r in Hbase as <-. cbv zeta in Hmine.
        destruct (exists_ sample_fs _) eqn:He in Hmine;
          [vm_compute in He; discriminate He|]. exact Hmine.
    + destruct (Hall ".tsx" (div ui_dir "Card.tsx"))
        as (rel & dir & base & Hrel & Hparts & Hmine & _).
      * apply elem_of_cons. by left.
      * apply rglob_ext_elem. vm_compute. eauto.
      * vm_compute. reflexivity.
      * vm_compute in Hrel. injection Hrel as <-.
        assert (parts (div ui_dir "Card.tsx")
                = (parts ui_dir ++ ["Card" +:+ ".tsx"])%list) as Hp
          by reflexivity.
        rewrite Hp in Hparts.
        apply app_inj_tail in Hparts as [<- Hbase].
        apply append_cancel_r in Hbase as <-. cbv zeta in Hmine.
        destruct (exists_ sample_fs _) eqn:He in Hmine;
          [|vm_compute in He; discriminate He]. exact Hmine.
    + destruct (Hall ".ts" (div ui_dir "icons.ts"))
        as (rel & dir & base & Hrel & Hparts & Hmine & _).
      * apply elem_of_cons. right. apply elem_of_cons. by left.
      * apply rglob_ext_elem. vm_compute. eauto.
      * vm_compute. reflexivity.
      * vm_compute in Hrel. injection Hrel as <-.
        assert (parts (div ui_dir "icons.ts")
                = (parts ui_dir ++ ["icons" +:+ ".ts"])%list) as Hp
          by reflexivity.
        rewrite Hp in Hparts.
        apply app_inj_tail in Hparts as [<- Hbase].
        apply append_cancel_r in Hbase as <-. cbv zeta in Hmine.
        destruct (exists_ sample_fs _) eqn:He in Hmine;
          [vm_compute in He; discriminate He|]. exact Hmine.
Defined.

Example sample_scan :
  analyze_directory sample_fs ui_dir "UI Components"
  = Some [ Entry "components/ui/Button.tsx" "Low" "Medium" 200 "UI Components";
           Entry "components/ui/icons.ts" "Low" "Low" 0 "UI Components" ].
Proof. vm_compute. reflexivity. Qed.

(** ** Labels and rank lookups *)

(** [e] is an entry of some scan. *)
Definition scanned (e : entry) : Prop :=
  ∃ fs directory category results,
    analyze_directory fs directory category = Some results ∧ e ∈ results.

Lemma scanned_labelled (e : entry) : scanned e → labelled e.
Proof.
  intros (fs & d & c & results & Hr & He).
  apply analyze_directory_labelled in Hr.
  by apply (proj1 (Forall_forall _ _) Hr).
Qed.

(** C9: [get_priority] returns one of Critical, High, Medium, Low and
    [get_complexity] one of High, Medium, Low, and every one of these is
    returned for some input; so for the entries of a scan both rank lookups
    of the sort key are defined and sorting never fails with a missing
    key. *)
Theorem sort_key_lookups_defined :
  (∀ A (H : Str A) (filename : string) (filepath : A),
     get_priority filename filepath ∈ priorities) ∧
  (∀ label, label ∈ priorities →
     ∃ filename filepath : string, get_priority filename filepath = label) ∧
  (∀ lines, get_complexity lines ∈ complexities) ∧
  (∀ label, label ∈ complexities →
     ∃ lines, 0 ≤ lines ∧ get_complexity lines = label) ∧
  (∀ e, scanned e →
     is_Some (priority_order !! e_priority e) ∧
     is_Some (complexity_order !! e_complexity e) ∧
     is_Some (sort_key e)) ∧
  (∀ untested, Forall scanned untested → is_Some (sort_untested untested)).
Proof.
  split; [|split; [|split; [|split; [|split]]]].
  - intros. apply get_priority_label.
  - intros label Hl. unfold priorities in Hl.
    repeat (apply elem_of_cons in Hl as [-> | Hl]).
    + by exists "AuthModal", "AuthModal.tsx".
    + by exists "Widget", "app/dashboard/Widget.tsx".
    + by exists "UserTable", "components/UserTable.tsx".
    + by exists "Button", "components/ui/Button.tsx".
    + by apply elem_of_nil in Hl.
  - apply get_complexity_label.
  - intros label Hl. unfold complexities in Hl.
    repeat (apply elem_of_cons in Hl as [-> | Hl]).
    + by exists 301.
    + by exists 151.
    + by exists 0.
    + by apply elem_of_nil in Hl.
  - intros e He. by apply sort_key_labelled, scanned_labelled.
  - intros untested Hu. apply sort_untested_is_Some.
    eapply Forall_impl; [exact Hu|]. apply scanned_labelled.
Qed.

Lemma sort_key_lookups_defined_witness :
  is_Some (sort_untested
             [ Entry "components/ui/Button.tsx" "Low" "Medium" 200
                     "UI Components";
               Entry "components/ui/icons.ts" "Low" "Low" 0
                     "UI Components" ]).
Proof.
  apply sort_key_lookups_defined.
  apply Forall_forall. intros e He.
  exists sample_fs, ui_dir, "UI Components". eexists. split; [|exact He].
  vm_compute. reflexivity.
Defined.

(** C10: the business-domain rule looks for its substrings anywhere in the
    lowercased path, file name included: [lib/airplane-utils.ts] has no
    critical substring in its name and no path segment that is a
    business-domain name, yet ["plan"] inside ["airplane"] makes it High. *)
Theorem business_rule_matches_inside_words :
  let file_path := div (div BASEDIR "lib") "airplane-utils.ts" in
  stem file_path = "airplane-utils" ∧
  ¬ name_matches high_patterns (stem file_path) ∧
  Forall (λ segment, lower segment ∉ business_logic_paths) (parts file_path) ∧
  occurs_in "plan" (lower (name file_path)) ∧
  get_priority (stem file_path) file_path = "High" ∧
  get_priority "AirPlane-utils" "lib/AirPlane-utils.ts" = "High".
Proof.
  cbv zeta. split; [|split; [|split; [|split; [|split]]]].
  - vm_compute. reflexivity.
  - intros Hc. apply name_matches_any in Hc. vm_compute in Hc. discriminate.
  - apply (bool_decide_unpack _). vm_compute. reflexivity.
  - apply str_in_true. vm_compute. reflexivity.
  - vm_compute. reflexivity.
  - vm_compute. reflexivity.
Qed.

(** ** Coverage percentages *)

(** What the guarded expression yields for [tests] out of [total]. *)
Definition guarded_percentage (tests total : Z) (q : Q) : Prop :=
  (total > 0 → q = (inject_Z tests / inject_Z total * 100)%Q) ∧
  (total ≤ 0 → q = 0%Q).

Lemma coverage_expr_guarded (tests total : Z) :
  ∃ q, coverage_expr tests total = Some q ∧ guarded_percentage tests total q.
Proof.
  unfold coverage_expr, truediv, guarded_percentage.
  destruct (Z.gtb_spec total 0) as [Hpos|Hle].
  - destruct (Z.eqb_spec total 0) as [->|_]; [lia|]. simpl.
    eexists. split; [done|]. split; [done|lia].
  - eexists. split; [done|]. split; [lia|done].
Qed.

(** C8: each of the five percentages of the report divides only under its
    guard: the computation never fails, gives tests / total * 100 for a
    positive total and exactly 0 otherwise, in particular for 0 files. *)
Theorem coverage_percentages_guarded
    (total_components total_app total_lib total_services : Z)
    (total_tests total_app_tests total_lib_tests total_services_tests : Z) :
  let total_files :=
    total_components + total_app + total_lib + total_services in
  let total_test_files :=
    total_tests + total_app_tests + total_lib_tests + total_services_tests in
  ∃ f,
    report_figures total_components total_app total_lib total_services
      total_tests total_app_tests total_lib_tests total_services_tests
    = Some f ∧
    guarded_percentage total_test_files total_files (coverage_pct f) ∧
    guarded_percentage total_tests total_components (components_pct f) ∧
    guarded_percentage total_app_tests total_app (app_pct f) ∧
    guarded_percentage total_services_tests total_services (services_pct f) ∧
    guarded_percentage total_lib_tests total_lib (lib_pct f) ∧
    report_figures 0 0 0 0 0 0 0 0 = Some (Figures 0 0 0 0 0).
Proof.
  cbv zeta. unfold report_figures.
  destruct (coverage_expr_guarded
              (total_tests + total_app_tests + total_lib_tests
               + total_services_tests)
              (total_components + total_app + total_lib + total_services))
    as (q0 & -> & H0).
  destruct (coverage_expr_guarded total_tests total_components)
    as (q1 & -> & H1).
  destruct (coverage_expr_guarded total_app_tests total_app)
    as (q2 & -> & H2).
  destruct (coverage_expr_guarded total_services_tests total_services)
    as (q3 & -> & H3).
  destruct (coverage_expr_guarded total_lib_tests total_lib)
    as (q4 & -> & H4).
  simpl. eexists. split; [done|]. simpl. done.
Qed.

(** ** The stable sort *)

Section StableSort.
Context {K A : Type} `{!EqDecision K} (lt : K → K → bool).
Hypothesis lt_irrefl : ∀ a, lt a a = false.
Hypothesis lt_asym : ∀ a b, lt a b = true → lt b a = false.
Hypothesis not_lt_trans :
  ∀ a b c, lt b a = false → lt c b = false → lt c a = false.

(** [x] may stand before [y]. *)
Definition key_le (x y : K * A) : Prop := lt y.1 x.1 = false.

Lemma insert_stable_perm (x : K * A) (l : list (K * A)) :
  insert_stable lt x l ≡ₚ x :: l.
Proof.
  induction l as [|y l IH]; simpl; [done|].
  destruct (lt y.1 x.1); [|done]. rewrite IH. apply Permutation_swap.
Qed.

Lemma sort_decorated_perm (l : list (K * A)) : sort_decorated lt l ≡ₚ l.
Proof.
  induction l as [|x l IH]; simpl; [done|].
  by rewrite insert_stable_perm, IH.
Qed.

Lemma insert_stable_sorted (x : K * A) (l : list (K * A)) :
  StronglySorted key_le l → StronglySorted key_le (insert_stable lt x l).
Proof.
  induction 1 as [|y l Hl IH Hy]; simpl.
  - repeat constructor.
  - destruct (lt y.1 x.1) eqn:E.
    + constructor; [done|]. rewrite insert_stable_perm.
      constructor; [|done]. by apply lt_asym.
    + constructor; [by constructor|].
      constructor; [done|].
      eapply Forall_impl; [exact Hy|]. intros z Hz.
      unfold key_le in *. eauto.
Qed.

Lemma sort_decorated_sorted (l : list (K * A)) :
  StronglySorted key_le (sort_decorated lt l).
Proof.
  induction l as [|x l IH]; simpl; [constructor|].
  by apply insert_stable_sorted.
Qed.

Lemma insert_stable_filter (k : K) (x : K * A) (l : list (K * A)) :
  filter (λ y, y.1 = k) (insert_stable lt x l)
  = filter (λ y, y.1 = k) (x :: l).
Proof.
  induction l as [|y l IH]; simpl; [done|].
  destruct (lt y.1 x.1) eqn:E; [|done].
  rewrite (filter_cons _ y), IH, !(filter_cons _ x), (filter_cons _ y).
  repeat case_decide; try done.
  rewrite <-H0 in H. rewrite H, lt_irrefl in E. done.
Qed.

Lemma sort_decorated_filter (k : K) (l : list (K * A)) :
  filter (λ y, y.1 = k) (sort_decorated lt l) = filter (λ y, y.1 = k) l.
Proof.
  induction l as [|x l IH]; simpl; [done|].
  by rewrite insert_stable_filter, !filter_cons, IH.
Qed.

(** *** From the decorated list back to the elements *)

Variable key : A → option K.

Definition keyed (y : K * A) : Prop := key y.2 = Some y.1.

Lemma decorate_Some (l : list A) (d : list (K * A)) :
  decorate key l = Some d → d.*2 = l ∧ Forall keyed d.
Proof.
  revert d. induction l as [|x l IH]; intros d; simpl.
  - intros [= <-]. by split.
  - destruct (key x) as [k|] eqn:Hk; simpl; [|done].
    destruct (decorate key l) as [d'|]; simpl; [|done].
    intros [= <-]. destruct (IH d' eq_refl) as [<- Hd].
    split; [done|]. by constructor.
Qed.

Lemma keyed_filter (k : K) (d : list (K * A)) :
  Forall keyed d →
  (filter (λ y, y.1 = k) d).*2 = filter (λ x, key x = Some k) (d.*2).
Proof.
  induction 1 as [|y d Hy Hd IH]; [done|].
  rewrite fmap_cons, !filter_cons, <-IH. unfold keyed in Hy.
  repeat case_decide; try done.
  - destruct H0. by rewrite Hy, H.
  - destruct H. rewrite Hy in H0. by injection H0.
Qed.

Lemma list_sort_spec (l sorted : list A) :
  list_sort lt key l = Some sorted →
  sorted ≡ₚ l ∧
  StronglySorted
    (λ x y, ∃ kx ky, key x = Some kx ∧ key y = Some ky ∧ lt ky kx = false)
    sorted ∧
  ∀ k, filter (λ x, key x = Some k) sorted
       = filter (λ x, key x = Some k) l.
Proof.
  unfold list_sort. destruct (decorate key l) as [d|] eqn:Hd; [|done].
  simpl. intros [= <-]. apply decorate_Some in Hd as [<- Hk].
  assert (Forall keyed (sort_decorated lt d)) as Hk'
    by by rewrite sort_decorated_perm.
  split; [|split].
  - by rewrite sort_decorated_perm.
  - pose proof (sort_decorated_sorted d) as Hs.
    induction Hs as [|y l' Hl IH Hy]; [constructor|].
    apply Forall_cons in Hk' as [Hky Hk']. simpl.
    constructor; [by apply IH|].
    apply Forall_fmap, Forall_forall. intros z Hz.
    exists y.1, z.1. split; [done|]. split.
    + by apply (proj1 (Forall_forall _ _) Hk').
    + by apply (proj1 (Forall_forall _ _) Hy).
  - intros k. by rewrite <-!keyed_filter, sort_decorated_filter.
Qed.
End StableSort.

(** Any two stable sorts agree: two lists sorted by key whose elements of
    each key come in the same order are equal.  So the result of
    [list.sort] does not depend on the algorithm behind it. *)
Section StableSortUnique.
Context {K A : Type} `{!EqDecision K} (key : A → K) (le : K → K → Prop).
Hypothesis le_antisym : ∀ a b, le a b → le b a → a = b.

Lemma filter_key_head (x : A) (l : list A) :
  filter (λ z, key z = key x) (x :: l)
  = x :: filter (λ z, key z = key x) l.
Proof. rewrite filter_cons. by case_decide. Qed.

Lemma filter_key_elem (x : A) (l l' : list A) :
  filter (λ z, key z = key x) (x :: l) = filter (λ z, key z = key x) l' →
  x ∈ l'.
Proof.
  rewrite filter_key_head. intros Hf.
  assert (x ∈ filter (λ z, key z = key x) l') as Hm
    by (rewrite <-Hf; by left).
  by apply list_elem_of_filter in Hm as [_ ?].
Qed.

Lemma stable_sort_unique (l1 l2 : list A) :
  StronglySorted (λ x y, le (key x) (key y)) l1 →
  StronglySorted (λ x y, le (key x) (key y)) l2 →
  (∀ k, filter (λ x, key x = k) l1 = filter (λ x, key x = k) l2) →
  l1 = l2.
Proof.
  intros H1. revert l2.
  induction H1 as [|x l1 Hs1 IH Hx]; intros l2 H2 Hf.
  - destruct l2 as [|y l2]; [done|].
    specialize (Hf (key y)). rewrite filter_key_head in Hf. discriminate Hf.
  - destruct H2 as [|y l2 Hs2 Hy].
    { specialize (Hf (key x)). rewrite filter_key_head in Hf. discriminate Hf. }
    assert (key x = key y) as Hk.
    { pose proof (filter_key_elem y l2 (x :: l1) (eq_sym (Hf (key y))))
        as Hy_in.
      pose proof (filter_key_elem x l1 (y :: l2) (Hf (key x))) as Hx_in.
      apply elem_of_cons in Hy_in as [-> | Hy_in]; [done|].
      apply elem_of_cons in Hx_in as [-> | Hx_in]; [done|].
      apply le_antisym.
      - by apply (proj1 (Forall_forall _ _) Hx).
      - by apply (proj1 (Forall_forall _ _) Hy). }
    pose proof (Hf (key x)) as Hfx.
    rewrite filter_key_head, Hk, filter_key_head in Hfx.
    injection Hfx as <- Hfx. f_equal. apply IH; [done|].
    intros k. specialize (Hf k). rewrite !filter_cons in Hf.
    case_decide; [by injection Hf | done].
Qed.
End StableSortUnique.

(** ** The ranking of the gap list *)

(** [a] comes before [b] in [order]. *)
Definition precedes (order : list string) (a b : string) : Prop :=
  ∃ i j : nat, order !! i = Some a ∧ order !! j = Some b ∧ (i < j)%nat.

(** The order of the report, in words: priority first (Critical, High,
    Medium, Low), then complexity (High, Medium, Low), then the larger line
    count first. *)
Definition ranked_before (e1 e2 : entry) : Prop :=
  precedes priorities (e_priority e1) (e_priority e2) ∨
  (e_priority e1 = e_priority e2 ∧
   (precedes complexities (e_complexity e1) (e_complexity e2) ∨
    (e_complexity e1 = e_complexity e2 ∧ e_lines e2 ≤ e_lines e1))).

Lemma tuple_lt_false (a1 a2 a3 b1 b2 b3 : Z) :
  tuple_lt (b1, b2, b3) (a1, a2, a3) = false ↔
  a1 < b1 ∨ (a1 = b1 ∧ (a2 < b2 ∨ (a2 = b2 ∧ a3 ≤ b3))).
Proof.
  unfold tuple_lt.
  destruct (Z.ltb_spec b1 a1), (Z.eqb_spec b1 a1), (Z.ltb_spec b2 a2),
    (Z.eqb_spec b2 a2), (Z.ltb_spec b3 a3); simpl; split; try done; lia.
Qed.

Lemma tuple_lt_true (a1 a2 a3 b1 b2 b3 : Z) :
  tuple_lt (a1, a2, a3) (b1, b2, b3) = true ↔
  a1 < b1 ∨ (a1 = b1 ∧ (a2 < b2 ∨ (a2 = b2 ∧ a3 < b3))).
Proof.
  unfold tuple_lt.
  destruct (Z.ltb_spec a1 b1), (Z.eqb_spec a1 b1), (Z.ltb_spec a2 b2),
    (Z.eqb_spec a2 b2), (Z.ltb_spec a3 b3); simpl; split; try done; lia.
Qed.

Lemma tuple_lt_irrefl (a : Z * Z * Z) : tuple_lt a a = false.
Proof. destruct a as [[a1 a2] a3]. apply tuple_lt_false. lia. Qed.

Lemma tuple_lt_asym (a b : Z * Z * Z) :
  tuple_lt a b = true → tuple_lt b a = false.
Proof.
  destruct a as [[a1 a2] a3], b as [[b1 b2] b3].
  rewrite tuple_lt_true, tuple_lt_false. lia.
Qed.

Lemma tuple_not_lt_trans (a b c : Z * Z * Z) :
  tuple_lt b a = false → tuple_lt c b = false → tuple_lt c a = false.
Proof.
  destruct a as [[a1 a2] a3], b as [[b1 b2] b3], c as [[c1 c2] c3].
  rewrite !tuple_lt_false. lia.
Qed.

Lemma priority_rank (p : string) :
  p ∈ priorities →
  ∃ i : nat, priorities !! i = Some p ∧
             priority_order !! p = Some (Z.of_nat i).
Proof.
  unfold priorities. intros Hp.
  repeat (apply elem_of_cons in Hp as [-> | Hp]);
    [by exists 0%nat | by exists 1%nat | by exists 2%nat | by exists 3%nat |].
  by apply elem_of_nil in Hp.
Qed.

Lemma complexity_rank (c : string) :
  c ∈ complexities →
  ∃ j : nat, complexities !! j = Some c ∧
             complexity_order !! c = Some (Z.of_nat j).
Proof.
  unfold complexities. intros Hc.
  repeat (apply elem_of_cons in Hc as [-> | Hc]);
    [by exists 0%nat | by exists 1%nat | by exists 2%nat |].
  by apply elem_of_nil in Hc.
Qed.

Lemma priorities_NoDup : NoDup priorities.
Proof. apply (bool_decide_unpack _). vm_compute. reflexivity. Qed.

Lemma complexities_NoDup : NoDup complexities.
Proof. apply (bool_decide_unpack _). vm_compute. reflexivity. Qed.

(** The sort key of a labelled entry, by the positions of its labels. *)
Lemma sort_key_labelled_rank (e : entry) :
  labelled e →
  ∃ i j : nat,
    priorities !! i = Some (e_priority e) ∧
    complexities !! j = Some (e_complexity e) ∧
    sort_key e = Some (Z.of_nat i, Z.of_nat j, - e_lines e).
Proof.
  intros [(i & Hi & Hp)%priority_rank (j & Hj & Hc)%complexity_rank].
  exists i, j. unfold sort_key. by rewrite Hp, Hc.
Qed.

Lemma ranked_before_key (e1 e2 : entry) (k1 k2 : Z * Z * Z) :
  labelled e1 → labelled e2 →
  sort_key e1 = Some k1 → sort_key e2 = Some k2 →
  tuple_lt k2 k1 = false → ranked_before e1 e2.
Proof.
  intros (i1 & j1 & Hi1 & Hj1 & Hk1)%sort_key_labelled_rank
         (i2 & j2 & Hi2 & Hj2 & Hk2)%sort_key_labelled_rank.
  rewrite Hk1, Hk2. intros [= <-] [= <-]. rewrite tuple_lt_false.
  unfold ranked_before, precedes.
  intros [Hlt | [Hi [Hlt | [Hj Hl]]]].
  - left. exists i1, i2. repeat split; [done..|lia].
  - right. assert (i1 = i2) as -> by lia. split; [congruence|].
    left. exists j1, j2. repeat split; [done..|lia].
  - right. assert (i1 = i2) as -> by lia. assert (j1 = j2) as -> by lia.
    split; [congruence|]. right. split; [congruence|lia].
Qed.

Lemma sort_key_eq_iff (e1 e2 : entry) :
  labelled e1 → labelled e2 →
  sort_key e1 = sort_key e2 ↔
  e_priority e1 = e_priority e2 ∧ e_complexity e1 = e_complexity e2 ∧
  e_lines e1 = e_lines e2.
Proof.
  intros (i1 & j1 & Hi1 & Hj1 & Hk1)%sort_key_labelled_rank
         (i2 & j2 & Hi2 & Hj2 & Hk2)%sort_key_labelled_rank.
  split.
  - rewrite Hk1, Hk2. intros [= Hi Hj Hl].
    apply Nat2Z.inj in Hi as ->. apply Nat2Z.inj in Hj as ->.
    repeat split; [congruence..|lia].
  - intros (Hp & Hc & Hl). unfold sort_key. by rewrite Hp, Hc, Hl.
Qed.

Lemma ranked_before_total (e1 e2 : entry) :
  labelled e1 → labelled e2 → ranked_before e1 e2 ∨ ranked_before e2 e1.
Proof.
  intros H1 H2.
  pose proof H1 as (i1 & j1 & Hi1 & Hj1 & Hk1)%sort_key_labelled_rank.
  pose proof H2 as (i2 & j2 & Hi2 & Hj2 & Hk2)%sort_key_labelled_rank.
  destruct (tuple_lt (Z.of_nat i2, Z.of_nat j2, - e_lines e2)
                     (Z.of_nat i1, Z.of_nat j1, - e_lines e1)) eqn:E.
  - right. apply tuple_lt_asym in E. eauto using ranked_before_key.
  - left. eauto using ranked_before_key.
Qed.

Lemma StronglySorted_impl_Forall {A} (R R' : A → A → Prop) (P : A → Prop)
    (l : list A) :
  (∀ x y, P x → P y → R x y → R' x y) →
  Forall P l → StronglySorted R l → StronglySorted R' l.
Proof.
  intros HR HP Hs. induction Hs as [|x l Hs IH Hx]; [constructor|].
  apply Forall_cons in HP as [Hpx HP]. constructor; [by apply IH|].
  apply Forall_forall. intros y Hy.
  apply HR; [done| |].
  - by apply (proj1 (Forall_forall _ _) HP).
  - by apply (proj1 (Forall_forall _ _) Hx).
Qed.

#[local] Instance labelled_dec (e : entry) : Decision (labelled e).
Proof. unfold labelled. apply _. Defined.

(** C3: the report sorts the gap list stably by priority rank, then
    complexity rank, then line count descending: the result is a
    rearrangement of the input, ordered by that total order, in which the
    entries with equal keys (equal priority, complexity and line count) keep
    their input order; the list of the example is returned as it is. *)
Theorem sort_untested_stable_ranking (untested : list entry) :
  Forall labelled untested →
  ∃ sorted,
    sort_untested untested = Some sorted ∧
    sorted ≡ₚ untested ∧
    StronglySorted ranked_before sorted ∧
    (∀ k, filter (λ e, sort_key e = Some k) sorted
          = filter (λ e, sort_key e = Some k) untested) ∧
    (∀ e1 e2, labelled e1 → labelled e2 →
       (sort_key e1 = sort_key e2 ↔
        e_priority e1 = e_priority e2 ∧
        e_complexity e1 = e_complexity e2 ∧ e_lines e1 = e_lines e2) ∧
       (ranked_before e1 e2 ∨ ranked_before e2 e1)) ∧
    (∀ p1 c1 p2 c2 p3 c3,
       sort_untested [ Entry p1 "Critical" "Low" 500 c1;
                       Entry p2 "Critical" "Low" 100 c2;
                       Entry p3 "High" "High" 50 c3 ]
       = Some [ Entry p1 "Critical" "Low" 500 c1;
                Entry p2 "Critical" "Low" 100 c2;
                Entry p3 "High" "High" 50 c3 ]).
Proof.
  intros Hl. destruct (sort_untested_is_Some untested Hl) as [sorted Hs].
  exists sorted. split; [done|].
  destruct (list_sort_spec tuple_lt tuple_lt_irrefl tuple_lt_asym
              tuple_not_lt_trans sort_key untested sorted Hs)
    as (Hperm & Hsorted & Hstable).
  split; [done|]. split; [|split; [done|split]].
  - eapply (StronglySorted_impl_Forall _ _ labelled); [|by rewrite Hperm|done].
    intros x y Hx Hy (kx & ky & Hkx & Hky & Hlt).
    eauto using ranked_before_key.
  - intros e1 e2 H1 H2. split.
    + by apply sort_key_eq_iff.
    + by apply ranked_before_total.
  - intros. vm_compute. reflexivity.
Qed.

Lemma sort_untested_stable_ranking_witness :
  ∃ sorted,
    sort_untested [ Entry "d" "Low" "High" 400 "x";
                    Entry "b" "Critical" "Low" 100 "x";
                    Entry "c" "High" "High" 50 "x";
                    Entry "a" "Critical" "Low" 500 "y";
                    Entry "b2" "Critical" "Low" 100 "y" ] = Some sorted ∧
    sorted = [ Entry "a" "Critical" "Low" 500 "y";
               Entry "b" "Critical" "Low" 100 "x";
               Entry "b2" "Critical" "Low" 100 "y";
               Entry "c" "High" "High" 50 "x";
               Entry "d" "Low" "High" 400 "x" ] ∧
    StronglySorted ranked_before sorted.
Proof.
  destruct (sort_untested_stable_ranking
              [ Entry "d" "Low" "High" 400 "x";
                Entry "b" "Critical" "Low" 100 "x";
                Entry "c" "High" "High" 50 "x";
                Entry "a" "Critical" "Low" 500 "y";
                Entry "b2" "Critical" "Low" 100 "y" ])
    as (sorted & Hs & _ & Hsorted & _).
  - apply (bool_decide_unpack _). vm_compute. reflexivity.
  - exists sorted. split; [exact Hs|]. split; [|exact Hsorted].
    vm_compute in Hs. injection Hs as <-. reflexivity.
Defined.

(** The order of the keys, on the values [sort_key] returns. *)
Definition key_not_after (a b : option (Z * Z * Z)) : Prop :=
  match a, b with
  | Some ka, Some kb => tuple_lt kb ka = false
  | _, _ => False
  end.

Lemma key_not_after_antisym (a b : option (Z * Z * Z)) :
  key_not_after a b → key_not_after b a → a = b.
Proof.
  destruct a as [[[a1 a2] a3]|], b as [[[b1 b2] b3]|];
    unfold key_not_after; try done.
  rewrite !tuple_lt_false. intros. f_equal. f_equal; [f_equal|]; lia.
Qed.

Lemma filter_no_key `{!∀ e, Decision (sort_key e = None)} (l : list entry) :
  Forall (λ e, is_Some (sort_key e)) l →
  filter (λ e, sort_key e = None) l = [].
Proof.
  induction 1 as [|e l [k Hk] _ IH]; [done|].
  rewrite filter_cons, IH. case_decide; [congruence|done].
Qed.

(** Whatever stable sorting algorithm is run on the keys, the list it
    returns is the one of [sort_untested]. *)
Lemma sort_untested_unique (untested sorted l : list entry) :
  sort_untested untested = Some sorted →
  StronglySorted (λ x y, key_not_after (sort_key x) (sort_key y)) l →
  (∀ k, filter (λ e, sort_key e = k) l
        = filter (λ e, sort_key e = k) untested) →
  l = sorted.
Proof.
  intros Hs Hl Hf.
  destruct (list_sort_spec tuple_lt tuple_lt_irrefl tuple_lt_asym
              tuple_not_lt_trans sort_key untested sorted Hs)
    as (Hperm & Hsorted & Hstable).
  assert (Forall (λ e, is_Some (sort_key e)) untested) as Hkeys.
  { unfold sort_untested, list_sort in Hs.
    destruct (decorate sort_key untested) as [d|] eqn:Hd; [|done].
    apply decorate_Some in Hd as [<- Hd].
    apply Forall_fmap. eapply Forall_impl; [exact Hd|].
    intros [k e] Hk. unfold keyed in Hk. simpl in *. eauto. }
  apply (stable_sort_unique sort_key key_not_after key_not_after_antisym);
    [done| |].
  - eapply (StronglySorted_impl_Forall _ _ (λ _, True));
      [|by apply Forall_true|exact Hsorted].
    intros x y _ _ (kx & ky & Hx & Hy & Hlt). by rewrite Hx, Hy.
  - intros [k|].
    + by rewrite Hf, Hstable.
    + rewrite Hf, !filter_no_key; [done| |done]. by rewrite Hperm.
Qed.

(** ** The skeleton as a list of lines *)

Import Template.

Fixpoint newline_free (s : string) : bool :=
  match s with
  | EmptyString => true
  | String c s' => negb (Ascii.eqb c LF) && newline_free s'
  end.

(** The lines of a text, without their line ends. *)
Fixpoint lines_from (cur s : string) : list string :=
  match s with
  | EmptyString => if String.eqb cur "" then [] else [cur]
  | String c s' =>
      if Ascii.eqb c LF then cur :: lines_from "" s'
      else lines_from (cur +:+ String c "") s'
  end.

Definition text_lines (s : string) : list string := lines_from "" s.

Lemma newline_free_app (a b : string) :
  newline_free (a +:+ b) = newline_free a && newline_free b.
Proof.
  induction a as [|c a IH]; simpl; [done|]. by rewrite IH, andb_assoc.
Qed.

Lemma lines_from_line (cur l rest : string) :
  newline_free l = true →
  lines_from cur (l +:+ String LF rest) = (cur +:+ l) :: lines_from "" rest.
Proof.
  revert cur. induction l as [|c l IH]; intros cur; simpl.
  - intros _. by rewrite append_nil_r.
  - intros [Hc Hl]%andb_true_iff. apply negb_true_iff in Hc.
    rewrite Hc, IH by done. by rewrite append_assoc.
Qed.

Lemma text_lines_text (ls : list string) :
  forallb newline_free ls = true → text_lines (text ls) = ls.
Proof.
  unfold text_lines. induction ls as [|l ls IH]; simpl; [done|].
  intros [Hl Hls]%andb_true_iff.
  rewrite lines_from_line by done. simpl. by rewrite IH.
Qed.

Lemma text_app (a b : list string) : text (a ++ b) = text a +:+ text b.
Proof.
  induction a as [|l a IH]; simpl; [done|].
  by rewrite IH, append_assoc.
Qed.

(** The lines appended by [generate_test_template], in order. *)
Definition skeleton_lines (info : info) : list string :=
  let n := component_name info in
  (header_lines n ("../" +:+ n)
   ++ match state_hooks info with
      | _ :: _ =>
          state_open_lines
          ++ flat_map (state_case_lines n) (take 3 (state_hooks info))
          ++ state_close_lines
      | [] => []
      end
   ++ (if has_form info then form_lines n else [])
   ++ (if api_calls info then api_lines n else [])
   ++ (if has_mutations info then mutation_lines n else [])
   ++ interaction_lines n
   ++ accessibility_lines n
   ++ error_lines n
   ++ edge_lines n)%list.

Lemma fold_left_state_cases (n : string) (l : list string) (tc : string) :
  fold_left (λ test_content state_var,
               test_content +:+ text (state_case_lines n state_var)) l tc
  = tc +:+ text (flat_map (state_case_lines n) l).
Proof.
  revert tc. induction l as [|v l IH]; intros tc; cbn [fold_left flat_map].
  - cbn [text]. by rewrite append_nil_r.
  - by rewrite IH, text_app, append_assoc.
Qed.

Lemma generate_test_template_lines (component_path : path) (info : info) :
  generate_test_template component_path info = text (skeleton_lines info).
Proof.
  unfold generate_test_template, skeleton_lines. cbv zeta.
  destruct (state_hooks info) as [|v vs] eqn:Hh; cbv match;
    rewrite ?fold_left_state_cases, !text_app;
    destruct (has_form info), (api_calls info), (has_mutations info);
    cbn [text]; rewrite ?append_nil_r, ?append_assoc; reflexivity.
Qed.

(** *** No line of the skeleton contains a line end *)

Ltac split_andb :=
  repeat match goal with
         | |- _ && _ = true => apply andb_true_intro; split
         end.

Ltac newline_free_block :=
  cbn [forallb]; rewrite ?newline_free_app;
  repeat match goal with
         | H : newline_free _ = true |- _ => rewrite !H
         end;
  vm_compute; reflexivity.

Lemma skeleton_lines_newline_free (info : info) :
  newline_free (component_name info) = true →
  forallb newline_free (state_hooks info) = true →
  forallb newline_free (skeleton_lines info) = true.
Proof.
  intros Hn Hh. unfold skeleton_lines. cbv zeta.
  set (n := component_name info) in *.
  assert (∀ l, forallb newline_free l = true →
               forallb newline_free (flat_map (state_case_lines n) l) = true)
    as Hcases.
  { induction l as [|v l IH]; [done|]. cbn [flat_map forallb].
    intros [Hv Hl]%andb_true_iff. rewrite forallb_app, IH, andb_true_r by done.
    unfold state_case_lines. newline_free_block. }
  rewrite !forallb_app. split_andb.
  - unfold header_lines. newline_free_block.
  - destruct (state_hooks info) as [|v vs] eqn:E; [done|]. cbv match.
    rewrite !forallb_app. split_andb; [done| |done].
    apply Hcases. rewrite <-(take_drop 3 (v :: vs)), forallb_app in Hh.
    by apply andb_true_iff in Hh as [? _].
  - destruct (has_form info); [|done]. unfold form_lines. newline_free_block.
  - destruct (api_calls info); [|done]. unfold api_lines. newline_free_block.
  - destruct (has_mutations info); [|done].
    unfold mutation_lines. newline_free_block.
  - unfold interaction_lines. newline_free_block.
  - unfold accessibility_lines. newline_free_block.
  - unfold error_lines. newline_free_block.
  - unfold edge_lines. newline_free_block.
Qed.

(** *** Which section headers occur *)

(** The first line of the section named [title]. *)
Definition section_header (title : string) : string :=
  "  describe('" +:+ title +:+ "', () => {".

Definition titles : list string :=
  [ "Rendering"; "State Management"; "Form Handling"; "API Integration";
    "Data Mutations"; "User Interactions"; "Accessibility"; "Error Handling";
    "Edge Cases" ].

(** Whether [generate_test_template] appends the section, by its flags. *)
Definition section_present (info : info) (title : string) : bool :=
  if String.eqb title "State Management" then
    match state_hooks info with [] => false | _ :: _ => true end
  else if String.eqb title "Form Handling" then has_form info
  else if String.eqb title "API Integration" then api_calls info
  else if String.eqb title "Data Mutations" then has_mutations info
  else true.

Lemma existsb_eqb_elem (h : string) (l : list string) :
  existsb (String.eqb h) l = true ↔ h ∈ l.
Proof.
  unfold is_true. rewrite existsb_exists. split.
  - intros (x & Hx & ->%String.eqb_eq). by apply list_elem_of_In.
  - intros Hh. exists h. split; [by apply list_elem_of_In|].
    apply String.eqb_refl.
Qed.

Ltac each_title Ht :=
  unfold titles in Ht;
  repeat (apply elem_of_cons in Ht as [-> | Ht]);
  [..|by apply elem_of_nil in Ht].

Lemma header_not_in_state_cases (title n : string) (l : list string) :
  title ∈ titles →
  existsb (String.eqb (section_header title))
          (flat_map (state_case_lines n) l) = false.
Proof.
  intros Ht. induction l as [|v l IH]; [done|].
  cbn [flat_map]. rewrite existsb_app, IH, orb_false_r.
  each_title Ht; vm_compute; reflexivity.
Qed.

Lemma header_in_skeleton_lines (info : info) (title : string) :
  title ∈ titles →
  existsb (String.eqb (section_header title)) (skeleton_lines info)
  = section_present info title.
Proof.
  intros Ht. unfold skeleton_lines, section_present. cbv zeta.
  set (n := component_name info).
  destruct (state_hooks info) as [|v vs]; cbv match;
    rewrite ?existsb_app, ?header_not_in_state_cases by done;
    destruct (has_form info), (api_calls info), (has_mutations info);
    each_title Ht; vm_compute; reflexivity.
Qed.

(** *** The sub-cases of the state section *)

Definition state_case_title (state_var : string) : string :=
  "    it('should manage " +:+ state_var +:+ " state', async () => {".

Fixpoint starts_with (p s : string) {struct p} : bool :=
  match p, s with
  | EmptyString, _ => true
  | String a p', String b s' => Ascii.eqb a b && starts_with p' s'
  | String _ _, EmptyString => false
  end.

Definition is_state_case (line : string) : Prop :=
  starts_with "    it('should manage " line = true.

#[local] Instance is_state_case_dec (line : string) :
  Decision (is_state_case line).
Proof. unfold is_state_case. apply _. Defined.

Lemma state_cases_of_flat_map (n : string) (l : list string) :
  filter is_state_case (flat_map (state_case_lines n) l)
  = state_case_title <$> l.
Proof.
  induction l as [|v l IH]; [done|].
  cbn [flat_map]. rewrite filter_app, IH. vm_compute. reflexivity.
Qed.

Ltac no_state_case_in_blocks :=
  repeat match goal with
         | |- context [filter is_state_case ?B] =>
             let E := fresh in
             assert (filter is_state_case B = []) as E
               by (vm_compute; reflexivity);
             rewrite E; clear E
         end.

Lemma state_cases_in_skeleton_lines (info : info) :
  filter is_state_case (skeleton_lines info)
  = state_case_title <$> take 3 (state_hooks info).
Proof.
  unfold skeleton_lines. cbv zeta. set (n := component_name info).
  destruct (state_hooks info) as [|v vs]; cbv match;
    rewrite ?filter_app, ?state_cases_of_flat_map;
    destruct (has_form info), (api_calls info), (has_mutations info);
    no_state_case_in_blocks; cbn [app]; rewrite ?app_nil_r; reflexivity.
Qed.

(** *** What the regular expressions capture *)

Fixpoint all_chars (cls : ascii → bool) (s : string) : bool :=
  match s with
  | EmptyString => true
  | String c s' => cls c && all_chars cls s'
  end.

Lemma take_while_all (cls : ascii → bool) (s a r : string) :
  take_while cls s = (a, r) → all_chars cls a = true.
Proof.
  revert a r. induction s as [|c s IH]; intros a r; simpl.
  - by intros [= <- _].
  - destruct (cls c) eqn:Hc; [|by intros [= <- _]].
    destruct (take_while cls s) as [a' r'] eqn:E. intros [= <- _].
    simpl. rewrite Hc. eauto.
Qed.

Lemma plus_all (cls : ascii → bool) (s a r : string) :
  plus cls s = Some (a, r) → all_chars cls a = true.
Proof.
  unfold plus. destruct (take_while cls s) as [a' r'] eqn:E.
  destruct (String.eqb a' ""); [done|]. intros [= <- _].
  eauto using take_while_all.
Qed.

Lemma re_state_hook_word (s g r : string) :
  re_state_hook s = Some (g, r) → all_chars is_word g = true.
Proof.
  unfold re_state_hook. intros H.
  destruct (lit "const" s) as [s1|]; [|done]. simpl in H.
  destruct (plus is_space s1) as [[? s2]|]; [|done]. simpl in H.
  destruct (lit "[" s2) as [s3|]; [|done]. simpl in H.
  destruct (plus is_word s3) as [[g' s4]|] eqn:Hg; [|done]. simpl in H.
  apply plus_all in Hg.
  repeat match type of H with
         | context [?o ≫= _] => destruct o as [?|]; simpl in H; [|done]
         | context [let '(_, _) := ?p in _] => destruct p; simpl in H
         end.
  by injection H as <- _.
Qed.

Lemma findall_state_hooks_word (skip : nat) (s : string) :
  Forall (λ g, all_chars is_word g = true) (findall re_state_hook skip s).
Proof.
  revert skip. induction s as [|c s IH]; intros skip; simpl; [constructor|].
  destruct skip as [|k]; [|apply IH].
  destruct (re_state_hook (String c s)) as [[g r]|] eqn:E; [|apply IH].
  constructor; [|apply IH]. eauto using re_state_hook_word.
Qed.

Lemma word_newline_free (g : string) :
  all_chars is_word g = true → newline_free g = true.
Proof.
  induction g as [|c g IH]; simpl; [done|].
  intros [Hc Hg]%andb_true_iff. rewrite IH, andb_true_r by done.
  apply negb_true_iff. destruct (Ascii.eqb_spec c LF) as [->|]; [|done].
  vm_compute in Hc. done.
Qed.

Lemma inspect_state_hooks_newline_free (file_path : path) (content : string) :
  forallb newline_free (state_hooks (inspect file_path content)) = true.
Proof.
  simpl. apply forallb_forall. intros g Hg%list_elem_of_In.
  apply word_newline_free.
  apply (subseteq_take 5) in Hg.
  by apply (proj1 (Forall_forall _ _) (findall_state_hooks_word 0 content)).
Qed.

Lemma top_20_stems_newline_free (component_path_str : string) :
  component_path_str ∈ TOP_20_COMPONENTS →
  newline_free (stem (div BASEDIR component_path_str)) = true.
Proof.
  intros Hp%list_elem_of_In. revert component_path_str Hp.
  apply forallb_forall. vm_compute. reflexivity.
Qed.

(** *** The sections of a generated skeleton *)

(** The skeleton has the section named [title]: its first line is one of
    the lines of the text. *)
Definition has_section (skeleton title : string) : Prop :=
  section_header title ∈ text_lines skeleton.

Lemma generate_test_template_text_lines (component_path : path) (info : info) :
  newline_free (component_name info) = true →
  forallb newline_free (state_hooks info) = true →
  text_lines (generate_test_template component_path info)
  = skeleton_lines info.
Proof.
  intros Hn Hh. rewrite generate_test_template_lines.
  by apply text_lines_text, skeleton_lines_newline_free.
Qed.

Lemma has_section_present (component_path : path) (info : info)
    (title : string) :
  newline_free (component_name info) = true →
  forallb newline_free (state_hooks info) = true →
  title ∈ titles →
  has_section (generate_test_template component_path info) title
  ↔ section_present info title = true.
Proof.
  intros Hn Hh Ht. unfold has_section.
  rewrite generate_test_template_text_lines by done.
  by rewrite <-existsb_eqb_elem, header_in_skeleton_lines.
Qed.

Lemma take_nil_iff {A} (n : nat) (l : list A) :
  take (S n) l = [] ↔ l = [].
Proof. by destruct l. Qed.

Ltac in_titles := apply (bool_decide_unpack _); vm_compute; reflexivity.

(** *** What a state declaration is, in words *)

(** [s] starts with a state declaration of [v]: [const], white space,
    [[], the name [v], a comma, [set] and the rest of a setter name after
    optional white space, []], and then [=] and [useState], each after
    optional white space.  A name is made of letters, digits and [_]. *)
Definition state_declaration (v s : string) : Prop :=
  ∃ ws1 ws2 V ws3 ws4 rest,
    s = "const" +:+ ws1 +:+ "[" +:+ v +:+ "," +:+ ws2 +:+ "set" +:+ V +:+ "]"
        +:+ ws3 +:+ "=" +:+ ws4 +:+ "useState" +:+ rest ∧
    ws1 ≠ "" ∧ all_chars is_space ws1 = true ∧
    v ≠ "" ∧ all_chars is_word v = true ∧
    all_chars is_space ws2 = true ∧
    V ≠ "" ∧ all_chars is_word V = true ∧
    all_chars is_space ws3 = true ∧ all_chars is_space ws4 = true.

(** [content] holds a state declaration of [v] somewhere. *)
Definition declares_state (content v : string) : Prop :=
  ∃ pre s, content = pre +:+ s ∧ state_declaration v s.

(** [rest] does not go on with a character of the class. *)
Definition stops (cls : ascii → bool) (rest : string) : Prop :=
  match rest with
  | EmptyString => True
  | String c _ => cls c = false
  end.

Lemma take_while_app (cls : ascii → bool) (a rest : string) :
  all_chars cls a = true → stops cls rest →
  take_while cls (a +:+ rest) = (a, rest).
Proof.
  intros Ha Hrest. induction a as [|c a IH]; simpl in *.
  - destruct rest as [|c r]; [done|]. simpl in *. by rewrite Hrest.
  - apply andb_true_iff in Ha as [Hc Ha]. by rewrite Hc, IH.
Qed.

Lemma plus_app (cls : ascii → bool) (a rest : string) :
  a ≠ "" → all_chars cls a = true → stops cls rest →
  plus cls (a +:+ rest) = Some (a, rest).
Proof.
  intros Hne Ha Hrest. unfold plus. rewrite take_while_app by done.
  destruct a; [done|]. reflexivity.
Qed.

Lemma star_app (cls : ascii → bool) (a rest : string) :
  all_chars cls a = true → stops cls rest → star cls (a +:+ rest) = rest.
Proof. intros Ha Hrest. unfold star. by rewrite take_while_app. Qed.

Lemma lit_app (p s : string) : lit p (p +:+ s) = Some s.
Proof.
  unfold lit. rewrite (proj2 (prefix_true p (p +:+ s))) by eauto.
  by rewrite <-(Nat.add_0_r (String.length p)), drop_str_append.
Qed.

Lemma take_while_split (cls : ascii → bool) (s a r : string) :
  take_while cls s = (a, r) → s = a +:+ r.
Proof.
  revert a r. induction s as [|c s IH]; intros a r; simpl.
  - by intros [= <- <-].
  - destruct (cls c); [|by intros [= <- <-]].
    destruct (take_while cls s) as [a' r'] eqn:E. intros [= <- <-].
    simpl. f_equal. by apply IH.
Qed.

Lemma lit_Some (p s r : string) : lit p s = Some r → s = p +:+ r.
Proof.
  unfold lit. destruct (String.prefix p s) eqn:E; [|done].
  apply prefix_true in E as [post ->]. intros [= <-].
  by rewrite <-(Nat.add_0_r (String.length p)), drop_str_append.
Qed.

Lemma plus_Some (cls : ascii → bool) (s a r : string) :
  plus cls s = Some (a, r) →
  s = a +:+ r ∧ a ≠ "" ∧ all_chars cls a = true.
Proof.
  intros Hp. pose proof (plus_all _ _ _ _ Hp) as Ha. unfold plus in Hp.
  destruct (take_while cls s) as [a' r'] eqn:E.
  destruct (String.eqb_spec a' "") as [|Hne]; [done|].
  injection Hp as <- <-. eauto using take_while_split.
Qed.

Lemma star_split (cls : ascii → bool) (s : string) :
  ∃ a, s = a +:+ star cls s ∧ all_chars cls a = true.
Proof.
  unfold star. destruct (take_while cls s) as [a r] eqn:E.
  exists a. eauto using take_while_split, take_while_all.
Qed.

(** The regular expression matches at the start of [s] exactly when [s]
    starts with a state declaration, and its group is the name. *)
Lemma re_state_hook_Some (s g r : string) :
  re_state_hook s = Some (g, r) → state_declaration g s.
Proof.
  unfold re_state_hook. intros H.
  destruct (lit "const" s) as [s1|] eqn:E1; [|done]. cbn in H.
  destruct (plus is_space s1) as [[ws1 s2]|] eqn:E2; [|done]. cbn in H.
  destruct (lit "[" s2) as [s3|] eqn:E3; [|done]. cbn in H.
  destruct (plus is_word s3) as [[v s4]|] eqn:E4; [|done]. cbn in H.
  destruct (lit "," s4) as [s5|] eqn:E5; [|done]. cbn in H.
  destruct (lit "set" (star is_space s5)) as [s6|] eqn:E6; [|done]. cbn in H.
  destruct (plus is_word s6) as [[V s7]|] eqn:E7; [|done]. cbn in H.
  destruct (lit "]" s7) as [s8|] eqn:E8; [|done]. cbn in H.
  destruct (lit "=" (star is_space s8)) as [s9|] eqn:E9; [|done]. cbn in H.
  destruct (lit "useState" (star is_space s9)) as [s10|] eqn:E10; [|done].
  cbn in H. injection H as <- <-.
  apply lit_Some in E1, E3, E5, E6, E8, E9, E10.
  apply plus_Some in E2 as (E2 & Hn1 & Hw1).
  apply plus_Some in E4 as (E4 & Hnv & Hwv).
  apply plus_Some in E7 as (E7 & HnV & HwV).
  destruct (star_split is_space s5) as (ws2 & S5 & Hw2).
  destruct (star_split is_space s8) as (ws3 & S8 & Hw3).
  destruct (star_split is_space s9) as (ws4 & S9 & Hw4).
  exists ws1, ws2, V, ws3, ws4, s10. split; [|done].
  rewrite E1, E2, E3, E4, E5, S5, E6, E7, E8, S8, E9, S9, E10.
  reflexivity.
Qed.

Lemma re_state_hook_declared (v s : string) :
  state_declaration v s → ∃ r, re_state_hook s = Some (v, r).
Proof.
  intros (ws1 & ws2 & V & ws3 & ws4 & rest & -> &
          Hn1 & Hw1 & Hnv & Hwv & Hw2 & HnV & HwV & Hw3 & Hw4).
  exists rest. unfold re_state_hook.
  rewrite lit_app. cbn [mbind option_bind].
  rewrite (plus_app is_space ws1) by done. cbn [mbind option_bind].
  rewrite lit_app. cbn [mbind option_bind].
  rewrite (plus_app is_word v) by done. cbn [mbind option_bind].
  rewrite lit_app. cbn [mbind option_bind].
  rewrite (star_app is_space ws2) by done.
  rewrite lit_app. cbn [mbind option_bind].
  rewrite (plus_app is_word V) by done. cbn [mbind option_bind].
  rewrite lit_app. cbn [mbind option_bind].
  rewrite (star_app is_space ws3) by done.
  rewrite lit_app. cbn [mbind option_bind].
  rewrite (star_app is_space ws4) by done.
  rewrite lit_app. reflexivity.
Qed.

(** [re.findall] returns the group of a match at some place of the text,
    and returns something as soon as there is a match at some place. *)
Lemma findall_elem (re : string → option (string * string)) (skip : nat)
    (s g : string) :
  g ∈ findall re skip s →
  ∃ pre s' r, s = pre +:+ s' ∧ re s' = Some (g, r).
Proof.
  revert skip. induction s as [|c s IH]; intros skip; cbn [findall].
  - by intros ?%elem_of_nil.
  - assert (g ∈ findall re 0 s ∨ (∃ k, g ∈ findall re k s) →
            ∃ pre s' r, String c s = pre +:+ s' ∧ re s' = Some (g, r)) as Hrec.
    { intros [Hg | [k Hg]]; apply IH in Hg as (pre & s' & r & -> & Hre);
        by exists (String c pre), s', r. }
    destruct skip as [|k]; [|eauto].
    destruct (re (String c s)) as [[g' r]|] eqn:E; [|eauto].
    intros [-> | Hg]%elem_of_cons; [by exists "", (String c s), r|eauto].
Qed.

Lemma findall_found (re : string → option (string * string))
    (pre s g r : string) :
  s ≠ "" → re s = Some (g, r) → findall re 0 (pre +:+ s) ≠ [].
Proof.
  intros Hne Hre. induction pre as [|c pre IH].
  - destruct s as [|c s]; [done|]. cbn [String.append findall].
    by rewrite Hre.
  - cbn [String.append findall].
    by destruct (re (String c (pre +:+ s))) as [[? ?]|].
Qed.

Lemma declares_state_findall (content : string) :
  (∃ v, declares_state content v) ↔ findall re_state_hook 0 content ≠ [].
Proof.
  split.
  - intros (v & pre & s & -> & Hd).
    destruct (re_state_hook_declared v s Hd) as [r Hre].
    apply (findall_found _ _ _ v r); [|done]. by intros ->.
  - destruct (findall re_state_hook 0 content) as [|g l] eqn:E; [done|].
    intros _. exists g.
    destruct (findall_elem re_state_hook 0 content g) as (pre & s & r & -> & Hre).
    + rewrite E. by left.
    + exists pre, s. eauto using re_state_hook_Some.
Qed.

Lemma findall_declared (content : string) :
  Forall (declares_state content) (findall re_state_hook 0 content).
Proof.
  apply Forall_forall. intros g Hg.
  destruct (findall_elem _ _ _ _ Hg) as (pre & s & r & -> & Hre).
  exists pre, s. eauto using re_state_hook_Some.
Qed.
(** C6: for a target of the fixed list, whatever its content, the skeleton
    always has the rendering, user-interaction, accessibility,
    error-handling and edge-case sections; it has the state-management
    section exactly when the content holds a [useState] declaration, with
    one sub-case for each of the first three variables found, each of them
    declared in the content; the form section exactly when [onSubmit] or
    [<form] occurs; the API section exactly when a network-call pattern
    occurs; the mutation section exactly when a mutation identifier
    occurs. *)
Theorem skeleton_sections_follow_signals
    (component_path_str content : string) :
  component_path_str ∈ TOP_20_COMPONENTS →
  let component_path := div BASEDIR component_path_str in
  let info := inspect component_path content in
  let skeleton := generate_test_template component_path info in
  (has_section skeleton "Rendering" ∧
   has_section skeleton "User Interactions" ∧
   has_section skeleton "Accessibility" ∧
   has_section skeleton "Error Handling" ∧
   has_section skeleton "Edge Cases") ∧
  (has_section skeleton "State Management"
   ↔ ∃ v, declares_state content v) ∧
  (has_section skeleton "State Management"
   ↔ findall re_state_hook 0 content ≠ []) ∧
  filter is_state_case (text_lines skeleton)
  = state_case_title <$> take 3 (findall re_state_hook 0 content) ∧
  Forall (declares_state content) (findall re_state_hook 0 content) ∧
  (has_section skeleton "Form Handling"
   ↔ occurs_in "onSubmit" content ∨ occurs_in "<form" content) ∧
  (has_section skeleton "API Integration"
   ↔ occurs_in "fetch(" content ∨ occurs_in "axios" content ∨
     occurs_in ".get(" content ∨ occurs_in ".post(" content) ∧
  (has_section skeleton "Data Mutations"
   ↔ ∃ word, word ∈ ["useMutation"; "mutate"; "onCreate"; "onUpdate";
                      "onDelete"] ∧ occurs_in word content).
Proof.
  intros Hp. cbv zeta.
  set (component_path := div BASEDIR component_path_str).
  set (info := inspect component_path content).
  assert (newline_free (component_name info) = true) as Hn
    by by apply top_20_stems_newline_free.
  pose proof (inspect_state_hooks_newline_free component_path content) as Hh.
  fold info in Hh.
  assert (∀ title, title ∈ titles →
            has_section (generate_test_template component_path info) title
            ↔ section_present info title = true) as Hs
    by (intros; by apply has_section_present).
  assert (has_section (generate_test_template component_path info)
            "State Management"
          ↔ findall re_state_hook 0 content ≠ []) as Hstate.
  { rewrite Hs by in_titles.
    change (section_present info "State Management")
      with (match take 5 (findall re_state_hook 0 content) with
            | [] => false | _ :: _ => true end).
    destruct (findall re_state_hook 0 content); simpl; split; done. }
  split; [|split; [|split; [|split; [|split; [|split; [|split]]]]]].
  - repeat split; apply Hs; in_titles.
  - by rewrite declares_state_findall.
  - exact Hstate.
  - rewrite generate_test_template_text_lines by done.
    rewrite state_cases_in_skeleton_lines.
    change (state_hooks info) with (take 5 (findall re_state_hook 0 content)).
    by rewrite take_take.
  - apply findall_declared.
  - rewrite Hs by in_titles.
    change (section_present info "Form Handling")
      with (str_in "onSubmit" content || str_in "<form" content).
    by rewrite orb_true_iff, !str_in_true.
  - rewrite Hs by in_titles.
    change (section_present info "API Integration")
      with (str_in "fetch(" content || str_in "axios" content ||
            str_in ".get(" content || str_in ".post(" content).
    rewrite !orb_true_iff, !str_in_true. tauto.
  - rewrite Hs by in_titles.
    change (section_present info "Data Mutations")
      with (any (λ word, str_in word content)
                ["useMutation"; "mutate"; "onCreate"; "onUpdate"; "onDelete"]).
    rewrite any_true.
    split; intros (w & Hw & Hc); exists w; split; auto; by apply str_in_true.
Qed.

(** A target that declares two state variables and has a form and a call of
    [fetch], and the same target without the declarations. *)
Lemma skeleton_sections_follow_signals_witness :
  let component_path := div BASEDIR "app/dashboard/agents/AgentsClient.tsx" in
  let skeleton :=
    generate_test_template component_path
      (inspect component_path
         "const [count, setCount] = useState(0); const  [open,setOpen]=useState(false); <form><button onClick={() => fetch('/api')} /></form>") in
  let plain :=
    generate_test_template component_path
      (inspect component_path
               "<form><button onClick={() => fetch('/api')} /></form>") in
  has_section skeleton "State Management" ∧
  filter is_state_case (text_lines skeleton)
  = [ "    it('should manage count state', async () => {";
      "    it('should manage open state', async () => {" ] ∧
  has_section skeleton "Form Handling" ∧
  has_section skeleton "API Integration" ∧
  ¬ has_section skeleton "Data Mutations" ∧
  ¬ has_section plain "State Management" ∧
  has_section plain "Form Handling".
Proof.
  cbv zeta.
  destruct (skeleton_sections_follow_signals
              "app/dashboard/agents/AgentsClient.tsx"
              "const [count, setCount] = useState(0); const  [open,setOpen]=useState(false); <form><button onClick={() => fetch('/api')} /></form>")
    as (_ & Hstate & _ & Hcases & _ & Hform & Hapi & Hmut);
    [apply (bool_decide_unpack _); vm_compute; reflexivity|].
  destruct (skeleton_sections_follow_signals
              "app/dashboard/agents/AgentsClient.tsx"
              "<form><button onClick={() => fetch('/api')} /></form>")
    as (_ & _ & Hstate' & _ & _ & Hform' & _);
    [apply (bool_decide_unpack _); vm_compute; reflexivity|].
  cbv zeta in *.
  split; [|split; [|split; [|split; [|split; [|split]]]]].
  - apply Hstate. exists "count", "".
    eexists. split; [reflexivity|].
    exists " ", " ", "Count", " ", " ".
    eexists. split; [reflexivity|]. by repeat split.
  - exact Hcases.
  - apply Hform. right. apply str_in_true. vm_compute. reflexivity.
  - apply Hapi. left. apply str_in_true. vm_compute. reflexivity.
  - intros (w & Hw & Hc)%Hmut. apply str_in_true in Hc.
    repeat (apply elem_of_cons in Hw as [-> | Hw]);
      [..|by apply elem_of_nil in Hw]; vm_compute in Hc; discriminate Hc.
  - intros Hno%Hstate'. by apply Hno.
  - apply Hform'. right. apply str_in_true. vm_compute. reflexivity.
Defined.

(** A present section is in the text with all its lines. *)
Lemma text_block_occurs (a b c : list string) :
  occurs_in (text b) (text (a ++ b ++ c)).
Proof. exists (text a), (text c). by rewrite !text_app. Qed.

Lemma skeleton_contains_blocks (component_path : path) (info : info) :
  let n := component_name info in
  let skeleton := generate_test_template component_path info in
  (has_form info = true → occurs_in (text (form_lines n)) skeleton) ∧
  (api_calls info = true → occurs_in (text (api_lines n)) skeleton) ∧
  (has_mutations info = true → occurs_in (text (mutation_lines n)) skeleton) ∧
  occurs_in (text (interaction_lines n)) skeleton ∧
  occurs_in (text (accessibility_lines n)) skeleton ∧
  occurs_in (text (error_lines n)) skeleton ∧
  occurs_in (text (edge_lines n)) skeleton.
Proof.
  cbv zeta. rewrite generate_test_template_lines. unfold skeleton_lines.
  cbv zeta. set (n := component_name info).
  set (H0 := header_lines n ("../" +:+ n)).
  set (S := match state_hooks info with [] => [] | _ :: _ => _ end).
  repeat split.
  - intros ->. rewrite (app_assoc H0). apply text_block_occurs.
  - intros ->. rewrite (app_assoc H0), (app_assoc (H0 ++ S)).
    apply text_block_occurs.
  - intros ->.
    rewrite (app_assoc H0), (app_assoc (H0 ++ S)), (app_assoc (_ ++ _)).
    apply text_block_occurs.
  - rewrite (app_assoc H0), (app_assoc (H0 ++ S)), (app_assoc (_ ++ _)),
      (app_assoc (_ ++ _)).
    apply text_block_occurs.
  - rewrite (app_assoc H0), (app_assoc (H0 ++ S)), (app_assoc (_ ++ _)),
      (app_assoc (_ ++ _)), (app_assoc (_ ++ _)).
    apply text_block_occurs.
  - rewrite (app_assoc H0), (app_assoc (H0 ++ S)), (app_assoc (_ ++ _)),
      (app_assoc (_ ++ _)), (app_assoc (_ ++ _)), (app_assoc (_ ++ _)).
    apply text_block_occurs.
  - rewrite (app_assoc H0), (app_assoc (H0 ++ S)), (app_assoc (_ ++ _)),
      (app_assoc (_ ++ _)), (app_assoc (_ ++ _)), (app_assoc (_ ++ _)),
      (app_assoc (_ ++ _)).
    eexists _, "". by rewrite text_app, append_nil_r.
Qed.

(** ** The batch driver *)

(** Where [create_test_file] puts the skeleton of a target. *)
Definition test_dir_of (component_path_str : string) : path :=
  div (parent (div BASEDIR component_path_str)) "__tests__".

Definition test_file_path_of (component_path_str : string) : path :=
  let component_path := div BASEDIR component_path_str in
  div (test_dir_of component_path_str)
      (stem component_path +:+ ".test" +:+ suffix component_path).

Ltac run_monad :=
  cbv beta iota zeta
      delta [create_test_file process analyze_component bind ret print
             try_except path_exists read_file mkdir_exist_ok write_file
             files stdout negb].

Lemma create_test_file_missing (component_path_str : string) (w : world) :
  exists_ (files w) (div BASEDIR component_path_str) = false →
  create_test_file component_path_str w
  = (Ok false,
     World (files w)
           (stdout w ++ ["❌ Component not found: "
                         +:+ str (div BASEDIR component_path_str)])).
Proof.
  intros He. destruct w as [fs out]. cbn [files stdout] in *.
  run_monad. rewrite He. run_monad. reflexivity.
Qed.

Lemma create_test_file_unreadable (component_path_str : string) (w : world) :
  exists_ (files w) (div BASEDIR component_path_str) = true →
  read_text (files w) (div BASEDIR component_path_str) = None →
  create_test_file component_path_str w
  = (Ok false,
     World (files w)
           (stdout w ++ ["Error analyzing "
                         +:+ str (div BASEDIR component_path_str) +:+ ": "
                         +:+ open_error (files w)
                               (div BASEDIR component_path_str)])).
Proof.
  intros He Hr. destruct w as [fs out]. cbn [files stdout] in *.
  run_monad. rewrite He. run_monad. rewrite Hr. run_monad. reflexivity.
Qed.

Lemma create_test_file_present (component_path_str : string) (w : world) :
  is_Some (read_text (files w) (div BASEDIR component_path_str)) →
  files w !! test_dir_of component_path_str = Some Dir →
  exists_ (files w) (test_file_path_of component_path_str) = true →
  create_test_file component_path_str w
  = (Ok false,
     World (files w)
           (stdout w ++ ["⚠️  Test file already exists: "
                         +:+ str (test_file_path_of component_path_str)])).
Proof.
  intros [content Hr] Hd Ht. destruct w as [fs out].
  unfold test_file_path_of, test_dir_of in *. cbv zeta in Ht.
  assert (exists_ fs (div BASEDIR component_path_str) = true) as He.
  { apply bool_decide_eq_true. cbn [files] in Hr. unfold read_text in Hr.
    destruct (fs !! div BASEDIR component_path_str); [eauto|done]. }
  cbn [files stdout] in *.
  run_monad. rewrite He. run_monad. rewrite Hr. run_monad.
  rewrite Hd. run_monad. rewrite Ht. run_monad. reflexivity.
Qed.

(** The line printed by [main] before it handles item [i]. *)
Definition processing_line (i : Z) (component_path_str : string) : string :=
  String LF ("[" +:+ pretty i +:+ "/20] Processing: " +:+ component_path_str).

Lemma process_not_created (t : tally) (i : Z) (component_path_str : string)
    (w w' : world) :
  create_test_file component_path_str
    (World (files w) (stdout w ++ [processing_line i component_path_str]))
  = (Ok false, w') →
  process t (i, component_path_str) w
  = (Ok (Tally (created t) (skipped t + 1) (errors t)), w').
Proof.
  intros Hc. unfold process, bind, print, try_except.
  unfold processing_line in Hc. by rewrite Hc.
Qed.

(** C5: when the skeleton of a target is already there (inside a
    [__tests__] directory), [create_test_file] writes nothing: the file
    system, and so the skeleton, is left as it was; it returns [False], so
    [main] adds one to the skipped count and none to the error count; for a
    readable target the message is the "already exists" one. *)
Theorem existing_skeleton_is_skipped (component_path_str : string) (w : world) :
  files w !! test_dir_of component_path_str = Some Dir →
  exists_ (files w) (test_file_path_of component_path_str) = true →
  ∃ message,
    create_test_file component_path_str w
    = (Ok false, World (files w) (stdout w ++ [message])) ∧
    (is_Some (read_text (files w) (div BASEDIR component_path_str)) →
     message = "⚠️  Test file already exists: "
               +:+ str (test_file_path_of component_path_str)) ∧
    ∀ t i, ∃ out,
      process t (i, component_path_str) w
      = (Ok (Tally (created t) (skipped t + 1) (errors t)),
         World (files w) out).
Proof.
  intros Hd Ht.
  assert (∀ out, ∃ message,
            create_test_file component_path_str (World (files w) out)
            = (Ok false, World (files w) (out ++ [message])) ∧
            (is_Some (read_text (files w) (div BASEDIR component_path_str)) →
             message = "⚠️  Test file already exists: "
                       +:+ str (test_file_path_of component_path_str)))
    as Hcreate.
  { intros out.
    destruct (exists_ (files w) (div BASEDIR component_path_str)) eqn:He.
    - destruct (read_text (files w) (div BASEDIR component_path_str))
        as [content|] eqn:Hr.
      + eexists. split; [|done].
        by apply (create_test_file_present _ (World (files w) out)).
      + eexists.
        split; [by apply (create_test_file_unreadable _ (World (files w) out))|].
        by intros [? ?].
    - eexists. split.
      + by apply (create_test_file_missing _ (World (files w) out)).
      + intros [c Hr]. unfold read_text in Hr.
        apply bool_decide_eq_false in He.
        destruct (files w !! div BASEDIR component_path_str) eqn:E;
          [|done]. destruct He. eauto. }
  destruct (Hcreate (stdout w)) as (message & Hc & Hm).
  exists message. destruct w as [fs out]. split; [done|]. split; [done|].
  intros t i.
  destruct (Hcreate (out ++ [processing_line i component_path_str])%list)
    as (message' & Hc' & _).
  eexists. by apply process_not_created.
Qed.

(** A tree in which [AgentsClient.tsx] already has a skeleton, edited by
    hand. *)
Definition agents_dir : path := div BASEDIR "app/dashboard/agents".

Definition rerun_world : world :=
  World (<[div agents_dir "AgentsClient.tsx" :=
             File "'use client'; export default function AgentsClient() {}"
                  true]>
         (<[div agents_dir "__tests__/AgentsClient.test.tsx" :=
              File "// edited by hand" true]>
         (<[div agents_dir "__tests__" := Dir]>
         (<[agents_dir := Dir]> ∅))))
        [].

Lemma existing_skeleton_is_skipped_witness :
  ∃ w',
    create_test_file "app/dashboard/agents/AgentsClient.tsx" rerun_world
    = (Ok false, w') ∧
    files w' !! div agents_dir "__tests__/AgentsClient.test.tsx"
    = Some (File "// edited by hand" true) ∧
    stdout w'
    = ["⚠️  Test file already exists: /Users/aideveloper/ainative-website-nextjs-staging/app/dashboard/agents/__tests__/AgentsClient.test.tsx"].
Proof.
  destruct (existing_skeleton_is_skipped
              "app/dashboard/agents/AgentsClient.tsx" rerun_world)
    as (message & Hc & Hm & _).
  - vm_compute. reflexivity.
  - vm_compute. reflexivity.
  - eexists. split; [exact Hc|]. split.
    + vm_compute. reflexivity.
    + rewrite Hm by (vm_compute; eauto). vm_compute. reflexivity.
Defined.

#[local] Instance node_eq_dec : EqDecision node.
Proof. solve_decision. Defined.

(** Running the batch a second time leaves every file as the first run
    left it and skips what the first run created. *)
Example batch_twice :
  let w0 := World (delete (div agents_dir "__tests__/AgentsClient.test.tsx")
                          (files rerun_world)) [] in
  (batch w0).1 = Ok (Tally 1 19 0) ∧
  (batch (batch w0).2).1 = Ok (Tally 0 20 0) ∧
  files (batch (batch w0).2).2 = files (batch w0).2.
Proof.
  cbv zeta. split; [by vm_compute|]. split; [by vm_compute|].
  apply (bool_decide_unpack _). vm_compute. reflexivity.
Qed.

(** ** Missing and unreadable targets *)

(** A target that is missing or cannot be read: the failure is logged, the
    batch goes on, and the item is added to the skipped count. *)
Lemma failed_target_counted_as_skipped (t : tally) (i : Z)
    (component_path_str : string) (w : world) :
  exists_ (files w) (div BASEDIR component_path_str) = false ∨
  read_text (files w) (div BASEDIR component_path_str) = None →
  ∃ message,
    process t (i, component_path_str) w
    = (Ok (Tally (created t) (skipped t + 1) (errors t)),
       World (files w)
             (stdout w ++ [processing_line i component_path_str; message])).
Proof.
  intros Hfail.
  destruct (exists_ (files w) (div BASEDIR component_path_str)) eqn:He.
  - destruct Hfail as [|Hr]; [done|]. eexists.
    apply process_not_created.
    rewrite (create_test_file_unreadable _ (World (files w) _)) by done.
    cbn [files stdout]. by rewrite <-app_assoc.
  - eexists. apply process_not_created.
    rewrite (create_test_file_missing _ (World (files w) _)) by done.
    cbn [files stdout]. by rewrite <-app_assoc.
Qed.

(** The empty tree: no target exists. *)
Definition nothing_there : world := World ∅ [].

(** A tree where [AgentsClient.tsx] is there but cannot be read. *)
Definition unreadable_world : world :=
  World (<[div agents_dir "AgentsClient.tsx" := File "" false]>
         (<[agents_dir := Dir]> ∅))
        [].

(** C7: when no target file exists, every item is logged as not found and
    the batch goes through all twenty, but the outcome is added to the
    skipped count: the summary reads 0 created, 20 skipped, 0 errors.  One
    item gives the same counts whether its skeleton is already there, the
    target is missing, or the target cannot be read. *)
Theorem missing_targets_counted_as_skipped :
  (batch nothing_there).1 = Ok (Tally 0 20 0) ∧
  Forall (λ component_path_str,
            ("❌ Component not found: "
             +:+ str (div BASEDIR component_path_str))
            ∈ stdout (batch nothing_there).2)
         TOP_20_COMPONENTS ∧
  drop 41 (stdout (main nothing_there).2)
  = [ String LF (repeat_str "=" 60); "Summary:"; "  ✅ Created: 0";
      "  ⚠️  Skipped: 20"; "  ❌ Errors: 0";
      repeat_str "=" 60 +:+ String LF "" ] ∧
  (process (Tally 0 0 0) (2, "app/dashboard/agents/AgentsClient.tsx")
           rerun_world).1
  = Ok (Tally 0 1 0) ∧
  (process (Tally 0 0 0) (2, "app/dashboard/agents/AgentsClient.tsx")
           nothing_there).1
  = Ok (Tally 0 1 0) ∧
  (process (Tally 0 0 0) (2, "app/dashboard/agents/AgentsClient.tsx")
           unreadable_world).1
  = Ok (Tally 0 1 0) ∧
  drop 1 (stdout (process (Tally 0 0 0)
                    (2, "app/dashboard/agents/AgentsClient.tsx")
                    unreadable_world).2)
  = [ "Error analyzing /Users/aideveloper/ainative-website-nextjs-staging/app/dashboard/agents/AgentsClient.tsx: [Errno 13] Permission denied: '/Users/aideveloper/ainative-website-nextjs-staging/app/dashboard/agents/AgentsClient.tsx'" ].
Proof.
  split; [by vm_compute|]. split.
  { apply (bool_decide_unpack _). vm_compute. reflexivity. }
  repeat split; vm_compute; reflexivity.
Qed.

(** * Further properties of the classifier *)

Import Coverage.

Lemma occurs_in_lower (sub s : string) :
  occurs_in sub s → occurs_in (lower sub) (lower s).
Proof.
  intros (pre & post & ->). exists (lower pre), (lower post).
  by rewrite !lower_app.
Qed.

Lemma occurs_in_trans (a b c : string) :
  occurs_in a b → occurs_in b c → occurs_in a c.
Proof.
  intros (p1 & q1 & ->) (p2 & q2 & ->).
  exists (p2 +:+ p1), (q1 +:+ q2). by rewrite !append_assoc.
Qed.

Lemma name_matches_mono (patterns : list string) (f g : string) :
  occurs_in f g → name_matches patterns f → name_matches patterns g.
Proof.
  intros Hfg (pat & Hp & Ho). exists pat. split; [done|].
  eauto using occurs_in_trans, occurs_in_lower.
Qed.

Lemma path_matches_mono (p q : string) :
  occurs_in p q → path_matches p → path_matches q.
Proof.
  intros Hpq (b & Hb & Ho). exists b. split; [done|].
  eauto using occurs_in_trans, occurs_in_lower.
Qed.

Lemma bool_mono (a b : bool) (P Q : Prop) :
  (a = true ↔ P) → (b = true ↔ Q) → (P → Q) → a = true → b = true.
Proof. intros HP HQ HPQ Ha. apply HQ, HPQ, HP, Ha. Qed.

(** X1: priority never drops when text is added: if the name [f] occurs in
    the name [g] and the path [p] in the path [q], the rank of the priority
    of [(g, q)] is at most (at least as urgent as) that of [(f, p)]. *)
Theorem get_priority_monotone (f g p q : string) :
  occurs_in f g → occurs_in p q →
  ∃ rf rg,
    priority_order !! get_priority f p = Some rf ∧
    priority_order !! get_priority g q = Some rg ∧
    rg ≤ rf.
Proof.
  intros Hfg Hpq. unfold get_priority. unfold str, str_string.
  pose proof (bool_mono _ _ _ _ (name_matches_any high_patterns f)
                (name_matches_any high_patterns g)
                (name_matches_mono _ _ _ Hfg)) as Hc.
  pose proof (bool_mono _ _ _ _ (path_matches_any p) (path_matches_any q)
                (path_matches_mono _ _ Hpq)) as Hb.
  pose proof (bool_mono _ _ _ _ (name_matches_any medium_patterns f)
                (name_matches_any medium_patterns g)
                (name_matches_mono _ _ _ Hfg)) as Hm.
  set (cf := any _ high_patterns) in *.
  set (cg := any (λ pattern, str_in (lower pattern) (lower g)) high_patterns)
    in *.
  set (bp := any (λ path, str_in path (lower p)) _) in *.
  set (bq := any (λ path, str_in path (lower q)) _) in *.
  set (mf := any _ medium_patterns) in *.
  set (mg := any (λ pattern, str_in (lower pattern) (lower g))
                 medium_patterns) in *.
  destruct cf, cg, bp, bq, mf, mg;
    try (by specialize (Hc eq_refl));
    try (by specialize (Hb eq_refl));
    try (by specialize (Hm eq_refl));
    eexists _, _; (split; [reflexivity|split; [reflexivity|done]]).
Qed.

Lemma get_priority_monotone_witness :
  ∃ rf rg,
    priority_order !! get_priority "Table" "lib/Table.ts" = Some rf ∧
    priority_order !! get_priority "AuthTable" "app/admin/lib/Table.ts"
    = Some rg ∧
    rg ≤ rf.
Proof.
  apply (get_priority_monotone "Table" "AuthTable" "lib/Table.ts"
           "app/admin/lib/Table.ts").
  - by exists "Auth", "".
  - by exists "app/admin/", "".
Defined.

(** X2: more lines never give a lower complexity: for [a ≤ b] the rank of
    the complexity of [b] is at most that of [a] (High is rank 0). *)
Theorem get_complexity_monotone (a b : Z) :
  a ≤ b →
  ∃ ra rb,
    complexity_order !! get_complexity a = Some ra ∧
    complexity_order !! get_complexity b = Some rb ∧
    rb ≤ ra.
Proof.
  intros Hab. unfold get_complexity.
  destruct (Z.gtb_spec a 300), (Z.gtb_spec b 300),
    (Z.gtb_spec a 150), (Z.gtb_spec b 150); try lia;
    eexists _, _; (split; [reflexivity|split; [reflexivity|done]]).
Qed.

Lemma get_complexity_monotone_witness :
  ∃ ra rb,
    complexity_order !! get_complexity 150 = Some ra ∧
    complexity_order !! get_complexity 151 = Some rb ∧
    rb ≤ ra.
Proof. apply (get_complexity_monotone 150 151). lia. Defined.

(** ** The file name is part of the path *)

Lemma split_last_dot_app (s a b : string) :
  split_last_dot s = Some (a, b) → s = a +:+ b.
Proof.
  revert a b. induction s as [|c s IH]; intros a b; simpl; [done|].
  destruct (split_last_dot s) as [[a' b']|].
  - intros [= <- <-]. simpl. by rewrite (IH a' b').
  - destruct (Ascii.eqb c "."); [|done]. by intros [= <- <-].
Qed.

(** [name = stem + suffix], as in pathlib. *)
Lemma stem_suffix_name (p : path) : name p = stem p +:+ suffix p.
Proof.
  unfold stem, suffix.
  destruct (split_last_dot (name p)) as [[a b]|] eqn:E.
  - destruct (negb (String.eqb a "") && (1 <? String.length b)%nat).
    + by apply split_last_dot_app.
    + by rewrite append_nil_r.
  - by rewrite append_nil_r.
Qed.

Lemma join_ends_with_last (ps : list string) :
  ps ≠ [] → ∃ pre, join "/" ps = pre +:+ List.last ps "".
Proof.
  induction ps as [|x ps IH]; [done|]. intros _.
  destruct ps as [|y ps]; [by exists ""|].
  destruct IH as [pre Hpre]; [done|].
  rewrite join_cons_cons, Hpre. exists (x +:+ "/" +:+ pre).
  by rewrite !append_assoc.
Qed.

Lemma name_occurs_in_str (p : path) : parts p ≠ [] → occurs_in (name p) (str p).
Proof.
  intros Hp. destruct (join_ends_with_last (parts p) Hp) as [pre Hpre].
  unfold str, str_path, path_str, name.
  destruct (anchored p), (parts p) as [|x ps] eqn:E; try done.
  - exists ("/" +:+ pre), "". by rewrite Hpre, append_nil_r, append_assoc.
  - exists pre, "". by rewrite Hpre, append_nil_r.
Qed.

Lemma stem_occurs_in_str (p : path) : parts p ≠ [] → occurs_in (stem p) (str p).
Proof.
  intros Hp. apply (occurs_in_trans _ (name p)); [|by apply name_occurs_in_str].
  exists "", (suffix p). by rewrite stem_suffix_name.
Qed.

(** X3: in a scan the file name is part of the path that the
    business-domain rule searches, so a file whose name contains one of
    dashboard, admin, billing, auth, plan (in any case) is never below
    High. *)
Theorem business_word_in_name (file_path : path) (b : string) :
  parts file_path ≠ [] →
  b ∈ business_logic_paths →
  occurs_in b (lower (stem file_path)) →
  get_priority (stem file_path) file_path = "Critical" ∨
  get_priority (stem file_path) file_path = "High".
Proof.
  intros Hp Hb Ho. unfold get_priority.
  destruct (any _ high_patterns); [by left|]. right.
  assert (path_matches (str file_path)) as Hm.
  { exists b. split; [done|].
    eauto using occurs_in_trans, occurs_in_lower, stem_occurs_in_str. }
  apply path_matches_any in Hm. by rewrite Hm.
Qed.

Lemma business_word_in_name_witness :
  get_priority (stem (of_string "components/ui/BillingBadge.tsx"))
               (of_string "components/ui/BillingBadge.tsx") = "Critical" ∨
  get_priority (stem (of_string "components/ui/BillingBadge.tsx"))
               (of_string "components/ui/BillingBadge.tsx") = "High".
Proof.
  apply (business_word_in_name (of_string "components/ui/BillingBadge.tsx")
           "billing").
  - done.
  - apply (bool_decide_unpack _). vm_compute. reflexivity.
  - apply str_in_true. vm_compute. reflexivity.
Defined.

(** * Counting lines *)

(** A line: no LF and no CR in it. *)
Fixpoint plain_line (s : string) : bool :=
  match s with
  | EmptyString => true
  | String c s' =>
      negb (Ascii.eqb c LF) && negb (Ascii.eqb c CR) && plain_line s'
  end.

(** The text whose lines end in CR LF. *)
Fixpoint text_crlf (lines : list string) : string :=
  match lines with
  | [] => ""
  | l :: lines' => l +:+ String CR (String LF (text_crlf lines'))
  end.

Lemma readlines_line_lf (cur l rest : string) :
  plain_line l = true →
  readlines cur (l +:+ String LF rest)
  = (cur +:+ l +:+ String LF "") :: readlines "" rest.
Proof.
  revert cur. induction l as [|c l IH]; intros cur; simpl.
  - intros _. done.
  - intros [[Hc Hr]%andb_true_iff Hl]%andb_true_iff.
    apply negb_true_iff in Hc, Hr. rewrite Hc, Hr, IH by done.
    by rewrite append_assoc.
Qed.

Lemma readlines_line_crlf (cur l rest : string) :
  plain_line l = true →
  readlines cur (l +:+ String CR (String LF rest))
  = (cur +:+ l +:+ String LF "") :: readlines "" rest.
Proof.
  revert cur. induction l as [|c l IH]; intros cur; simpl.
  - intros _. done.
  - intros [[Hc Hr]%andb_true_iff Hl]%andb_true_iff.
    apply negb_true_iff in Hc, Hr. rewrite Hc, Hr, IH by done.
    by rewrite append_assoc.
Qed.

Lemma readlines_text (ls : list string) :
  forallb plain_line ls = true →
  readlines "" (Template.text ls) = (λ l, l +:+ String LF "") <$> ls ∧
  readlines "" (text_crlf ls) = (λ l, l +:+ String LF "") <$> ls.
Proof.
  induction ls as [|l ls IH]; [done|]. simpl.
  intros [Hl Hls]%andb_true_iff. destruct (IH Hls) as [IH1 IH2].
  rewrite readlines_line_lf, readlines_line_crlf by done.
  by rewrite IH1, IH2.
Qed.

(** X4: a readable file made of [n] lines, each ended by LF or each ended
    by CR LF, counts [n] lines. *)
Theorem count_lines_of_text (fs : filesystem) (file_path : path)
    (ls : list string) :
  forallb plain_line ls = true →
  read_text fs file_path = Some (Template.text ls) ∨
  read_text fs file_path = Some (text_crlf ls) →
  count_lines fs file_path = Z.of_nat (length ls).
Proof.
  intros Hls Hr. destruct (readlines_text ls Hls) as [H1 H2].
  unfold count_lines.
  destruct Hr as [-> | ->]; rewrite ?H1, ?H2; by rewrite length_fmap.
Qed.

Lemma count_lines_of_text_witness :
  count_lines sample_fs (div ui_dir "Button.tsx") = 200.
Proof.
  apply (count_lines_of_text sample_fs (div ui_dir "Button.tsx")
           (replicate 200 "export {};")).
  - vm_compute. reflexivity.
  - left. vm_compute. reflexivity.
Defined.

Lemma readlines_nil (cur s : string) : readlines cur s = [] → cur = "" ∧ s = "".
Proof.
  revert cur. induction s as [|c s IH]; intros cur; simpl.
  - destruct (String.eqb_spec cur ""); [done|done].
  - destruct (Ascii.eqb c LF); [done|].
    destruct (Ascii.eqb c CR).
    + destruct s as [|c2 s]; [done|]. by destruct (Ascii.eqb c2 LF).
    + intros [Hc _]%IH. by destruct cur.
Qed.

(** X5: the count is never negative, and it is 0 exactly when the file
    cannot be read (missing, a directory, unreadable) or is empty: a count
    of 0 does not tell the two apart. *)
Theorem count_lines_zero (fs : filesystem) (file_path : path) :
  0 ≤ count_lines fs file_path ∧
  (count_lines fs file_path = 0 ↔
   read_text fs file_path = None ∨ read_text fs file_path = Some "").
Proof.
  unfold count_lines. destruct (read_text fs file_path) as [content|].
  - split; [lia|]. split.
    + intros Hz. right. f_equal.
      destruct (readlines "" content) eqn:E; [|simpl in Hz; lia].
      by apply readlines_nil in E as [_ ->].
    + intros [|[= ->]]; done.
  - split; [done|]. split; auto.
Qed.

(** * Further properties of the directory scan *)

Lemma for_each_Forall {A B} (P : B → Prop)
    (body : list B → A → option (list B)) (l : list A) :
  (∀ r x r', body r x = Some r' → Forall P r → Forall P r') →
  ∀ acc res, Coverage.for_each body l acc = Some res →
  Forall P acc → Forall P res.
Proof.
  intros Hb. induction l as [|x l IH]; intros acc res; simpl.
  - by intros [= <-].
  - destruct (body acc x) as [r'|] eqn:E; simpl; [|done]. eauto.
Qed.

Lemma join_app (sep : string) (a b : list string) :
  a ≠ [] → b ≠ [] →
  join sep (a ++ b) = join sep a +:+ sep +:+ join sep b.
Proof.
  induction a as [|x a IH]; [done|]. intros _ Hb.
  destruct a as [|y a].
  - destruct b; [done|]. done.
  - change ((x :: y :: a) ++ b)%list with (x :: y :: (a ++ b))%list.
    rewrite !join_cons_cons.
    change (y :: (a ++ b))%list with ((y :: a) ++ b)%list.
    rewrite IH by done. by rewrite !append_assoc.
Qed.

(** The relative path is a part of the path it is taken from, or ["."]. *)
Lemma relative_str_occurs (p base rel : path) :
  relative_to p base = Some rel → anchored base = true →
  str rel = "." ∨ occurs_in (str rel) (str p).
Proof.
  intros (Ha & Hr & Hp)%relative_to_Some Hb.
  unfold str, str_path, path_str. rewrite Hr, Ha, Hb, Hp.
  destruct (parts rel) as [|x r] eqn:E; [by left|]. right.
  destruct (parts base) as [|y b].
  - exists "/", "". by rewrite append_nil_r.
  - rewrite join_app by done.
    exists ("/" +:+ join "/" (y :: b) +:+ "/"), "".
    by rewrite append_nil_r, !append_assoc.
Qed.

Lemma str_in_mono (sub s t : string) :
  occurs_in s t → str_in sub s = true → str_in sub t = true.
Proof. rewrite !str_in_true. eauto using occurs_in_trans. Qed.

(** What [analyze_directory] guarantees of each entry. *)
Definition scan_entry (category : string) (e : entry) : Prop :=
  e_category e = category ∧
  0 ≤ e_lines e ∧
  e_complexity e = get_complexity (e_lines e) ∧
  e_priority e ∈ priorities ∧
  str_in "__tests__" (e_path e) = false ∧
  str_in "node_modules" (e_path e) = false ∧
  str_in ".next" (e_path e) = false.

Lemma count_lines_nonneg (fs : filesystem) (p : path) : 0 ≤ count_lines fs p.
Proof. unfold count_lines. destruct (read_text fs p); lia. Qed.

Lemma visit_scan_entry fs category ext results file_path results' :
  visit fs category ext results file_path = Some results' →
  Forall (scan_entry category) results →
  Forall (scan_entry category) results'.
Proof.
  unfold visit. intros Hv Hr.
  destruct (skipped file_path) eqn:Hs; [by simplify_eq|].
  destruct (negb _); [|by simplify_eq].
  destruct (relative_to _ _) as [rel|] eqn:Hrel; simplify_eq/=.
  apply Forall_app. split; [done|]. apply Forall_singleton.
  unfold skipped in Hs.
  apply orb_false_iff in Hs as [[H1 H2]%orb_false_iff H3].
  assert (∀ sub, str_in sub (str file_path) = false →
                 str_in sub "." = false →
                 str_in sub (str rel) = false) as Hsub.
  { intros sub Hf Hdot.
    destruct (relative_str_occurs _ _ _ Hrel eq_refl) as [-> | Ho]; [done|].
    destruct (str_in sub (str rel)) eqn:E; [|done].
    by rewrite (str_in_mono _ _ _ Ho E) in Hf. }
  repeat split; simpl; auto using count_lines_nonneg, get_priority_label.
Qed.

(** X6: every entry of a scan carries the category it was asked for, a
    line count that is not negative, the complexity of that line count and
    one of the four priorities, and its path contains none of [__tests__],
    [node_modules], [.next]. *)
Theorem analyze_directory_entries (fs : filesystem) (directory : path)
    (category : string) (results : list entry) :
  analyze_directory fs directory category = Some results →
  Forall (scan_entry category) results.
Proof.
  unfold analyze_directory. intros Hr.
  eapply for_each_Forall in Hr; [done| |done].
  intros r ext r' Hv Hl. eapply for_each_Forall in Hv; [done| |done].
  intros ???. apply visit_scan_entry.
Qed.

Lemma analyze_directory_entries_witness :
  Forall (scan_entry "UI Components")
    [ Entry "components/ui/Button.tsx" "Low" "Medium" 200 "UI Components";
      Entry "components/ui/icons.ts" "Low" "Low" 0 "UI Components" ].
Proof.
  apply (analyze_directory_entries sample_fs ui_dir).
  vm_compute. reflexivity.
Defined.

Lemma for_each_None {A S} (body : S → A → option S) (l : list A) (x : A) :
  x ∈ l → (∀ s, body s x = None) → ∀ s, Coverage.for_each body l s = None.
Proof.
  intros Hx Hb. induction l as [|y l IH]; intros s; [by apply elem_of_nil in Hx|].
  simpl. apply elem_of_cons in Hx as [<- | Hx]; [by rewrite Hb|].
  destruct (body s y); simpl; [by apply IH|done].
Qed.

(** X7: one untested file outside [BASEDIR] makes the whole scan fail with
    the error of [relative_to]: no result is returned, also not for the
    files already handled. *)
Theorem analyze_directory_outside_basedir (fs : filesystem)
    (directory file_path : path) (category ext : string) :
  ext ∈ [".tsx"; ".ts"] →
  file_path ∈ rglob_ext fs directory ext →
  skipped file_path = false →
  exists_ fs (test_file_of file_path ext) = false →
  relative_to file_path BASEDIR = None →
  analyze_directory fs directory category = None.
Proof.
  intros Hext Hin Hs He Hrel. unfold analyze_directory.
  apply (for_each_None _ _ ext); [done|]. intros results.
  apply (for_each_None _ _ file_path); [done|]. intros r.
  unfold visit. by rewrite Hs, He, Hrel.
Qed.

Definition outside_fs : filesystem :=
  <[of_string "/tmp/demo/Widget.tsx" := File "x" true]>
  (<[of_string "/tmp/demo" := Dir]> ∅).

Lemma analyze_directory_outside_basedir_witness :
  analyze_directory outside_fs (of_string "/tmp/demo") "Demo" = None.
Proof.
  apply (analyze_directory_outside_basedir outside_fs (of_string "/tmp/demo")
           (of_string "/tmp/demo/Widget.tsx") "Demo" ".tsx").
  - apply elem_of_cons. by left.
  - apply rglob_ext_elem. vm_compute. eauto.
  - vm_compute. reflexivity.
  - vm_compute. reflexivity.
  - vm_compute. reflexivity.
Defined.

Import Report.

(** ** The file counts *)






(** ** The collection of the gap list *)

(** The directories that are scanned, by their parts below [BASEDIR]: two
    levels deep (not [app/api]), or [services], or [lib]. *)
Definition scan_root (dp : list string) : Prop :=
  (∃ a b, dp = [a; b] ∧ (a = "app" → b ≠ "api")) ∨
  dp = ["services"] ∨ dp = ["lib"].

(** [e] is the entry of a file below a scanned directory. *)
Definition from_scan (fs : filesystem) (e : entry) : Prop :=
  ∃ category file_path dp x r,
    scan_root dp ∧
    is_Some (fs !! file_path) ∧
    anchored file_path = true ∧
    parts file_path = (parts BASEDIR ++ dp ++ x :: r)%list ∧
    e = entry_of fs category file_path.

Lemma elem_of_flat_map_gap fs category ext l e :
  e ∈ flat_map (gap fs category ext) l →
  ∃ file_path, file_path ∈ l ∧ e = entry_of fs category file_path.
Proof.
  induction l as [|p l IH]; simpl; [by intros ?%elem_of_nil|].
  intros [He | He]%elem_of_app.
  - exists p. split; [by left|]. unfold gap in He.
    destruct (_ || _); [by apply elem_of_nil in He|].
    by apply list_elem_of_singleton in He.
  - destruct (IH He) as (q & Hq & ->). exists q. split; [by right|done].
Qed.

Lemma scan_into_Some fs d category acc dp :
  anchored d = true → parts d = (parts BASEDIR ++ dp)%list →
  ∃ r, scan_into fs d category acc = Some (acc ++ r)%list ∧
       (scan_root dp → Forall (from_scan fs) r) ∧
       Forall labelled r.
Proof.
  intros Ha Hp. unfold scan_into.
  assert (is_Some (relative_to d BASEDIR)) as Hrel.
  { exists (Path false dp). by apply relative_to_Some. }
  rewrite (analyze_directory_gaps _ _ _ Hrel). simpl.
  eexists. split; [done|].
  assert (∀ e ext, e ∈ flat_map (gap fs category ext) (rglob_ext fs d ext) →
            labelled e ∧ (scan_root dp → from_scan fs e)) as Hone.
  { intros e ext (fp & Hfp & ->)%elem_of_flat_map_gap.
    apply rglob_ext_elem in Hfp as (Hfs & Hb & _).
    split.
    - split; [apply get_priority_label | apply get_complexity_label].
    - intros Hroot. apply below_true in Hb as (Hanc & x & r & Hq).
      exists category, fp, dp, x, r.
      repeat split; [done|done|congruence|by rewrite Hq, Hp, <-app_assoc]. }
  split.
  - intros Hroot. apply Forall_app. split; apply Forall_forall;
      intros e He; by apply (Hone e _ He).
  - apply Forall_app. split; apply Forall_forall;
      intros e He; by apply (Hone e _ He).
Qed.

Lemma child_parts (d q : path) :
  parent q = d → parts q ≠ [] →
  anchored q = anchored d ∧ parts q = (parts d ++ [name q])%list.
Proof.
  intros <- Hq. split; [done|]. unfold name. simpl.
  by apply app_removelast_last.
Qed.

Lemma name_of_child (d : list string) (x : string) :
  List.last (d ++ [x]) "" = x.
Proof. apply last_last. Qed.

(** The loop over the children of [app/]. *)
Lemma app_loop_Some fs subdirs acc :
  Forall (λ q, parent q = app_dir ∧ parts q ≠ []) subdirs →
  ∃ r,
    Coverage.for_each
      (λ untested subdir,
         if is_dir fs subdir &&
            negb (bool_decide (name subdir ∈ ["api"; "__tests__"]))
         then scan_into fs subdir ("App: " +:+ name subdir) untested
         else Some untested)
      subdirs acc = Some (acc ++ r)%list ∧
    Forall (from_scan fs) r ∧ Forall labelled r.
Proof.
  intros Hs. revert acc. induction Hs as [|q l [Hq Hn] _ IH]; intros acc.
  - exists []. simpl. by rewrite app_nil_r.
  - cbn [Coverage.for_each]. destruct (child_parts _ _ Hq Hn) as [Ha Hp].
    destruct (is_dir fs q && _) eqn:E.
    + destruct (scan_into_Some fs q ("App: " +:+ name q) acc
                  ["app"; name q]) as (r1 & -> & H1 & L1); [done|done|].
      cbn [mbind option_bind].
      destruct (IH (acc ++ r1)%list) as (r2 & -> & H2 & L2).
      exists (r1 ++ r2)%list. rewrite app_assoc.
      split; [done|]. split; apply Forall_app; split; try done.
      apply H1. left. exists "app", (name q). split; [done|].
      intros _ Hapi. apply andb_true_iff in E as [_ E].
      apply negb_true_iff, bool_decide_eq_false in E.
      apply E. rewrite Hapi. by left.
    + cbn [mbind option_bind].
      destruct (IH acc) as (r2 & -> & H2 & L2). eauto.
Qed.

Lemma iterdir_children fs d subdirs :
  iterdir fs d = Some subdirs →
  fs !! d = Some Dir ∧ Forall (λ q, parent q = d ∧ parts q ≠ []) subdirs.
Proof.
  unfold iterdir. destruct (fs !! d) as [[|]|]; try done.
  intros [= <-]. split; [done|]. apply Forall_forall.
  by intros q [? _]%list_elem_of_filter.
Qed.

Lemma collect_untested_spec (fs : filesystem) :
  match fs !! app_dir with
  | Some Dir =>
      ∃ untested, collect_untested fs = Some untested ∧
                  Forall (from_scan fs) untested ∧ Forall labelled untested
  | _ => collect_untested fs = None
  end.
Proof.
  unfold collect_untested. cbv zeta.
  destruct (scan_into_Some fs (div components_dir "ui") "UI Components" []
              ["components"; "ui"]) as (r1 & -> & H1 & L1); [done..|].
  cbn [mbind option_bind].
  destruct (scan_into_Some fs (div components_dir "layout")
              "Layout Components" ([] ++ r1) ["components"; "layout"])
    as (r2 & -> & H2 & L2); [done..|].
  cbn [mbind option_bind].
  destruct (scan_into_Some fs (div components_dir "sections")
              "Section Components" (([] ++ r1) ++ r2)
              ["components"; "sections"])
    as (r3 & -> & H3 & L3); [done..|].
  cbn [mbind option_bind].
  destruct (scan_into_Some fs (div components_dir "branding")
              "Branding Components" ((([] ++ r1) ++ r2) ++ r3)
              ["components"; "branding"])
    as (r4 & -> & H4 & L4); [done..|].
  cbn [mbind option_bind].
  set (a4 := (((([] ++ r1) ++ r2) ++ r3) ++ r4)%list).
  destruct (scan_into_Some fs (div components_dir "tutorial")
              "Tutorial Components" a4 ["components"; "tutorial"])
    as (r5 & -> & H5 & L5); [done..|].
  cbn [mbind option_bind].
  destruct (scan_into_Some fs (div components_dir "webinar")
              "Webinar Components" (a4 ++ r5) ["components"; "webinar"])
    as (r6 & -> & H6 & L6); [done..|].
  cbn [mbind option_bind].
  destruct (scan_into_Some fs (div components_dir "agent-swarm")
              "Agent Swarm Components" ((a4 ++ r5) ++ r6)
              ["components"; "agent-swarm"])
    as (r7 & -> & H7 & L7); [done..|].
  cbn [mbind option_bind].
  destruct (scan_into_Some fs (div components_dir "video")
              "Video Components" (((a4 ++ r5) ++ r6) ++ r7)
              ["components"; "video"])
    as (r8 & -> & H8 & L8); [done..|].
  cbn [mbind option_bind].
  set (a8 := ((((a4 ++ r5) ++ r6) ++ r7) ++ r8)%list).
  destruct (scan_into_Some fs (div components_dir "invoices")
              "Invoice Components" a8 ["components"; "invoices"])
    as (r9 & -> & H9 & L9); [done..|].
  cbn [mbind option_bind].
  destruct (scan_into_Some fs (div components_dir "providers")
              "Provider Components" (a8 ++ r9) ["components"; "providers"])
    as (r10 & -> & H10 & L10); [done..|].
  cbn [mbind option_bind].
  set (a10 := ((a8 ++ r9) ++ r10)%list).
  assert (Forall (from_scan fs) a10 ∧ Forall labelled a10) as [F10 La10].
  { assert (∀ a, scan_root ["components"; a]) as Hroot
      by (intros a; left; exists "components", a; by split).
    subst a10 a8 a4. rewrite !Forall_app. repeat split; auto. }
  destruct (iterdir fs app_dir) as [subdirs|] eqn:Hit.
  - apply iterdir_children in Hit as [-> Hch].
    cbn [mbind option_bind].
    destruct (app_loop_Some fs subdirs a10 Hch) as (ra & -> & Ha & La).
    cbn [mbind option_bind].
    assert (∃ rs, (if exists_ fs services_dir
                   then scan_into fs services_dir "Services" (a10 ++ ra)
                   else Some (a10 ++ ra)%list)
                  = Some ((a10 ++ ra) ++ rs)%list ∧
                  Forall (from_scan fs) rs ∧ Forall labelled rs)
      as (rs & -> & Hs & Ls).
    { destruct (exists_ fs services_dir).
      - destruct (scan_into_Some fs services_dir "Services" (a10 ++ ra)
                    ["services"]) as (rs & -> & Hs & Ls); [done..|].
        exists rs. repeat split; [|done]. apply Hs. right. by left.
      - exists []. by rewrite app_nil_r. }
    cbn [mbind option_bind].
    assert (∃ rl, (if exists_ fs lib_dir
                   then scan_into fs lib_dir "Library" ((a10 ++ ra) ++ rs)
                   else Some ((a10 ++ ra) ++ rs)%list)
                  = Some (((a10 ++ ra) ++ rs) ++ rl)%list ∧
                  Forall (from_scan fs) rl ∧ Forall labelled rl)
      as (rl & -> & Hl & Ll).
    { destruct (exists_ fs lib_dir).
      - destruct (scan_into_Some fs lib_dir "Library" ((a10 ++ ra) ++ rs)
                    ["lib"]) as (rl & -> & Hl & Ll); [done..|].
        exists rl. repeat split; [|done]. apply Hl. right. by right.
      - exists []. by rewrite app_nil_r. }
    cbn [mbind option_bind]. eexists. split; [done|].
    rewrite !Forall_app. repeat split; auto.
  - cbn [mbind option_bind]. unfold iterdir in Hit.
    destruct (fs !! app_dir) as [[|]|]; done.
Qed.

Lemma sort_untested_perm (untested sorted : list entry) :
  sort_untested untested = Some sorted → sorted ≡ₚ untested.
Proof.
  intros Hs.
  by destruct (list_sort_spec tuple_lt tuple_lt_irrefl tuple_lt_asym
                 tuple_not_lt_trans sort_key untested sorted Hs) as [? _].
Qed.

(** X9: the ranked gap list is computed exactly when [app/] is a
    directory: a missing [app/] stops the report with the error of
    [iterdir], while the ten component directories, [services/] and [lib/]
    may all be missing, and no rank lookup ever fails. *)
Theorem ranked_untested_defined (fs : filesystem) :
  is_Some (ranked_untested fs) ↔ fs !! app_dir = Some Dir.
Proof.
  unfold ranked_untested. pose proof (collect_untested_spec fs) as Hc.
  destruct (fs !! app_dir) as [[|]|].
  - destruct Hc as (untested & -> & _ & Hl). simpl.
    split; [done|]. intros _. by apply sort_untested_is_Some.
  - rewrite Hc. simpl. split; [by intros [? ?]|done].
  - rewrite Hc. simpl. split; [by intros [? ?]|done].
Qed.

(** The path of an entry of the gap list, in parts. *)
Lemma from_scan_path (fs : filesystem) (e : entry) :
  plain_names fs → from_scan fs e →
  ∃ dp x r, scan_root dp ∧ Forall slash_free (dp ++ x :: r) ∧
            e_path e = join "/" (dp ++ x :: r).
Proof.
  intros Hfs (category & fp & dp & x & r & Hroot & [n Hn] & Ha & Hp & ->).
  exists dp, x, r. split; [done|].
  apply Hfs in Hn. simpl in Hn. rewrite Hp in Hn.
  apply Forall_app in Hn as [_ Hn]. split; [done|].
  unfold entry_of, rel_of. cbn [e_path]. rewrite Hp, drop_app_length.
  unfold str, str_path. rewrite path_str_relative; [done|].
  by destruct dp.
Qed.

Lemma join_two_parts (a b : string) : join "/" [a; b] = a +:+ "/" +:+ b.
Proof. done. Qed.

Lemma slash_free_literal (s : string) : str_in "/" s = false → slash_free s.
Proof. done. Qed.

(** X10: the ranked gap list never has a file that lies directly in [app/]
    or directly in [components/] (such as [app/page.tsx]), nor any file
    below [app/api/]: these places are never scanned. *)
Theorem unscanned_places (fs : filesystem) (ranked : list entry) (e : entry) :
  plain_names fs →
  ranked_untested fs = Some ranked →
  e ∈ ranked →
  (∀ name, slash_free name →
     e_path e ≠ "app/" +:+ name ∧ e_path e ≠ "components/" +:+ name) ∧
  String.prefix "app/api/" (e_path e) = false.
Proof.
  intros Hfs Hr He. unfold ranked_untested in Hr.
  pose proof (collect_untested_spec fs) as Hc.
  destruct (collect_untested fs) as [untested|] eqn:Hcol; [|done].
  simpl in Hr. apply sort_untested_perm in Hr. rewrite Hr in He.
  destruct (fs !! app_dir) as [[|]|]; try done.
  destruct Hc as (u & [= <-] & Hscan & _).
  apply (proj1 (Forall_forall _ _) Hscan) in He.
  destruct (from_scan_path fs e Hfs He) as (dp & x & r & Hroot & Hsf & ->).
  assert (∀ top name, slash_free top → slash_free name →
            (top = "app" ∨ top = "components") →
            join "/" (dp ++ x :: r) ≠ top +:+ "/" +:+ name) as Htop.
  { intros top name Ht Hn Hor Heq. rewrite <-join_two_parts in Heq.
    apply join_slash_inj in Heq;
      [|by destruct dp|done|done|by repeat constructor].
    destruct Hroot as [(a & b & -> & _) | [-> | ->]]; simplify_eq/=.
    - by destruct Hor.
    - by destruct Hor. }
  split.
  - intros name Hn. split.
    + apply (Htop "app"); [done|done|by left].
    + apply (Htop "components"); [done|done|by right].
  - destruct (String.prefix _ _) eqn:E; [|done]. exfalso.
    apply prefix_true in E as [post E].
    change ("app/api/" +:+ post) with ("app" +:+ "/" +:+ "api/" +:+ post) in E.
    destruct Hroot as [(a & b & -> & Hab) | [-> | ->]].
    + cbn [app] in E, Hsf. rewrite !join_cons_cons in E.
      apply Forall_cons in Hsf as [Ha Hsf].
      apply Forall_cons in Hsf as [Hb Hsf].
      apply slash_split_inj in E as [-> E]; [|done|done].
      change ("api/" +:+ post) with ("api" +:+ "/" +:+ post) in E.
      apply slash_split_inj in E as [-> _]; [|done|done].
      by apply Hab.
    + cbn [app] in E. rewrite join_cons_cons in E.
      apply Forall_cons in Hsf as [Ha _].
      by apply slash_split_inj in E as [? _].
    + cbn [app] in E. rewrite join_cons_cons in E.
      apply Forall_cons in Hsf as [Ha _].
      by apply slash_split_inj in E as [? _].
Qed.

(** A small site: a page directly in [app/], a client component in
    [app/dashboard/], a route in [app/api/], a component directly in
    [components/] and one in [components/ui/], both tested, and a
    service. *)
Definition site_fs : filesystem :=
  list_to_map
    [ (BASEDIR, Dir);
      (div BASEDIR "app", Dir);
      (div BASEDIR "app/page.tsx", File "x" true);
      (div BASEDIR "app/dashboard", Dir);
      (div BASEDIR "app/dashboard/DashboardClient.tsx", File "x" true);
      (div BASEDIR "app/api", Dir);
      (div BASEDIR "app/api/route.ts", File "x" true);
      (div BASEDIR "components", Dir);
      (div BASEDIR "components/Top.tsx", File "x" true);
      (div BASEDIR "components/ui", Dir);
      (div BASEDIR "components/ui/Button.tsx", File "x" true);
      (div BASEDIR "components/ui/__tests__", Dir);
      (div BASEDIR "components/ui/__tests__/Button.test.tsx", File "x" true);
      (div BASEDIR "components/__tests__", Dir);
      (div BASEDIR "components/__tests__/Top.test.tsx", File "x" true);
      (div BASEDIR "services", Dir);
      (div BASEDIR "services/api.ts", File "x" true) ].

Lemma unscanned_places_witness :
  ∃ ranked,
    ranked_untested site_fs = Some ranked ∧
    Forall (λ e, e_path e ≠ "app/page.tsx" ∧
                 String.prefix "app/api/" (e_path e) = false) ranked.
Proof.
  destruct (ranked_untested site_fs) as [ranked|] eqn:Hr;
    [|by vm_compute in Hr].
  exists ranked. split; [reflexivity|].
  apply Forall_forall. intros e He.
  destruct (unscanned_places site_fs ranked e) as [Hnames Hapi].
  - apply (bool_decide_unpack _). vm_compute. reflexivity.
  - exact Hr.
  - exact He.
  - split; [|exact Hapi]. apply (Hnames "page.tsx"). reflexivity.
Defined.

(** ** What the report derives from the ranked list *)

Lemma sort_untested_key_sorted (untested sorted : list entry) :
  sort_untested untested = Some sorted →
  StronglySorted (λ x y, key_not_after (sort_key x) (sort_key y)) sorted ∧
  Forall (λ e, is_Some (sort_key e)) sorted.
Proof.
  intros Hs.
  destruct (list_sort_spec tuple_lt tuple_lt_irrefl tuple_lt_asym
              tuple_not_lt_trans sort_key untested sorted Hs)
    as (Hperm & Hsorted & _).
  split.
  - eapply (StronglySorted_impl_Forall _ _ (λ _, True));
      [|by apply Forall_true|exact Hsorted].
    intros x y _ _ (kx & ky & Hx & Hy & Hlt). by rewrite Hx, Hy.
  - rewrite Hperm. unfold sort_untested, list_sort in Hs.
    destruct (decorate sort_key untested) as [d|] eqn:Hd; [|done].
    apply decorate_Some in Hd as [<- Hd].
    apply Forall_fmap. eapply Forall_impl; [exact Hd|].
    intros [k e] Hk. unfold keyed in Hk. simpl in *. eauto.
Qed.

(** X11: sorting the ranked list again changes nothing. *)
Theorem sort_untested_idempotent (untested sorted : list entry) :
  sort_untested untested = Some sorted →
  sort_untested sorted = Some sorted.
Proof.
  intros Hs. destruct (sort_untested_key_sorted _ _ Hs) as [Hsorted Hkeys].
  assert (is_Some (sort_untested sorted)) as [again Ha].
  { unfold sort_untested, list_sort.
    destruct (decorate_is_Some sort_key sorted Hkeys) as [d ->].
    simpl. eauto. }
  rewrite Ha. f_equal. symmetry.
  by apply (sort_untested_unique sorted again sorted).
Qed.

Lemma sort_untested_idempotent_witness :
  sort_untested [ Entry "a" "Critical" "Low" 500 "y";
                  Entry "b" "Critical" "Low" 100 "x";
                  Entry "c" "High" "High" 50 "x";
                  Entry "d" "Low" "High" 400 "x" ]
  = Some [ Entry "a" "Critical" "Low" 500 "y";
           Entry "b" "Critical" "Low" 100 "x";
           Entry "c" "High" "High" 50 "x";
           Entry "d" "Low" "High" 400 "x" ].
Proof.
  apply (sort_untested_idempotent
           [ Entry "d" "Low" "High" 400 "x";
             Entry "b" "Critical" "Low" 100 "x";
             Entry "c" "High" "High" 50 "x";
             Entry "a" "Critical" "Low" 500 "y" ]).
  vm_compute. reflexivity.
Defined.

Lemma sort_untested_ranked (untested sorted : list entry) :
  Forall labelled untested →
  sort_untested untested = Some sorted →
  StronglySorted ranked_before sorted.
Proof.
  intros Hl Hs.
  destruct (list_sort_spec tuple_lt tuple_lt_irrefl tuple_lt_asym
              tuple_not_lt_trans sort_key untested sorted Hs)
    as (Hperm & Hsorted & _).
  eapply (StronglySorted_impl_Forall _ _ labelled); [|by rewrite Hperm|done].
  intros x y Hx Hy (kx & ky & Hkx & Hky & Hlt).
  eauto using ranked_before_key.
Qed.

Lemma enumerate_fst {A} (l : list A) (start : Z) :
  (Report.enumerate l start).*1 = seqZ start (Z.of_nat (length l)).
Proof.
  revert start. induction l as [|x l IH]; intros start; [done|].
  cbn [Report.enumerate fmap list_fmap length]. rewrite IH.
  rewrite Nat2Z.inj_succ, (seqZ_cons start) by lia. do 2 f_equal; lia.
Qed.

Lemma enumerate_snd {A} (l : list A) (start : Z) :
  (Report.enumerate l start).*2 = l.
Proof.
  revert start. induction l as [|x l IH]; intros start; [done|].
  cbn [Report.enumerate fmap list_fmap]. by rewrite IH.
Qed.

(** X12: the top-20 table lists the first 20 entries of the ranked list
    (all of them when there are fewer), numbered from 1 without gaps, and
    every entry left out of it ranks no earlier than every entry in it. *)
Theorem top_20_rows_are_the_first (untested ranked : list entry) :
  Forall labelled untested →
  sort_untested untested = Some ranked →
  let rows := top_20_rows ranked in
  (λ row, row.1.2) <$> rows = take 20 ranked ∧
  (λ row, row.1.1) <$> rows = seqZ 1 (Z.of_nat (length rows)) ∧
  length rows = (20 `min` length untested)%nat ∧
  (∀ a b, a ∈ take 20 ranked → b ∈ drop 20 ranked → ranked_before a b).
Proof.
  intros Hl Hs. cbv zeta. unfold top_20_rows.
  assert (∀ l : list (Z * entry),
            (λ row : Z * entry * string, row.1.2)
              <$> ((λ '(i, item), (i, item, reason_of item)) <$> l) = l.*2)
    as H2.
  { intros l. rewrite <-list_fmap_compose. apply list_fmap_ext.
    by intros ? [? ?]. }
  assert (∀ l : list (Z * entry),
            (λ row : Z * entry * string, row.1.1)
              <$> ((λ '(i, item), (i, item, reason_of item)) <$> l) = l.*1)
    as H1.
  { intros l. rewrite <-list_fmap_compose. apply list_fmap_ext.
    by intros ? [? ?]. }
  assert (length ((λ '(i, item), (i, item, reason_of item))
                    <$> Report.enumerate (take 20 ranked) 1)
          = length (take 20 ranked)) as Hlen.
  { rewrite length_fmap, <-(length_fmap snd). by rewrite enumerate_snd. }
  split; [by rewrite H2, enumerate_snd|].
  split; [by rewrite H1, enumerate_fst, Hlen|].
  split.
  - rewrite Hlen, length_take. by rewrite (sort_untested_perm _ _ Hs).
  - intros a b Ha Hb.
    pose proof (sort_untested_ranked _ _ Hl Hs) as Hsorted.
    rewrite <-(take_drop 20 ranked) in Hsorted.
    by apply (StronglySorted_app_1_elem_of _ _ _ _ _ Hsorted).
Qed.

Lemma top_20_rows_are_the_first_witness :
  (λ row : Z * entry * string, row.1.1)
    <$> top_20_rows [ Entry "a" "Critical" "Low" 500 "y";
                      Entry "b" "Critical" "Low" 100 "x";
                      Entry "c" "High" "High" 50 "x";
                      Entry "d" "Low" "High" 400 "x" ]
  = [1; 2; 3; 4] ∧
  (λ row : Z * entry * string, row.1.2)
    <$> top_20_rows [ Entry "a" "Critical" "Low" 500 "y";
                      Entry "b" "Critical" "Low" 100 "x";
                      Entry "c" "High" "High" 50 "x";
                      Entry "d" "Low" "High" 400 "x" ]
  = [ Entry "a" "Critical" "Low" 500 "y";
      Entry "b" "Critical" "Low" 100 "x";
      Entry "c" "High" "High" 50 "x";
      Entry "d" "Low" "High" 400 "x" ].
Proof.
  destruct (top_20_rows_are_the_first
              [ Entry "d" "Low" "High" 400 "x";
                Entry "b" "Critical" "Low" 100 "x";
                Entry "c" "High" "High" 50 "x";
                Entry "a" "Critical" "Low" 500 "y" ]
              [ Entry "a" "Critical" "Low" 500 "y";
                Entry "b" "Critical" "Low" 100 "x";
                Entry "c" "High" "High" 50 "x";
                Entry "d" "Low" "High" 400 "x" ])
    as (Hitems & Hnumbers & _).
  - apply (bool_decide_unpack _). vm_compute. reflexivity.
  - vm_compute. reflexivity.
  - split; [rewrite Hnumbers|rewrite Hitems]; vm_compute; reflexivity.
Defined.

(** ** The tables by category *)

Lemma string_compare_refl (s : string) : String.compare s s = Eq.
Proof.
  pose proof (String.compare_antisym s s) as H.
  destruct (String.compare s s); simpl in H; congruence.
Qed.

Lemma string_ltb_irrefl (s : string) : String.ltb s s = false.
Proof. unfold String.ltb. by rewrite string_compare_refl. Qed.

Lemma string_ltb_asym (a b : string) :
  String.ltb a b = true → String.ltb b a = false.
Proof.
  unfold String.ltb. rewrite (String.compare_antisym a b).
  by destruct (String.compare b a).
Qed.

Lemma string_not_ltb_leb (a b : string) :
  String.ltb b a = false ↔ String.leb a b = true.
Proof.
  unfold String.ltb, String.leb. rewrite (String.compare_antisym a b).
  by destruct (String.compare b a).
Qed.

Lemma string_not_ltb_trans (a b c : string) :
  String.ltb b a = false → String.ltb c b = false → String.ltb c a = false.
Proof.
  rewrite !string_not_ltb_leb. intros Hab Hbc.
  assert (String.le a c) as Hac.
  { transitivity b; unfold String.le; by apply Is_true_true. }
  by apply Is_true_true in Hac.
Qed.

Lemma string_not_ltb_strict (a b : string) :
  String.ltb b a = false → a ≠ b → String.ltb a b = true.
Proof.
  unfold String.ltb. rewrite (String.compare_antisym a b).
  destruct (String.compare b a) eqn:E; simpl; try done.
  apply String.compare_eq_iff in E. congruence.
Qed.

(** The groups of [by_category], from any starting dict. *)
Lemma by_category_fold (l : list entry) (m0 : gmap string (list entry))
    (c : string) :
  fold_left
    (λ by_category item,
       <[e_category item :=
           (default [] (by_category !! e_category item) ++ [item])%list]>
         by_category) l m0 !! c
  = match m0 !! c, filter (λ e, e_category e = c) l with
    | None, [] => None
    | o, items => Some (default [] o ++ items)%list
    end.
Proof.
  revert m0. induction l as [|e l IH]; intros m0.
  - simpl. destruct (m0 !! c); simpl; [by rewrite app_nil_r|done].
  - cbn [fold_left]. rewrite IH, filter_cons.
    destruct (decide (e_category e = c)) as [->|Hne].
    + rewrite lookup_insert_eq. simpl.
      destruct (m0 !! c) as [xs|]; simpl; by rewrite <-?app_assoc.
    + by rewrite lookup_insert_ne.
Qed.

Lemma by_category_lookup (untested : list entry) (c : string)
    (items : list entry) :
  by_category untested !! c = Some items ↔
  items = filter (λ e, e_category e = c) untested ∧ items ≠ [].
Proof.
  unfold by_category. rewrite by_category_fold, lookup_empty.
  destruct (filter _ untested) as [|x xs]; simpl.
  - split; [done|]. by intros [-> ?].
  - split; [by intros [= <-]|]. by intros [-> _].
Qed.

Lemma StronglySorted_strict (l : list (string * list entry)) :
  NoDup l.*1 →
  StronglySorted (key_le String.ltb) l →
  StronglySorted (λ g1 g2, String.ltb g1.1 g2.1 = true) l.
Proof.
  intros Hnd Hs. induction Hs as [|g l Hs IH Hg]; [constructor|].
  rewrite fmap_cons in Hnd. apply NoDup_cons in Hnd as [Hin Hnd].
  constructor; [by apply IH|].
  apply Forall_forall. intros g' Hg'.
  apply string_not_ltb_strict.
  - by apply (proj1 (Forall_forall _ _) Hg).
  - intros Heq. apply Hin. rewrite Heq. by apply list_elem_of_fmap_2.
Qed.

(** X13: the report has one table for each category that occurs in the
    ranked list, the categories in strictly increasing order, and each
    table lists exactly the entries of its category, in the order of the
    ranked list. *)
Theorem tables_by_category (ranked : list entry) :
  let tables := sorted_items (by_category ranked) in
  StronglySorted (λ g1 g2, String.ltb g1.1 g2.1 = true) tables ∧
  ∀ category items,
    (category, items) ∈ tables ↔
    items = filter (λ e, e_category e = category) ranked ∧ items ≠ [].
Proof.
  cbv zeta. unfold sorted_items.
  pose proof (sort_decorated_perm String.ltb
                (map_to_list (by_category ranked))) as Hperm.
  split.
  - apply StronglySorted_strict.
    + rewrite Hperm. apply NoDup_fst_map_to_list.
    + apply (sort_decorated_sorted String.ltb string_ltb_asym
               string_not_ltb_trans).
  - intros category items.
    by rewrite Hperm, elem_of_map_to_list, by_category_lookup.
Qed.

(** ** The priority distribution *)

Lemma priority_count_cons (e : entry) (l : list entry) (p : string) :
  priority_count (e :: l) p
  = (if decide (e_priority e = p) then 1 else 0) + priority_count l p.
Proof.
  unfold priority_count, len. rewrite filter_cons.
  destruct (decide (e_priority e = p)); simpl length; lia.
Qed.

(** X14: for entries of scans, the four counts of the priority
    distribution add up to the number of untested files printed beside
    them. *)
Theorem priority_distribution_total (untested : list entry) :
  Forall labelled untested →
  priority_count untested "Critical" + priority_count untested "High" +
  priority_count untested "Medium" + priority_count untested "Low"
  = len untested.
Proof.
  induction 1 as [|e l [Hp _] _ IH]; [done|].
  rewrite !priority_count_cons.
  replace (len (e :: l)) with (1 + len l) by (unfold len; simpl length; lia).
  unfold priorities in Hp.
  repeat (apply elem_of_cons in Hp as [-> | Hp]);
    [..|by apply elem_of_nil in Hp];
    repeat case_decide; try done; lia.
Qed.

Lemma priority_distribution_total_witness :
  priority_count
    [ Entry "components/ui/Button.tsx" "Low" "Medium" 200 "UI Components";
      Entry "components/ui/icons.ts" "Low" "Low" 0 "UI Components" ]
    "Critical" +
  priority_count
    [ Entry "components/ui/Button.tsx" "Low" "Medium" 200 "UI Components";
      Entry "components/ui/icons.ts" "Low" "Low" 0 "UI Components" ]
    "High" +
  priority_count
    [ Entry "components/ui/Button.tsx" "Low" "Medium" 200 "UI Components";
      Entry "components/ui/icons.ts" "Low" "Low" 0 "UI Components" ]
    "Medium" +
  priority_count
    [ Entry "components/ui/Button.tsx" "Low" "Medium" 200 "UI Components";
      Entry "components/ui/icons.ts" "Low" "Low" 0 "UI Components" ]
    "Low"
  = 2.
Proof.
  apply (priority_distribution_total
           [ Entry "components/ui/Button.tsx" "Low" "Medium" 200
                   "UI Components";
             Entry "components/ui/icons.ts" "Low" "Low" 0 "UI Components" ]).
  apply (bool_decide_unpack _). vm_compute. reflexivity.
Defined.

(** * Further properties of scripts/generate-test-template.py *)

Import Template.

(** ** Where the skeleton goes *)

Lemma joinpath_slash_free (p q : path) :
  Forall slash_free (parts p) → Forall slash_free (parts q) →
  Forall slash_free (parts (joinpath p q)).
Proof.
  intros Hp Hq. unfold joinpath. destruct (anchored q); [done|].
  cbn [parts]. by apply Forall_app.
Qed.

Lemma name_slash_free (p : path) :
  Forall slash_free (parts p) → slash_free (name p).
Proof.
  unfold name. intros Hp.
  induction Hp as [|x l Hx Hl IH]; [done|].
  destruct l; [done|]. exact IH.
Qed.

(** The file name of the skeleton of a target. *)
Definition test_file_name_of (component_path_str : string) : string :=
  let component_path := div BASEDIR component_path_str in
  stem component_path +:+ ".test" +:+ suffix component_path.

Lemma test_file_name_plain (component_path_str : string) :
  slash_free (test_file_name_of component_path_str) ∧
  test_file_name_of component_path_str ≠ "" ∧
  test_file_name_of component_path_str ≠ ".".
Proof.
  unfold test_file_name_of. cbv zeta.
  set (cp := div BASEDIR component_path_str).
  assert (slash_free (name cp)) as Hn.
  { apply name_slash_free, joinpath_slash_free.
    - apply (bool_decide_unpack _). vm_compute. reflexivity.
    - apply of_string_slash_free. }
  rewrite stem_suffix_name in Hn. apply slash_free_app in Hn as [Hs Hx].
  split; [|split].
  - apply slash_free_app. split; [done|].
    by apply (slash_free_app ".test").
  - intros He. apply (f_equal String.length) in He.
    rewrite !length_append in He. simpl in He. lia.
  - intros He. apply (f_equal String.length) in He.
    rewrite !length_append in He. simpl in He. lia.
Qed.

(** The skeleton is a child of [__tests__], which is a child of the
    directory of the target. *)
Lemma test_file_path_parent (component_path_str : string) :
  parent (test_file_path_of component_path_str)
  = test_dir_of component_path_str ∧
  parent (test_dir_of component_path_str)
  = parent (div BASEDIR component_path_str) ∧
  test_file_path_of component_path_str ≠ test_dir_of component_path_str.
Proof.
  destruct (test_file_name_plain component_path_str) as (Hs & Hne & Hdot).
  unfold test_file_path_of. cbv zeta.
  fold (test_file_name_of component_path_str).
  split; [by apply parent_div_plain|]. split.
  - unfold test_dir_of. by apply parent_div_plain.
  - rewrite div_plain by done. intros He.
    apply (f_equal (λ p, length (parts p))) in He.
    cbn [parts] in He. rewrite length_app in He. simpl in He. lia.
Qed.

(** ** What [create_test_file] does to the file system *)

(** Every node of [fs] is still there, unchanged, in [fs']. *)
Definition kept (fs fs' : filesystem) : Prop :=
  ∀ q n, fs !! q = Some n → fs' !! q = Some n.

Lemma kept_refl (fs : filesystem) : kept fs fs.
Proof. by intros q n. Qed.

Lemma kept_trans (a b c : filesystem) : kept a b → kept b c → kept a c.
Proof. intros Hab Hbc q n Hq. eauto. Qed.

Lemma kept_insert_new (fs : filesystem) (p : path) (n : node) :
  fs !! p = None → kept fs (<[p := n]> fs).
Proof.
  intros Hp q m Hq. rewrite lookup_insert_ne; [done|]. intros ->. congruence.
Qed.

Lemma exists_false_None (fs : filesystem) (p : path) :
  exists_ fs p = false ↔ fs !! p = None.
Proof.
  unfold exists_. rewrite bool_decide_eq_false. split.
  - intros Hn. destruct (fs !! p); [|done]. destruct Hn. eauto.
  - intros ->. by intros [? ?].
Qed.

(** Whether [d.mkdir(exist_ok=True)] goes through in [fs]. *)
Definition can_mkdir (fs : filesystem) (d : path) : Prop :=
  fs !! d = Some Dir ∨ (fs !! d = None ∧ fs !! parent d = Some Dir).

Lemma mkdir_exist_ok_cases (d : path) (w : world) :
  (can_mkdir (files w) d ∧
   mkdir_exist_ok d w = (Ok tt, World (<[d := Dir]> (files w)) (stdout w))) ∨
  (¬ can_mkdir (files w) d ∧ ∃ e, mkdir_exist_ok d w = (Raise e, w)).
Proof.
  unfold mkdir_exist_ok, can_mkdir. destruct w as [fs out]. cbn [files stdout].
  destruct (fs !! d) as [[|c r]|] eqn:Hd.
  - left. split; [by left|]. by rewrite insert_id.
  - right. split; [|eauto]. by intros [|[]].
  - destruct (fs !! parent d) as [[|c r]|];
      [left; split; [by right|done]|right; split; [|eauto]; by intros [|[]]..].
Qed.

Lemma kept_mkdir (fs : filesystem) (d : path) :
  can_mkdir fs d → kept fs (<[d := Dir]> fs).
Proof.
  intros [Hd|[Hd _]].
  - rewrite insert_id by done. apply kept_refl.
  - by apply kept_insert_new.
Qed.

Lemma write_file_new (p : path) (content : string) (w : world) :
  files w !! p = None →
  (files w !! parent p = Some Dir ∧
   write_file p content w
   = (Ok tt, World (<[p := File content true]> (files w)) (stdout w))) ∨
  (files w !! parent p ≠ Some Dir ∧ ∃ e, write_file p content w = (Raise e, w)).
Proof.
  intros Hp. unfold write_file. rewrite Hp.
  destruct (files w !! parent p) as [[|c r]|]; [left|right..]; eauto.
Qed.

(** One call of [create_test_file]: what it returns, the line it prints and
    the file system it leaves, by the state of the file system before. *)
Lemma create_test_file_cases (component_path_str : string) (w : world) :
  let cp := div BASEDIR component_path_str in
  let td := test_dir_of component_path_str in
  let tf := test_file_path_of component_path_str in
  (exists_ (files w) cp = false ∧
   create_test_file component_path_str w
   = (Ok false,
      World (files w) (stdout w ++ ["❌ Component not found: " +:+ str cp]))) ∨
  (exists_ (files w) cp = true ∧ read_text (files w) cp = None ∧
   create_test_file component_path_str w
   = (Ok false,
      World (files w) (stdout w ++ ["Error analyzing " +:+ str cp +:+ ": "
                                    +:+ open_error (files w) cp]))) ∨
  (is_Some (read_text (files w) cp) ∧ ¬ can_mkdir (files w) td ∧
   ∃ e, create_test_file component_path_str w = (Raise e, w)) ∨
  (is_Some (read_text (files w) cp) ∧ can_mkdir (files w) td ∧
   is_Some (files w !! tf) ∧
   create_test_file component_path_str w
   = (Ok false,
      World (<[td := Dir]> (files w))
            (stdout w ++ ["⚠️  Test file already exists: " +:+ str tf]))) ∨
  (∃ content,
     read_text (files w) cp = Some content ∧ can_mkdir (files w) td ∧
     files w !! tf = None ∧
     create_test_file component_path_str w
     = (Ok true,
        World (<[tf := File (generate_test_template cp (inspect cp content))
                            true]> (<[td := Dir]> (files w)))
              (stdout w ++ ["✅ Created test file: " +:+ str tf]))).
Proof.
  cbv zeta. destruct (test_file_path_parent component_path_str)
    as (Hptf & Hptd & Hne).
  set (cp := div BASEDIR component_path_str) in *.
  destruct (exists_ (files w) cp) eqn:He.
  2: { left. split; [done|]. by apply create_test_file_missing. }
  destruct (read_text (files w) cp) as [content|] eqn:Hr.
  2: { right. left. repeat split. by apply create_test_file_unreadable. }
  destruct w as [fs out]. cbn [files stdout] in *.
  unfold test_file_path_of, test_dir_of in *. cbv zeta in *.
  fold cp in Hptf, Hne |- *.
  set (td := div (parent cp) "__tests__") in *.
  set (tf := div td (stem cp +:+ ".test" +:+ suffix cp)) in *.
  destruct (mkdir_exist_ok_cases td (World fs out))
    as [(Hcan & Hmk) | (Hcan & e & Hmk)]; cbn [files stdout] in *.
  2: { right. right. left. repeat split; eauto. exists e.
       run_monad. fold cp. rewrite He. run_monad. rewrite Hr. run_monad.
       fold td. unfold mkdir_exist_ok in Hmk. cbn [files stdout] in Hmk.
       by rewrite Hmk. }
  assert (create_test_file component_path_str (World fs out)
          = (present <- path_exists tf ;;
             if present then
               print ("⚠️  Test file already exists: " +:+ str tf) ;;;
               ret false
             else
               write_file tf (generate_test_template cp (inspect cp content)) ;;;
               print ("✅ Created test file: " +:+ str tf) ;;;
               ret true) (World (<[td := Dir]> fs) out)) as ->.
  { run_monad. fold cp. rewrite He. run_monad. rewrite Hr. run_monad.
    fold td. unfold mkdir_exist_ok in Hmk. cbn [files stdout] in Hmk.
    rewrite Hmk. reflexivity. }
  assert (<[td := Dir]> fs !! tf = fs !! tf) as Htf
    by by rewrite lookup_insert_ne.
  destruct (fs !! tf) as [n|] eqn:Etf.
  - right. right. right. left. repeat split; eauto.
    unfold bind, path_exists, exists_, print, ret. cbn [files stdout].
    rewrite Htf, bool_decide_eq_true_2 by eauto. reflexivity.
  - do 4 right. exists content. repeat split; eauto.
    unfold bind, path_exists, exists_, print, ret, write_file.
    cbn [files stdout].
    rewrite Htf, bool_decide_eq_false_2 by (by intros [? ?]).
    cbn [files stdout]. rewrite Htf, Hptf, lookup_insert_eq. reflexivity.
Qed.

Lemma read_text_kept (fs fs' : filesystem) (p : path) (content : string) :
  kept fs fs' → read_text fs p = Some content → read_text fs' p = Some content.
Proof.
  intros Hk. unfold read_text. destruct (fs !! p) as [n|] eqn:E; [|done].
  by rewrite (Hk _ _ E).
Qed.

Lemma read_text_lookup (fs : filesystem) (p : path) (content : string) :
  read_text fs p = Some content ↔ fs !! p = Some (File content true).
Proof.
  unfold read_text. destruct (fs !! p) as [[|c [|]]|]; split; congruence.
Qed.

Lemma can_mkdir_not_read (fs : filesystem) (p d : path) :
  is_Some (read_text fs p) → can_mkdir fs d → p ≠ d.
Proof.
  intros [c Hc%read_text_lookup] Hd ->.
  destruct Hd as [Hd|[Hd _]]; congruence.
Qed.

(** X15: [create_test_file] never removes or changes a node that was there;
    the only places it can add are the [__tests__] directory and the skeleton
    of its target; it prints one line when it returns and none when it
    raises, and a call that raises leaves the world as it was. *)
Theorem create_test_file_keeps_files (component_path_str : string)
    (w : world) :
  let r := (create_test_file component_path_str w).1 in
  let w' := (create_test_file component_path_str w).2 in
  kept (files w) (files w') ∧
  (∀ q, q ≠ test_dir_of component_path_str →
        q ≠ test_file_path_of component_path_str →
        files w' !! q = files w !! q) ∧
  ((∃ (b : bool) line, r = Ok b ∧ stdout w' = (stdout w ++ [line])%list) ∨
   (∃ e, r = Raise e ∧ w' = w)).
Proof.
  cbv zeta.
  destruct (create_test_file_cases component_path_str w)
    as [(_ & ->) | [(_ & _ & ->) | [(_ & _ & e & ->) |
        [(_ & Hcan & _ & ->) | (content & _ & Hcan & Htf & ->)]]]];
    cbn [fst snd files stdout].
  - split; [apply kept_refl|]. split; [done|]. left. eauto.
  - split; [apply kept_refl|]. split; [done|]. left. eauto.
  - split; [apply kept_refl|]. split; [done|]. right. eauto.
  - split; [by apply kept_mkdir|]. split; [|left; eauto].
    intros q Hq _. by rewrite lookup_insert_ne.
  - split; [|split; [|left; eauto]].
    + eapply kept_trans; [by apply kept_mkdir|].
      apply kept_insert_new.
      rewrite lookup_insert_ne; [done|].
      apply not_eq_sym, test_file_path_parent.
    + intros q Hq Hq'. by rewrite !lookup_insert_ne.
Qed.

(** X16: [create_test_file] returns [True] exactly when the target can be
    read, its [__tests__] directory is there or can be made, and the skeleton
    is not there yet. *)
Theorem create_test_file_creates_iff (component_path_str : string)
    (w : world) :
  (create_test_file component_path_str w).1 = Ok true ↔
  is_Some (read_text (files w) (div BASEDIR component_path_str)) ∧
  can_mkdir (files w) (test_dir_of component_path_str) ∧
  files w !! test_file_path_of component_path_str = None.
Proof.
  destruct (create_test_file_cases component_path_str w)
    as [(He & ->) | [(_ & Hr & ->) | [(_ & Hcan & e & ->) |
        [(_ & _ & Htf & ->) | (content & Hr & Hcan & Htf & ->)]]]];
    cbn [fst snd files stdout].
  - split; [done|]. intros ([c Hc%read_text_lookup] & _).
    apply exists_false_None in He. congruence.
  - split; [done|]. intros ([c Hc] & _). congruence.
  - split; [done|]. by intros (_ & ? & _).
  - split; [done|]. intros (_ & _ & Hn). rewrite Hn in Htf. by destruct Htf.
  - split; [|done]. intros _. rewrite Hr. eauto.
Qed.

(** ** Running the generator again *)

Lemma exists_true_Some (fs : filesystem) (p : path) :
  exists_ fs p = true ↔ is_Some (fs !! p).
Proof. unfold exists_. apply bool_decide_eq_true. Qed.

Lemma create_test_file_after_mkdir (component_path_str : string)
    (fs : filesystem) (out : list string) :
  is_Some (read_text fs (div BASEDIR component_path_str)) →
  can_mkdir fs (test_dir_of component_path_str) →
  is_Some (fs !! test_file_path_of component_path_str) →
  let fs1 := <[test_dir_of component_path_str := Dir]> fs in
  create_test_file component_path_str (World fs1 out)
  = (Ok false,
     World fs1 (out ++ ["⚠️  Test file already exists: "
                        +:+ str (test_file_path_of component_path_str)])).
Proof.
  intros Hr Hcan Htf fs1.
  destruct (test_file_path_parent component_path_str) as (_ & _ & Hne).
  pose proof (can_mkdir_not_read _ _ _ Hr Hcan) as Hcp.
  apply (create_test_file_present _ (World fs1 out)); cbn [files stdout].
  - destruct Hr as [c Hc]. exists c. eapply read_text_kept; [|exact Hc].
    by apply kept_mkdir.
  - apply lookup_insert_eq.
  - apply exists_true_Some. unfold fs1. by rewrite lookup_insert_ne.
Qed.

Lemma create_test_file_after_create (component_path_str : string)
    (fs : filesystem) (out : list string) (n : node) :
  is_Some (read_text fs (div BASEDIR component_path_str)) →
  can_mkdir fs (test_dir_of component_path_str) →
  fs !! test_file_path_of component_path_str = None →
  let fs1 := <[test_file_path_of component_path_str := n]>
               (<[test_dir_of component_path_str := Dir]> fs) in
  create_test_file component_path_str (World fs1 out)
  = (Ok false,
     World fs1 (out ++ ["⚠️  Test file already exists: "
                        +:+ str (test_file_path_of component_path_str)])).
Proof.
  intros Hr Hcan Htf fs1.
  destruct (test_file_path_parent component_path_str) as (_ & _ & Hne).
  pose proof (can_mkdir_not_read _ _ _ Hr Hcan) as Hcp.
  apply (create_test_file_present _ (World fs1 out)); cbn [files stdout].
  - destruct Hr as [c Hc]. exists c. eapply read_text_kept; [|exact Hc].
    eapply kept_trans; [by apply kept_mkdir|]. apply kept_insert_new.
    by rewrite lookup_insert_ne.
  - unfold fs1. rewrite lookup_insert_ne by done. apply lookup_insert_eq.
  - apply exists_true_Some. unfold fs1. rewrite lookup_insert_eq. eauto.
Qed.

(** X17: a call that created a skeleton is followed by calls that skip it:
    the next call for the same target returns [False], reports that the test
    file already exists, and leaves the file system as the first call left
    it. *)
Theorem create_test_file_rerun (component_path_str : string) (w : world) :
  (create_test_file component_path_str w).1 = Ok true →
  let w1 := (create_test_file component_path_str w).2 in
  create_test_file component_path_str w1
  = (Ok false,
     World (files w1)
           (stdout w1 ++ ["⚠️  Test file already exists: "
                          +:+ str (test_file_path_of component_path_str)])).
Proof.
  intros Hc w1. unfold w1. clear w1. revert Hc.
  destruct (create_test_file_cases component_path_str w)
    as [(He & ->) | [(_ & Hr & ->) | [(_ & Hcan & e & ->) |
        [(_ & _ & Htf & ->) | (content & Hr & Hcan & Htf & ->)]]]];
    cbn [fst snd files stdout]; try done.
  intros _. apply create_test_file_after_create; [|done..].
  rewrite Hr. eauto.
Qed.

(** A tree where [AgentsClient.tsx] has no test and no [__tests__]
    directory yet. *)
Definition first_run_world : world :=
  World (<[div agents_dir "AgentsClient.tsx" :=
             File "'use client'; const [rows, setRows] = useState([]);" true]>
         (<[agents_dir := Dir]> ∅))
        [].

Lemma create_test_file_rerun_witness :
  (create_test_file "app/dashboard/agents/AgentsClient.tsx"
     first_run_world).1 = Ok true ∧
  (create_test_file "app/dashboard/agents/AgentsClient.tsx"
     (create_test_file "app/dashboard/agents/AgentsClient.tsx"
        first_run_world).2).1
  = Ok false.
Proof.
  assert ((create_test_file "app/dashboard/agents/AgentsClient.tsx"
             first_run_world).1 = Ok true) as Hfirst
    by (vm_compute; reflexivity).
  split; [exact Hfirst|].
  pose proof (create_test_file_rerun "app/dashboard/agents/AgentsClient.tsx"
                first_run_world Hfirst) as Hsecond.
  cbv zeta in Hsecond. rewrite Hsecond. reflexivity.
Defined.

(** X18: whatever the first call did, a second call for the same target
    leaves the file system as the first one left it, and it never returns
    [True]. *)
Theorem create_test_file_settles (component_path_str : string) (w : world) :
  let w1 := (create_test_file component_path_str w).2 in
  files (create_test_file component_path_str w1).2 = files w1 ∧
  (create_test_file component_path_str w1).1 ≠ Ok true.
Proof.
  cbv zeta.
  destruct (create_test_file_cases component_path_str w)
    as [(He & Hc) | [(He & Hr & Hc) | [(_ & Hcan & e & Hc) |
        [(Hr & Hcan & Htf & Hc) | (content & Hr & Hcan & Htf & Hc)]]]];
    rewrite Hc; cbn [fst snd files stdout].
  - by rewrite (create_test_file_missing _ (World _ _)).
  - by rewrite (create_test_file_unreadable _ (World _ _)).
  - by rewrite Hc.
  - by rewrite create_test_file_after_mkdir.
  - rewrite create_test_file_after_create; [done| |done..].
    rewrite Hr. eauto.
Qed.

(** ** The loop of [main] *)

Lemma process_cases (t : tally) (i : Z) (component_path_str : string)
    (w : world) :
  let readable :=
    is_Some (read_text (files w) (div BASEDIR component_path_str)) in
  let dir_ok := can_mkdir (files w) (test_dir_of component_path_str) in
  let free := files w !! test_file_path_of component_path_str = None in
  ∃ t' fs' line,
    process t (i, component_path_str) w
    = (Ok t', World fs' (stdout w ++ [processing_line i component_path_str;
                                      line])) ∧
    kept (files w) fs' ∧
    ((readable ∧ dir_ok ∧ free ∧
      t' = Tally (created t + 1) (skipped t) (errors t)) ∨
     ((¬ readable ∨ (dir_ok ∧ ¬ free)) ∧
      t' = Tally (created t) (skipped t + 1) (errors t)) ∨
     (readable ∧ ¬ dir_ok ∧ fs' = files w ∧
      t' = Tally (created t) (skipped t) (errors t + 1))).
Proof.
  cbv zeta.
  set (w0 := World (files w)
                   (stdout w ++ [processing_line i component_path_str])).
  assert (process t (i, component_path_str) w
          = match create_test_file component_path_str w0 with
            | (Ok true, w') =>
                (Ok (Tally (created t + 1) (skipped t) (errors t)), w')
            | (Ok false, w') =>
                (Ok (Tally (created t) (skipped t + 1) (errors t)), w')
            | (Raise e, w') =>
                (Ok (Tally (created t) (skipped t) (errors t + 1)),
                 World (files w') (stdout w' ++ ["❌ Error: " +:+ e]))
            end) as ->.
  { unfold process, bind at 1, print at 1, try_except, bind, ret, print.
    fold (processing_line i component_path_str). fold w0.
    destruct (create_test_file component_path_str w0) as [[[|]|e] w'];
      reflexivity. }
  pose proof (create_test_file_cases component_path_str w0) as Hc0.
  subst w0. cbv zeta in Hc0. cbn [files stdout] in Hc0.
  destruct Hc0 as [(He & ->) | [(He & Hr & ->) | [(Hr & Hcan & e & ->) |
        [(Hr & Hcan & Htf & ->) | (content & Hr & Hcan & Htf & ->)]]]];
    eexists _, _, _; cbn [files stdout]; rewrite <-?app_assoc; cbn [app];
    (split; [reflexivity|]).
  - split; [apply kept_refl|]. right. left. split; [|done]. left.
    intros [c Hc%read_text_lookup]. apply exists_false_None in He. congruence.
  - split; [apply kept_refl|]. right. left. split; [|done]. left.
    intros [c Hc]. congruence.
  - split; [apply kept_refl|]. right. right. done.
  - split; [by apply kept_mkdir|]. right. left. split; [|done]. right.
    split; [done|]. intros Hn. rewrite Hn in Htf. by destruct Htf.
  - split.
    + eapply kept_trans; [by apply kept_mkdir|]. apply kept_insert_new.
      rewrite lookup_insert_ne; [done|].
      apply not_eq_sym, test_file_path_parent.
    + left. rewrite Hr. eauto.
Qed.

(** X19: one item of the loop of [main] never raises and adds one to exactly
    one counter: to created when the target can be read, its [__tests__]
    directory is there or can be made and the skeleton is not there yet; to
    errors when the target can be read but [__tests__] can neither be found
    nor made, and then the file system is left as it was; to skipped in every
    other case. *)
Theorem process_counts_by_outcome (t : tally) (i : Z)
    (component_path_str : string) (w : world) :
  let readable :=
    is_Some (read_text (files w) (div BASEDIR component_path_str)) in
  let dir_ok := can_mkdir (files w) (test_dir_of component_path_str) in
  let free := files w !! test_file_path_of component_path_str = None in
  ∃ t' w',
    process t (i, component_path_str) w = (Ok t', w') ∧
    created t' + skipped t' + errors t'
    = created t + skipped t + errors t + 1 ∧
    created t ≤ created t' ∧ skipped t ≤ skipped t' ∧
    errors t ≤ errors t' ∧
    (created t' = created t + 1 ↔ readable ∧ dir_ok ∧ free) ∧
    (errors t' = errors t + 1 ↔ readable ∧ ¬ dir_ok) ∧
    (skipped t' = skipped t + 1 ↔ ¬ readable ∨ (dir_ok ∧ ¬ free)) ∧
    (errors t' = errors t + 1 → files w' = files w).
Proof.
  pose proof (process_cases t i component_path_str w) as Hpc.
  cbv zeta in *.
  destruct Hpc as (t' & fs' & line & Hp & Hk & Hcount).
  eexists _, _. split; [exact Hp|]. cbn [files].
  destruct Hcount as [(Hr & Hd & Hf & ->) | [(Hn & ->) | (Hr & Hd & -> & ->)]];
    cbn [created skipped errors];
    (split; [lia|]); (split; [lia|]); (split; [lia|]); (split; [lia|]).
  - split; [tauto|]. split; [|split]; [split; [lia|tauto]..|lia].
  - split; [|split; [|split]]; [split; [lia|tauto]..|tauto|lia].
  - split; [|split; [|split]]; [split; [lia|tauto]|tauto|split; [lia|tauto]|
                                 done].
Qed.

Lemma for_each_process (items : list (Z * string)) (t : tally) (w : world) :
  ∃ t' fs' out,
    Template.for_each process items t w
    = (Ok t', World fs' (stdout w ++ out)) ∧
    created t ≤ created t' ∧ skipped t ≤ skipped t' ∧ errors t ≤ errors t' ∧
    created t' + skipped t' + errors t'
    = created t + skipped t + errors t + Z.of_nat (length items) ∧
    kept (files w) fs' ∧ length out = (2 * length items)%nat.
Proof.
  revert t w. induction items as [|[i s] items IH]; intros t w.
  - exists t, (files w), []. rewrite app_nil_r. destruct w.
    repeat split; try done; try apply kept_refl; cbn [length]; lia.
  - pose proof (process_cases t i s w) as Hpc. cbv zeta in Hpc.
    destruct Hpc as (t1 & fs1 & line & Hp & Hk & Hcount).
    destruct (IH t1 (World fs1 (stdout w ++ [processing_line i s; line])))
      as (t' & fs' & out & Hf & Hc & Hs & He & Hsum & Hk' & Hlen).
    cbn [files stdout] in *.
    exists t', fs', (processing_line i s :: line :: out).
    cbn [Template.for_each]. unfold bind. rewrite Hp, Hf.
    rewrite <-app_assoc. cbn [app].
    assert (created t ≤ created t1 ∧ skipped t ≤ skipped t1 ∧
            errors t ≤ errors t1 ∧
            created t1 + skipped t1 + errors t1
            = created t + skipped t + errors t + 1) as (? & ? & ? & ?)
      by (destruct Hcount as [(_ & _ & _ & ->) | [(_ & ->) | (_ & _ & _ & ->)]];
          cbn; lia).
    repeat split; try lia; [cbn [length]; lia|by eapply kept_trans|].
    cbn [length]. lia.
Qed.

(** X20: the loop of [main] never raises, whatever the file system holds:
    every one of the twenty targets adds one to exactly one of the three
    counters, so the counts of the summary add up to 20; two lines are
    printed for each target; and no node that was there is removed or
    changed. *)
Theorem main_accounts_for_every_target (w : world) :
  ∃ t fs' out,
    main w
    = (Ok tt,
       World fs'
         (stdout w
          ++ ["=== Generating Test Files for Top 20 Components ===" +:+
              String LF ""]
          ++ out
          ++ [ String LF (repeat_str "=" 60); "Summary:";
               "  ✅ Created: " +:+ pretty (created t);
               "  ⚠️  Skipped: " +:+ pretty (skipped t);
               "  ❌ Errors: " +:+ pretty (errors t);
               repeat_str "=" 60 +:+ String LF "" ])) ∧
    created t + skipped t + errors t = 20 ∧
    0 ≤ created t ∧ 0 ≤ skipped t ∧ 0 ≤ errors t ∧
    length out = 40%nat ∧ kept (files w) fs'.
Proof.
  set (banner := "=== Generating Test Files for Top 20 Components ===" +:+
                 String LF "").
  destruct (for_each_process (Template.enumerate TOP_20_COMPONENTS 1)
              (Tally 0 0 0) (World (files w) (stdout w ++ [banner])))
    as (t & fs' & out & Hf & Hc & Hs & He & Hsum & Hk & Hlen).
  cbn [files stdout created skipped errors] in *.
  exists t, fs', out. split.
  - unfold main, bind at 1, print at 1. fold banner.
    unfold bind at 1, batch. rewrite Hf.
    unfold summary, bind, print. cbn [files stdout].
    rewrite <-!app_assoc. reflexivity.
  - repeat split; try lia; try done.
Qed.

(** ** The skeleton that was written, read back *)

(** X21: when [create_test_file] returns [True], reading the skeleton back
    gives, line by line, the lines of the template for what
    [analyze_component] found in the target; the target itself is as it
    was. *)
Theorem created_skeleton_read_back (component_path_str : string) (w : world) :
  newline_free (stem (div BASEDIR component_path_str)) = true →
  (create_test_file component_path_str w).1 = Ok true →
  let component_path := div BASEDIR component_path_str in
  let w' := (create_test_file component_path_str w).2 in
  ∃ content,
    read_text (files w) component_path = Some content ∧
    read_text (files w') component_path = Some content ∧
    text_lines <$> read_text (files w') (test_file_path_of component_path_str)
    = Some (skeleton_lines (inspect component_path content)).
Proof.
  intros Hn Hc. cbv zeta. revert Hc.
  destruct (create_test_file_cases component_path_str w)
    as [(He & ->) | [(_ & Hr & ->) | [(_ & Hcan & e & ->) |
        [(_ & _ & Htf & ->) | (content & Hr & Hcan & Htf & ->)]]]];
    cbn [fst snd files stdout]; try done.
  intros _. exists content. split; [done|].
  destruct (test_file_path_parent component_path_str) as (_ & _ & Hne).
  split.
  - eapply read_text_kept; [|exact Hr].
    eapply kept_trans; [by apply kept_mkdir|]. apply kept_insert_new.
    by rewrite lookup_insert_ne.
  - unfold read_text at 1. rewrite lookup_insert_eq. cbn [fmap option_fmap option_map].
    f_equal. apply generate_test_template_text_lines.
    + exact Hn.
    + apply inspect_state_hooks_newline_free.
Qed.

Lemma created_skeleton_read_back_witness :
  ∃ content,
    read_text (files first_run_world)
      (div BASEDIR "app/dashboard/agents/AgentsClient.tsx") = Some content ∧
    text_lines <$>
      read_text
        (files (create_test_file "app/dashboard/agents/AgentsClient.tsx"
                  first_run_world).2)
        (test_file_path_of "app/dashboard/agents/AgentsClient.tsx")
    = Some (skeleton_lines
              (inspect (div BASEDIR "app/dashboard/agents/AgentsClient.tsx")
                       content)).
Proof.
  destruct (created_skeleton_read_back
              "app/dashboard/agents/AgentsClient.tsx" first_run_world)
    as (content & Hr & _ & Hback).
  - vm_compute. reflexivity.
  - vm_compute. reflexivity.
  - exists content. split; [exact Hr|exact Hback].
Defined.

(** ** The two scripts together *)

Lemma join_elem_occurs (sep x : string) (l : list string) :
  x ∈ l → occurs_in x (join sep l).
Proof.
  induction l as [|y l IH]; [by intros ?%elem_of_nil|].
  intros [->|Hx]%elem_of_cons.
  - destruct l as [|z l];
      [exists "", ""; cbn [join String.append]; by rewrite append_nil_r|].
    rewrite join_cons_cons. by exists "", (sep +:+ join sep (z :: l)).
  - destruct l as [|z l]; [by apply elem_of_nil in Hx|].
    rewrite join_cons_cons. destruct (IH Hx) as (pre & post & ->).
    exists (y +:+ sep +:+ pre), post. by rewrite !append_assoc.
Qed.

Lemma part_occurs_in_str (p : path) (x : string) :
  x ∈ parts p → occurs_in x (str p).
Proof.
  intros Hx. pose proof (join_elem_occurs "/" x _ Hx) as (pre & post & Hj).
  unfold str, str_path, path_str.
  destruct (anchored p), (parts p) as [|y ps] eqn:E;
    try (by apply elem_of_nil in Hx); rewrite Hj.
  - by exists ("/" +:+ pre), post.
  - by exists pre, post.
Qed.

Lemma test_file_path_skipped (component_path_str : string) :
  Coverage.skipped (test_file_path_of component_path_str) = true.
Proof.
  unfold Coverage.skipped. apply orb_true_iff. left. apply orb_true_iff. left.
  apply str_in_true, part_occurs_in_str.
  destruct (test_file_name_plain component_path_str) as (Hs & Hne & Hdot).
  unfold test_file_path_of. cbv zeta.
  fold (test_file_name_of component_path_str).
  rewrite div_plain by done. cbn [parts]. unfold test_dir_of.
  rewrite (div_plain _ "__tests__") by (done || by vm_compute).
  cbn [parts]. apply elem_of_app. left. apply elem_of_app. right.
  apply list_elem_of_singleton. reflexivity.
Qed.

(** X22: the skeleton that [create_test_file] writes is the test file the
    coverage scan looks for: after a call that returned [True], the scan's
    visit of the target, under the extension the target has, reports
    nothing; and the skeleton itself, lying inside [__tests__], is never
    reported as a file without a test. *)
Theorem created_skeleton_closes_gap (component_path_str : string) (w : world)
    (category : string) (results : list entry) :
  (create_test_file component_path_str w).1 = Ok true →
  let component_path := div BASEDIR component_path_str in
  let fs' := files (create_test_file component_path_str w).2 in
  exists_ (files w)
    (Coverage.test_file_of component_path (suffix component_path)) = false ∧
  Coverage.visit fs' category (suffix component_path) results component_path
  = Some results ∧
  ∀ ext,
    Coverage.visit fs' category ext results
      (test_file_path_of component_path_str)
    = Some results.
Proof.
  intros Hc. cbv zeta. revert Hc.
  destruct (create_test_file_cases component_path_str w)
    as [(He & ->) | [(_ & Hr & ->) | [(_ & Hcan & e & ->) |
        [(_ & _ & Htf & ->) | (content & Hr & Hcan & Htf & ->)]]]];
    cbn [fst snd files stdout]; try done.
  intros _.
  change (Coverage.test_file_of (div BASEDIR component_path_str)
            (suffix (div BASEDIR component_path_str)))
    with (test_file_path_of component_path_str).
  split; [by apply exists_false_None|]. split.
  - unfold Coverage.visit.
    destruct (Coverage.skipped (div BASEDIR component_path_str)); [done|].
    change (Coverage.test_file_of (div BASEDIR component_path_str)
              (suffix (div BASEDIR component_path_str)))
      with (test_file_path_of component_path_str).
    cbv zeta. unfold exists_. rewrite lookup_insert_eq.
    rewrite bool_decide_eq_true_2 by eauto. reflexivity.
  - intros ext. unfold Coverage.visit.
    by rewrite test_file_path_skipped.
Qed.

Lemma created_skeleton_closes_gap_witness :
  Coverage.visit
    (files (create_test_file "app/dashboard/agents/AgentsClient.tsx"
              first_run_world).2)
    "App Router" ".tsx" []
    (div BASEDIR "app/dashboard/agents/AgentsClient.tsx")
  = Some [] ∧
  is_Some (Coverage.visit (files first_run_world) "App Router" ".tsx" []
             (div BASEDIR "app/dashboard/agents/AgentsClient.tsx")
           ≫= head).
Proof.
  split.
  - apply (created_skeleton_closes_gap "app/dashboard/agents/AgentsClient.tsx"
             first_run_world "App Router" []).
    vm_compute. reflexivity.
  - vm_compute. eauto.
Defined.

(** ** What the regular expression for state hooks finds *)

Lemma re_state_hook_declaration (v V rest : string) :
  v ≠ "" → all_chars is_word v = true →
  V ≠ "" → all_chars is_word V = true →
  re_state_hook ("const [" +:+ v +:+ ", set" +:+ V +:+ "] = useState"
                 +:+ rest)
  = Some (v, rest).
Proof.
  intros Hv Hvw HV HVw. unfold re_state_hook.
  set (after_v := ", set" +:+ V +:+ "] = useState" +:+ rest).
  set (after_V := "] = useState" +:+ rest).
  change ("const [" +:+ v +:+ after_v)
    with ("const" +:+ " [" +:+ v +:+ after_v).
  rewrite lit_app. cbn [mbind option_bind].
  change (plus is_space (" [" +:+ v +:+ after_v))
    with (Some (" ", "[" +:+ v +:+ after_v)).
  cbn [mbind option_bind]. rewrite lit_app. cbn [mbind option_bind].
  rewrite (plus_app is_word v) by done. cbn [mbind option_bind].
  change after_v with ("," +:+ " set" +:+ V +:+ after_V).
  rewrite lit_app. cbn [mbind option_bind].
  change (star is_space (" set" +:+ V +:+ after_V))
    with ("set" +:+ V +:+ after_V).
  rewrite lit_app. cbn [mbind option_bind].
  rewrite (plus_app is_word V) by done. cbn [mbind option_bind].
  change after_V with ("]" +:+ " = useState" +:+ rest).
  rewrite lit_app. cbn [mbind option_bind].
  change (star is_space (" = useState" +:+ rest))
    with ("=" +:+ " useState" +:+ rest).
  rewrite lit_app. cbn [mbind option_bind].
  change (star is_space (" useState" +:+ rest)) with ("useState" +:+ rest).
  rewrite lit_app. reflexivity.
Qed.

Lemma findall_skip (re : string → option (string * string)) (a rest : string) :
  findall re (String.length a) (a +:+ rest) = findall re 0 rest.
Proof.
  induction a as [|c a IH]; [|exact IH].
  destruct rest; reflexivity.
Qed.

Lemma findall_match (re : string → option (string * string))
    (c : ascii) (a g rest : string) :
  re (String c a +:+ rest) = Some (g, rest) →
  findall re 0 (String c a +:+ rest) = g :: findall re 0 rest.
Proof.
  intros Hre. cbn [String.append] in *. cbn [findall]. rewrite Hre.
  f_equal. rewrite <-(findall_skip re a rest). f_equal.
  cbn [String.length]. rewrite length_append. lia.
Qed.

(** X23: a state declaration in the usual form,
    [const [v, setV] = useState], at the start of the text is found with its
    variable as the name, and the search goes on after it. *)
Theorem state_hook_declaration_found (v V rest : string) :
  v ≠ "" → all_chars is_word v = true →
  V ≠ "" → all_chars is_word V = true →
  findall re_state_hook 0
    ("const [" +:+ v +:+ ", set" +:+ V +:+ "] = useState" +:+ rest)
  = v :: findall re_state_hook 0 rest.
Proof.
  intros Hv Hvw HV HVw.
  pose proof (re_state_hook_declaration v V rest Hv Hvw HV HVw) as Hre.
  change ("const [" +:+ v +:+ ", set" +:+ V +:+ "] = useState" +:+ rest)
    with (String "c" ("onst [" +:+ v +:+ ", set" +:+ V +:+ "] = useState"
                      +:+ rest)) in *.
  rewrite <-!append_assoc in *.
  change (String "c" ((((("onst [" +:+ v) +:+ ", set") +:+ V)
                        +:+ "] = useState") +:+ rest))
    with (String "c" (((("onst [" +:+ v) +:+ ", set") +:+ V)
                        +:+ "] = useState") +:+ rest) in *.
  by apply findall_match.
Qed.

Lemma state_hook_declaration_found_witness :
  findall re_state_hook 0
    ("const [" +:+ "rows" +:+ ", set" +:+ "Rows" +:+ "] = useState"
     +:+ "<Row[]>([]);")
  = ["rows"].
Proof.
  rewrite (state_hook_declaration_found "rows" "Rows" "<Row[]>([]);").
  - reflexivity.
  - done.
  - reflexivity.
  - done.
  - reflexivity.
Defined.

(** ** The shape of the skeleton *)

(** A line that opens a section, and a line that opens a test case. *)
Definition is_section_line (line : string) : Prop :=
  starts_with "  describe('" line = true.

Definition is_case_line (line : string) : Prop :=
  starts_with "    it('" line = true.

#[local] Instance is_section_line_dec (line : string) :
  Decision (is_section_line line).
Proof. unfold is_section_line. apply _. Defined.

#[local] Instance is_case_line_dec (line : string) :
  Decision (is_case_line line).
Proof. unfold is_case_line. apply _. Defined.

#[local] Instance section_present_dec (info : info) (title : string) :
  Decision (section_present info title = true).
Proof. apply _. Defined.

Ltac filter_blocks P :=
  repeat match goal with
         | |- context [filter P ?B] =>
             lazymatch B with
             | (_ ++ _)%list => fail
             | _ =>
                 let r := eval vm_compute in (filter P B) in
                 let E := fresh in
                 assert (filter P B = r) as E by (vm_compute; reflexivity);
                 rewrite E; clear E
             end
         end.

Lemma section_lines_of_state_cases (n : string) (l : list string) :
  filter is_section_line (flat_map (state_case_lines n) l) = [].
Proof.
  induction l as [|v l IH]; [done|].
  cbn [flat_map]. rewrite filter_app, IH. vm_compute. reflexivity.
Qed.

Lemma case_lines_of_state_cases (n : string) (l : list string) :
  length (filter is_case_line (flat_map (state_case_lines n) l)) = length l.
Proof.
  induction l as [|v l IH]; [done|].
  cbn [flat_map]. rewrite filter_app, length_app, IH. reflexivity.
Qed.

Lemma section_lines_of_skeleton (info : info) :
  filter is_section_line (skeleton_lines info)
  = section_header <$> filter (λ title, section_present info title = true)
                              titles.
Proof.
  destruct info as [n client hooks funcs form api mut].
  unfold skeleton_lines. cbv zeta.
  cbn [component_name state_hooks has_form api_calls has_mutations].
  destruct hooks as [|v vs], form, api, mut; cbv match;
    rewrite ?filter_app, ?section_lines_of_state_cases;
    vm_compute; reflexivity.
Qed.

Lemma case_lines_of_skeleton (info : info) :
  Z.of_nat (length (filter is_case_line (skeleton_lines info)))
  = 13 + Z.of_nat (length (state_hooks info)) `min` 3
    + (if has_form info then 3 else 0)
    + (if api_calls info then 3 else 0)
    + (if has_mutations info then 3 else 0).
Proof.
  destruct info as [n client hooks funcs form api mut].
  unfold skeleton_lines. cbv zeta.
  cbn [component_name state_hooks has_form api_calls has_mutations].
  assert (Z.of_nat (length hooks) `min` 3 = Z.of_nat (length (take 3 hooks)))
    as -> by (rewrite length_take; lia).
  destruct hooks as [|v vs], form, api, mut; cbv match;
    rewrite ?filter_app, ?length_app, ?case_lines_of_state_cases;
    filter_blocks is_case_line; cbn [length take]; lia.
Qed.

(** X24: the sections of a skeleton come in one fixed order (rendering,
    state management, form handling, API integration, data mutations, user
    interactions, accessibility, error handling, edge cases), each at most
    once, and no other line opens a section. *)
Theorem skeleton_sections_in_order (component_path : path) (content : string) :
  newline_free (stem component_path) = true →
  let info := inspect component_path content in
  filter is_section_line
         (text_lines (generate_test_template component_path info))
  = section_header <$> filter (λ title, section_present info title = true)
                              titles.
Proof.
  intros Hn info.
  rewrite generate_test_template_text_lines.
  - apply section_lines_of_skeleton.
  - exact Hn.
  - apply inspect_state_hooks_newline_free.
Qed.

Lemma skeleton_sections_in_order_witness :
  filter is_section_line
    (text_lines
       (generate_test_template (of_string "services/QNNApiClient.ts")
          (inspect (of_string "services/QNNApiClient.ts")
                   "export const load = async () => fetch('/qnn');")))
  = section_header <$> [ "Rendering"; "API Integration"; "User Interactions";
                         "Accessibility"; "Error Handling"; "Edge Cases" ].
Proof.
  rewrite (skeleton_sections_in_order (of_string "services/QNNApiClient.ts")
             "export const load = async () => fetch('/qnn');").
  - vm_compute. reflexivity.
  - vm_compute. reflexivity.
Defined.

(** X25: a skeleton has thirteen test cases that are always there, one for
    each of the first three state variables found, and three each for the
    form, the API and the mutation section when they are there: between 13
    and 25 in all. *)
Theorem skeleton_test_cases (component_path : path) (content : string) :
  newline_free (stem component_path) = true →
  let info := inspect component_path content in
  let cases :=
    Z.of_nat (length (filter is_case_line
                        (text_lines
                           (generate_test_template component_path info)))) in
  cases = 13 + Z.of_nat (length (state_hooks info)) `min` 3
          + (if has_form info then 3 else 0)
          + (if api_calls info then 3 else 0)
          + (if has_mutations info then 3 else 0) ∧
  13 ≤ cases ≤ 25.
Proof.
  intros Hn info cases. unfold cases.
  rewrite generate_test_template_text_lines;
    [|exact Hn|apply inspect_state_hooks_newline_free].
  rewrite case_lines_of_skeleton. split; [done|].
  destruct (has_form info), (api_calls info), (has_mutations info); lia.
Qed.

Lemma skeleton_test_cases_witness :
  Z.of_nat
    (length
       (filter is_case_line
          (text_lines
             (generate_test_template (of_string "app/ai-kit/AIKitClient.tsx")
                (inspect (of_string "app/ai-kit/AIKitClient.tsx")
                   "const [a, setA] = useState(0); <form onSubmit={save}>")))))
  = 17.
Proof.
  destruct (skeleton_test_cases (of_string "app/ai-kit/AIKitClient.tsx")
              "const [a, setA] = useState(0); <form onSubmit={save}>")
    as [Hcases _].
  - vm_compute. reflexivity.
  - rewrite Hcases. vm_compute. reflexivity.
Defined.

(** X26: the skeleton depends only on the component name, the first three
    state variables and the form, API and mutation flags: the path and its
    extension, the client flag, the asynchronous functions and any further
    state variable never change it. *)
Theorem skeleton_ignores_the_rest (p q : path) (i j : info) :
  component_name i = component_name j →
  take 3 (state_hooks i) = take 3 (state_hooks j) →
  has_form i = has_form j → api_calls i = api_calls j →
  has_mutations i = has_mutations j →
  generate_test_template p i = generate_test_template q j.
Proof.
  intros Hn Hh Hf Ha Hm. rewrite !generate_test_template_lines.
  f_equal. unfold skeleton_lines. cbv zeta. rewrite Hn, Hh, Hf, Ha, Hm.
  do 2 f_equal.
  destruct (state_hooks i), (state_hooks j); done.
Qed.

Lemma skeleton_ignores_the_rest_witness :
  generate_test_template (of_string "lib/useCart.ts")
    (Info "useCart" false ["a"; "b"; "c"; "d"] ["load"] true false false)
  = generate_test_template (of_string "components/useCart.tsx")
      (Info "useCart" true ["a"; "b"; "c"] [] true false false).
Proof.
  apply skeleton_ignores_the_rest; reflexivity.
Defined.
